(** * Grid movement, triggers, choice menus and save prompts of the
      ishetar-game scenes

    A shallow embedding of the scene classes [IshetarScene2], [TravelScene]
    and [NarratorScene].  Every scene object becomes a record of its fields,
    every method a function on that record, and closures handed to the engine
    (tween [onComplete], dialogue [onComplete], choice-menu callbacks, delayed
    calls) become constructors of small inductive types that are run by an
    explicit interpreter.  Calls that leave the scene (scene manager, save
    manager, trigger evaluation) are recorded in a log, newest entry first. *)

From Stdlib Require Import ZArith Lia String Ascii.
From stdpp Require Import base gmap strings list pretty.

Local Open Scope Z_scope.

(** ** Values shared by the scenes *)

(** [playerFacing: 'front' | 'back' | 'left' | 'right'] *)
Inductive Facing := Front | Back | Left | Right.

(** A JavaScript array read [a[i]]: [undefined] (here [None]) outside the
    array. *)
Definition jsIndex {A : Type} (a : list A) (i : Z) : option A :=
  if i <? 0 then None else a !! Z.to_nat i.

(** A JavaScript array write [a[i] = v] at a non-negative index: past the end
    the array grows and the skipped cells are holes, which read as
    [undefined]. *)
Definition jsAssign {A : Type} (i : nat) (v : A) (a : list (option A))
  : list (option A) :=
  if decide (i < length a)%nat
  then <[i := Some v]> a
  else a ++ replicate (i - length a) None ++ [Some v].

(** [t[gridY]?.[gridX]] *)
Definition jsIndex2 {A : Type} (t : list (list A)) (gridX gridY : Z)
  : option A :=
  match jsIndex t gridY with
  | Some row => jsIndex row gridX
  | None => None
  end.

(** [number[][]] terrain that the scene assigns into; a cell is [None] only
    where an assignment left a hole. *)
Definition Terrain : Type := list (list (option Z)).

(** [this.terrain[gridY]?.[gridX]] *)
Definition terrainAt (t : Terrain) (gridX gridY : Z) : option Z :=
  mjoin (jsIndex2 t gridX gridY).

(** The facing chosen by [movePlayer]: the sign of [dx] first, then of [dy];
    the previous facing is kept for the zero vector. *)
Definition facingOf (dx dy : Z) (old : Facing) : Facing :=
  if 0 <? dx then Right
  else if dx <? 0 then Left
  else if 0 <? dy then Front
  else if dy <? 0 then Back
  else old.

(** The four unit vectors that [update] passes to [movePlayer]. *)
Definition unitVector (dx dy : Z) : Prop :=
  (dx = -1 /\ dy = 0) \/ (dx = 1 /\ dy = 0) \/
  (dx = 0 /\ dy = -1) \/ (dx = 0 /\ dy = 1).

(** JavaScript truthiness of an optional string, number and boolean, as used
    by [x || default]. *)
Definition orString (x : option string) (d : string) : string :=
  match x with
  | Some s => if String.eqb s EmptyString then d else s
  | None => d
  end.

Definition orZ (x : option Z) (d : Z) : Z :=
  match x with
  | Some n => if n =? 0 then d else n
  | None => d
  end.

Definition orBool (x : option bool) : bool :=
  match x with Some b => b | None => false end.

Definition truthyZ (x : option Z) : bool :=
  match x with Some n => negb (n =? 0) | None => false end.

Definition truthyString (x : option string) : bool :=
  match x with Some s => negb (String.eqb s EmptyString) | None => false end.

(** [flags[name]] used as a condition. *)
Definition flagSet (flags : gmap string bool) (name : string) : bool :=
  match flags !! name with Some b => b | None => false end.

(** ** External collaborators

    The item and hero-state types, the battle summary and the save manager
    live outside the scenes; they are taken as an interface. *)

Class GameTypes := {
  HeroState : Type;
  InventoryState : Type;
  ChestState : Type;
  BattleXPSummary : Type;
  createDefaultInventory : InventoryState
}.

Section SaveTypes.
Context `{GT : GameTypes}.

(** [SaveData], with the fields the scenes read and write.  The fields a
    scene guards with [||] or a truthiness test when loading are
    optional. *)
Record SaveData := {
  sd_slot : Z;
  sd_mainHero : string;
  sd_currentMap : string;
  sd_playerPosition : Z * Z;
  sd_playTime : option Z;
  sd_heroState : option (gmap string HeroState);
  sd_flags : option (gmap string bool);
  sd_timestamp : Z;
  sd_inventory : option InventoryState;
  sd_chests : option (gmap string ChestState)
}.

(** [SaveSlotPreview] *)
Record SaveSlotPreview := {
  slot : Z;
  isEmpty : bool;
  mainHero : option string;
  heroLevels : option (list Z);
  previewPlayTime : option Z;
  location : option string
}.
End SaveTypes.

(** [SaveManager]: a store of slots with the operations the scenes call. *)
Class SaveManager `{GT : GameTypes} := {
  Store : Type;
  SaveManager_save : SaveData -> Store -> bool * Store;
  SaveManager_load : Z -> Store -> option SaveData;
  SaveManager_delete : Z -> Store -> Store;
  SaveManager_getAllSlotPreviews : Store -> list SaveSlotPreview;
  SaveManager_restoreAllResources :
    gmap string HeroState -> gmap string HeroState
}.

(** ** Dialogue renderer *)

Section Dialogue.
Context {Callback : Type}.

Record DialogueSession := {
  dlgLines : list string;
  dlgSpeaker : string;
  dlgOnComplete : Callback;
  dlgPortrait : option string
}.

(** Modelled from the spec: the class DialogueRenderer is not among the
    scene sources.  [start(lines, speaker, onComplete, portrait?)] enters
    the first line; the renderer is idle ([None]) when no session is
    active. *)
Definition startDialogue (lines : list string) (speaker : string)
    (onComplete : Callback) (portrait : option string)
  : option DialogueSession :=
  Some {| dlgLines := lines; dlgSpeaker := speaker;
          dlgOnComplete := onComplete; dlgPortrait := portrait |}.

(** Modelled from the spec: [advance()] of the absent DialogueRenderer.  If
    more lines remain the next one is shown; if none remain the session
    completes, the renderer returns to idle and [onComplete] is to be
    invoked (returned as the second component). *)
Definition advance (d : option DialogueSession)
  : option DialogueSession * option Callback :=
  match d with
  | None => (None, None)
  | Some ses =>
      match dlgLines ses with
      | _ :: (next :: rest) =>
          (Some {| dlgLines := next :: rest; dlgSpeaker := dlgSpeaker ses;
                   dlgOnComplete := dlgOnComplete ses;
                   dlgPortrait := dlgPortrait ses |}, None)
      | _ => (None, Some (dlgOnComplete ses))
      end
  end.

(** Modelled from the spec: [isDialogueActive()] of the absent
    DialogueRenderer. *)
Definition isDialogueActive (d : option DialogueSession) : bool :=
  match d with Some _ => true | None => false end.
End Dialogue.
Arguments DialogueSession : clear implicits.

(** ** Slot labels of the save menu *)

Definition isDigit (c : ascii) : bool :=
  let n := nat_of_ascii c in (48 <=? n)%nat && (n <=? 57)%nat.

Fixpoint takeDigits (s : string) : list ascii * string :=
  match s with
  | String c rest =>
      if isDigit c
      then let '(ds, rest') := takeDigits rest in (c :: ds, rest')
      else ([], s)
  | EmptyString => ([], EmptyString)
  end.

(** [parseInt(digits, 10)] on a run of decimal digits. *)
Definition parseDigits (ds : list ascii) : Z :=
  fold_left (fun acc c => 10 * acc + (Z.of_nat (nat_of_ascii c) - 48)) ds 0.

Fixpoint stripPrefix (p s : string) : option string :=
  match p, s with
  | EmptyString, _ => Some s
  | String a p', String b s' =>
      if Ascii.eqb a b then stripPrefix p' s' else None
  | String _ _, EmptyString => None
  end.

(** [choice.match(/^Slot (\d+):/)] followed by [parseInt(slotMatch[1], 10)]. *)
Definition matchSlot (choice : string) : option Z :=
  match stripPrefix "Slot " choice with
  | Some rest =>
      match takeDigits rest with
      | ((_ :: _) as ds, String ":" _) => Some (parseDigits ds)
      | _ => None
      end
  | None => None
  end.

(** ** IshetarScene2: the town after the South Gate battle *)

Module IshetarScene2.

(** What one frame of [update] reads from the keyboard, the level-up overlay
    and the clock.  [JustDown] results are edge-triggered, [isDown] results
    are levels. *)
Record Keys := {
  escJustDown : bool;
  enterJustDown : bool;
  upJustDown : bool;
  downJustDown : bool;
  leftIsDown : bool;
  rightIsDown : bool;
  upIsDown : bool;
  downIsDown : bool;
  overlayWaiting : bool;    (* levelUpOverlay.isWaitingForInput() *)
  overlayCompletes : bool;  (* handleInput() ends the overlay *)
  now : Z                   (* Date.now() *)
}.

(** The cached JSON [data_map_ishetar]. *)
Record MapData := {
  md_terrain : list (list Z);
  md_gridWidth : Z;
  md_gridHeight : Z
}.

Section Scene.
Context `{SM : SaveManager}.

Record NPC := {
  npcId : string;
  npcName : string;
  gridX : Z;
  gridY : Z;
  dialogue : list string;
  portrait : option string
}.

(** The closures passed as [onComplete] to [startDialogue]. *)
Inductive DialogueCallback :=
| OnShrineDialogueDone   (* () => this.showShrineSaveMenu() *)
| OnOverwritePromptDone  (* () => this.showChoiceMenu(['Yes','No'], ...) *)
| OnHrothgarDone         (* pause and launch the MenuScene *)
| OnEndDialogue.         (* () => { this.isInDialogue = false; } *)

(** The closures passed as [callback] to [showChoiceMenu]. *)
Inductive ChoiceCallback :=
| ShrineSaveChoice   (* showShrineSaveMenu *)
| SaveSlotChoice     (* showSaveSlotSelection *)
| OverwriteChoice.   (* showOverwriteConfirmation *)

(** The closures passed to [time.delayedCall]. *)
Inductive TimerCallback :=
| ShowLevelUpScreen (levelUps : list BattleXPSummary)
| ShowHrothgarEndingDialogue.

(** The data object given to [scene.start('TravelScene', ...)]. *)
Record TravelPayload := {
  tp_heroId : string;
  tp_heroState : gmap string HeroState;
  tp_gameFlags : gmap string bool;
  tp_playTime : Z;
  tp_inventory : InventoryState;
  tp_chests : gmap string ChestState;
  tp_devMode : bool
}.

(** Calls that leave the scene, and the evaluation of the triggers with
    the moving flag and the position it found. *)
Inductive Effect :=
| SceneStart (key : string) (payload : TravelPayload)
| ScenePause
| SceneLaunchMenu (heroState : gmap string HeroState)
    (returnScene : string) (initialView : option string)
    (inventory : InventoryState)
| SaveCall (data : SaveData) (success : bool)
| TweenAdded (targetX targetY : Z)
| TriggerEvaluation (moving : bool) (x y : Z).

Record Scene := mkScene {
  playerGridX : Z;
  playerGridY : Z;
  playerFacing : Facing;
  heroId : string;
  npcs : list NPC;
  isInDialogue : bool;
  isMoving : bool;
  mapGridWidth : Z;
  mapGridHeight : Z;
  terrain : Terrain;
  heroState : gmap string HeroState;
  gameFlags : gmap string bool;
  playTime : Z;
  sessionStartTime : Z;
  inventory : InventoryState;
  chestStates : gmap string ChestState;
  pendingHrothgarDialogue : bool;
  choiceMenuVisible : bool;
  choiceMenuOptions : list string;
  choiceMenuSelectedIndex : Z;
  devMode : bool;
  choiceMenuCallback : option ChoiceCallback;
  selectedSaveSlot : Z;
  saveSlotPreviews : list SaveSlotPreview;
  levelUpOverlay : option (list BattleXPSummary);
  (* engine and collaborators *)
  dialogueRenderer : option (DialogueSession DialogueCallback);
  tweens : list (Z * Z);        (* pending move tweens, oldest first *)
  timers : list TimerCallback;  (* pending delayed calls, oldest first *)
  saveStore : Store;
  effects : list Effect         (* newest first *)
}.

(** Field initialisers of the class. *)
Definition fresh (st : Store) : Scene :=
  {| playerGridX := 20; playerGridY := 18; playerFacing := Back;
     heroId := "vicas"; npcs := []; isInDialogue := false;
     isMoving := false; mapGridWidth := 32; mapGridHeight := 32;
     terrain := []; heroState := ∅; gameFlags := ∅; playTime := 0;
     sessionStartTime := 0; inventory := createDefaultInventory;
     chestStates := ∅; pendingHrothgarDialogue := false;
     choiceMenuVisible := false; choiceMenuOptions := [];
     choiceMenuSelectedIndex := 0; devMode := false;
     choiceMenuCallback := None; selectedSaveSlot := 1;
     saveSlotPreviews := []; levelUpOverlay := None;
     dialogueRenderer := None; tweens := []; timers := [];
     saveStore := st; effects := [] |}.

(** *** Field updates *)

Definition setPosition (x y : Z) (s : Scene) : Scene :=
  let '(mkScene _ _ f hid ns dlg mov w h t hs gf pt sst inv ch ph cv co ci dm
          cc ss sp lo dr tw tm st ef) := s in
  mkScene x y f hid ns dlg mov w h t hs gf pt sst inv ch ph cv co ci dm
          cc ss sp lo dr tw tm st ef.

Definition setFacing (f : Facing) (s : Scene) : Scene :=
  let '(mkScene x y _ hid ns dlg mov w h t hs gf pt sst inv ch ph cv co ci dm
          cc ss sp lo dr tw tm st ef) := s in
  mkScene x y f hid ns dlg mov w h t hs gf pt sst inv ch ph cv co ci dm
          cc ss sp lo dr tw tm st ef.

Definition setIsInDialogue (dlg : bool) (s : Scene) : Scene :=
  let '(mkScene x y f hid ns _ mov w h t hs gf pt sst inv ch ph cv co ci dm
          cc ss sp lo dr tw tm st ef) := s in
  mkScene x y f hid ns dlg mov w h t hs gf pt sst inv ch ph cv co ci dm
          cc ss sp lo dr tw tm st ef.

Definition setIsMoving (mov : bool) (s : Scene) : Scene :=
  let '(mkScene x y f hid ns dlg _ w h t hs gf pt sst inv ch ph cv co ci dm
          cc ss sp lo dr tw tm st ef) := s in
  mkScene x y f hid ns dlg mov w h t hs gf pt sst inv ch ph cv co ci dm
          cc ss sp lo dr tw tm st ef.

Definition setHeroState (hs : gmap string HeroState) (s : Scene) : Scene :=
  let '(mkScene x y f hid ns dlg mov w h t _ gf pt sst inv ch ph cv co ci dm
          cc ss sp lo dr tw tm st ef) := s in
  mkScene x y f hid ns dlg mov w h t hs gf pt sst inv ch ph cv co ci dm
          cc ss sp lo dr tw tm st ef.

Definition setPlayTime (pt sst : Z) (s : Scene) : Scene :=
  let '(mkScene x y f hid ns dlg mov w h t hs gf _ _ inv ch ph cv co ci dm
          cc ss sp lo dr tw tm st ef) := s in
  mkScene x y f hid ns dlg mov w h t hs gf pt sst inv ch ph cv co ci dm
          cc ss sp lo dr tw tm st ef.

Definition setPendingHrothgarDialogue (ph : bool) (s : Scene) : Scene :=
  let '(mkScene x y f hid ns dlg mov w h t hs gf pt sst inv ch _ cv co ci dm
          cc ss sp lo dr tw tm st ef) := s in
  mkScene x y f hid ns dlg mov w h t hs gf pt sst inv ch ph cv co ci dm
          cc ss sp lo dr tw tm st ef.

Definition setChoiceMenuVisible (cv : bool) (s : Scene) : Scene :=
  let '(mkScene x y f hid ns dlg mov w h t hs gf pt sst inv ch ph _ co ci dm
          cc ss sp lo dr tw tm st ef) := s in
  mkScene x y f hid ns dlg mov w h t hs gf pt sst inv ch ph cv co ci dm
          cc ss sp lo dr tw tm st ef.

Definition setChoiceMenu (co : list string) (cc : option ChoiceCallback)
    (ci : Z) (cv : bool) (s : Scene) : Scene :=
  let '(mkScene x y f hid ns dlg mov w h t hs gf pt sst inv ch ph _ _ _ dm
          _ ss sp lo dr tw tm st ef) := s in
  mkScene x y f hid ns dlg mov w h t hs gf pt sst inv ch ph cv co ci dm
          cc ss sp lo dr tw tm st ef.

Definition setChoiceMenuSelectedIndex (ci : Z) (s : Scene) : Scene :=
  let '(mkScene x y f hid ns dlg mov w h t hs gf pt sst inv ch ph cv co _ dm
          cc ss sp lo dr tw tm st ef) := s in
  mkScene x y f hid ns dlg mov w h t hs gf pt sst inv ch ph cv co ci dm
          cc ss sp lo dr tw tm st ef.

Definition setSelectedSaveSlot (ss : Z) (s : Scene) : Scene :=
  let '(mkScene x y f hid ns dlg mov w h t hs gf pt sst inv ch ph cv co ci dm
          cc _ sp lo dr tw tm st ef) := s in
  mkScene x y f hid ns dlg mov w h t hs gf pt sst inv ch ph cv co ci dm
          cc ss sp lo dr tw tm st ef.

Definition setSaveSlotPreviews (sp : list SaveSlotPreview) (s : Scene)
  : Scene :=
  let '(mkScene x y f hid ns dlg mov w h t hs gf pt sst inv ch ph cv co ci dm
          cc ss _ lo dr tw tm st ef) := s in
  mkScene x y f hid ns dlg mov w h t hs gf pt sst inv ch ph cv co ci dm
          cc ss sp lo dr tw tm st ef.

Definition setLevelUpOverlay (lo : option (list BattleXPSummary))
    (s : Scene) : Scene :=
  let '(mkScene x y f hid ns dlg mov w h t hs gf pt sst inv ch ph cv co ci dm
          cc ss sp _ dr tw tm st ef) := s in
  mkScene x y f hid ns dlg mov w h t hs gf pt sst inv ch ph cv co ci dm
          cc ss sp lo dr tw tm st ef.

Definition setDialogueRenderer
    (dr : option (DialogueSession DialogueCallback)) (s : Scene) : Scene :=
  let '(mkScene x y f hid ns dlg mov w h t hs gf pt sst inv ch ph cv co ci dm
          cc ss sp lo _ tw tm st ef) := s in
  mkScene x y f hid ns dlg mov w h t hs gf pt sst inv ch ph cv co ci dm
          cc ss sp lo dr tw tm st ef.

Definition setTweens (tw : list (Z * Z)) (s : Scene) : Scene :=
  let '(mkScene x y f hid ns dlg mov w h t hs gf pt sst inv ch ph cv co ci dm
          cc ss sp lo dr _ tm st ef) := s in
  mkScene x y f hid ns dlg mov w h t hs gf pt sst inv ch ph cv co ci dm
          cc ss sp lo dr tw tm st ef.

Definition setTimers (tm : list TimerCallback) (s : Scene) : Scene :=
  let '(mkScene x y f hid ns dlg mov w h t hs gf pt sst inv ch ph cv co ci dm
          cc ss sp lo dr tw _ st ef) := s in
  mkScene x y f hid ns dlg mov w h t hs gf pt sst inv ch ph cv co ci dm
          cc ss sp lo dr tw tm st ef.

Definition setSaveStore (st : Store) (s : Scene) : Scene :=
  let '(mkScene x y f hid ns dlg mov w h t hs gf pt sst inv ch ph cv co ci dm
          cc ss sp lo dr tw tm _ ef) := s in
  mkScene x y f hid ns dlg mov w h t hs gf pt sst inv ch ph cv co ci dm
          cc ss sp lo dr tw tm st ef.

Definition emit (e : Effect) (s : Scene) : Scene :=
  let '(mkScene x y f hid ns dlg mov w h t hs gf pt sst inv ch ph cv co ci dm
          cc ss sp lo dr tw tm st ef) := s in
  mkScene x y f hid ns dlg mov w h t hs gf pt sst inv ch ph cv co ci dm
          cc ss sp lo dr tw tm st (e :: ef).

(** *** NPC placement *)

Definition npcData : list (string * string * Z * Z * list string) :=
  [ ("meris", "Meris", 22, 5,
     [ "I was so foolish to come alone. But I had to find help for my family.";
       "My husband took my two oldest to pay respects at Old Quetzi's Shrine.";
       "But they should have been home two days ago..." ]);
    ("rowena", "Lady Rowena", 21, 5,
     [ "Ishetar is a safe haven for everyone. We have to help poor Meris and her family.";
       "Please, travel to the North Gate and see what you can do.";
       "Don't forget to burn an offering, and talk to Hrothgar if you need combat advice." ]);
    ("guard_north", "Town Guard", 14, 3,
     [ "Lady Rowena said you'd be going on a rescue mission. You're so brave!";
       "I recommend taking the old hunting paths. The cliffs are full of harpies this time of year!";
       "Steer clear of the Red Vale though. It's much too dangerous!" ]);
    ("guard_east", "Town Guard", 25, 11,
     [ "The south gate is secure again, thanks to you.";
       "But I wonder... where did those creatures come from?" ]);
    ("pelor", "Shrine", 8, 4,
     [ "*You burn your offering at the shrine. You find yourself fully rested.*" ]);
    ("villager_male", "Baker", 9, 9,
     [ "He may be surly, but Vicas is the best medic I've ever seen.";
       "We're so lucky he chose to make Ishetar home." ]);
    ("villager_female", "Gertrude", 9, 15,
     [ "Oh, what a terrible fright! And that young lady had a little one with her!";
       "She'll be in need of one of Miss Lyra's special cups of tea!" ]);
    ("child_male", "Young Boy", 15, 18,
     [ "Did you really fight those monsters?! Wow!";
       "I bet Azrael got em all by himself! I hear their daggers are invisible!" ]);
    ("child_female", "Young Girl", 22, 15,
     [ "When I grow up, I want to learn magic!";
       "But maybe not from Rooker... he's kind of scary!" ]);
    ("hrothgar", "Hrothgar", 12, 15,
     [ "I may be an old veteran, but I can still help you learn combat tactics!";
       "And be sure to bring me any equipment you find. I can help you attune to it." ]);
    ("sombra", "Sombra", 20, 3,
     [ "Devils. At the gate. I admit to being curious, but not this close..." ]) ].

Definition heroDialogues : list (string * list string) :=
  [ ("vicas", ["We were lucky. That young lady and her baby could have been killed."]);
    ("rooker", ["Fascinating creatures...I wonder what drew them here."]);
    ("lyra", ["Light can heal or it can blind. Those devils learned the difference."]);
    ("azrael", ["Heh. That was a good warm-up. When's the real fight?"]);
    ("thump", ["The spirits are uneasy. Something feels very wrong..."]) ].

Definition heroNames : list (string * string) :=
  [ ("vicas", "Vicas"); ("rooker", "Rooker"); ("lyra", "Lyra");
    ("azrael", "Azrael"); ("thump", "Thump") ].

Definition heroPositions : list (Z * Z) :=
  [ (17, 10); (19, 10); (17, 12); (19, 12) ].

Definition allHeroes : list string :=
  [ "vicas"; "azrael"; "lyra"; "thump"; "rooker" ].

Definition assoc {A : Type} (k : string) (l : list (string * A)) : option A :=
  snd <$> List.find (fun kv => String.eqb (fst kv) k) l.

(** [placeNPCs]; [textureExists] stands for [this.textures.exists]. *)
Definition placeNPCs (textureExists : string -> bool) (hero : string)
  : list NPC :=
  map (fun d =>
         let '(i, n, x, y, dl) := d in
         let portraitKey := "portrait_" +:+ i in
         {| npcId := i; npcName := n; gridX := x; gridY := y;
            dialogue := dl;
            portrait := if textureExists portraitKey
                        then Some portraitKey else None |})
      npcData
  ++
  map (fun hp =>
         let '(h, (x, y)) := hp in
         {| npcId := h;
            npcName := default h (assoc h heroNames);
            gridX := x; gridY := y;
            dialogue := default ["..."] (assoc h heroDialogues);
            portrait := Some ("portrait_" +:+ h) |})
      (combine (List.filter (fun h => negb (String.eqb h hero)) allHeroes)
               heroPositions).

(** *** Movement *)

Definition npcAt (s : Scene) (gx gy : Z) : bool :=
  existsb (fun npc => (gridX npc =? gx) && (gridY npc =? gy)) (npcs s).

Definition outOfBounds (s : Scene) (gx gy : Z) : bool :=
  (gx <? 0) || (mapGridWidth s <=? gx) ||
  (gy <? 0) || (mapGridHeight s <=? gy).

Definition terrainImpassable (s : Scene) (gx gy : Z) : bool :=
  match terrainAt (terrain s) gx gy with
  | Some v => v =? 2
  | None => false
  end.

Definition isPassable (s : Scene) (gx gy : Z) : bool :=
  if (gx <? 0) || (mapGridWidth s <=? gx) then false
  else if (gy <? 0) || (mapGridHeight s <=? gy) then false
  else if terrainImpassable s gx gy then false
  else if npcAt s gx gy then false
  else true.

Definition northGateTiles : list (Z * Z) := [ (13, 2); (14, 2) ].

Definition goToTravelMap (s : Scene) : Scene :=
  emit (SceneStart "TravelScene"
          {| tp_heroId := heroId s; tp_heroState := heroState s;
             tp_gameFlags := gameFlags s; tp_playTime := playTime s;
             tp_inventory := inventory s; tp_chests := chestStates s;
             tp_devMode := devMode s |}) s.

Definition onNorthGate (s : Scene) : bool :=
  existsb (fun tile => (fst tile =? playerGridX s) &&
                       (snd tile =? playerGridY s)) northGateTiles.

Definition checkTriggers (s : Scene) : Scene :=
  let s := emit (TriggerEvaluation (isMoving s) (playerGridX s)
                   (playerGridY s)) s in
  if onNorthGate s then goToTravelMap s else s.

Definition movePlayer (dx dy : Z) (s : Scene) : Scene :=
  if isMoving s || isInDialogue s then s
  else
    let newGridX := playerGridX s + dx in
    let newGridY := playerGridY s + dy in
    let s := setFacing (facingOf dx dy (playerFacing s)) s in
    if negb (isPassable s newGridX newGridY) then s
    else
      let s := setIsMoving true s in
      let s := setPosition newGridX newGridY s in
      emit (TweenAdded newGridX newGridY)
           (setTweens (tweens s ++ [(newGridX, newGridY)]) s).

(** The [onComplete] of the move tween. *)
Definition moveTweenComplete (s : Scene) : Scene :=
  checkTriggers (setIsMoving false s).

(** *** Choice menu *)

Definition showChoiceMenu (options : list string) (callback : ChoiceCallback)
    (s : Scene) : Scene :=
  setChoiceMenu options (Some callback) 0 true s.

(** What [updateChoiceMenuSelection] puts on screen: colour and text of
    every option. *)
Definition choiceMenuTexts (s : Scene) : list (string * string) :=
  imap (fun index option =>
          if Z.of_nat index =? choiceMenuSelectedIndex s
          then ("#ffff00", "> " +:+ option)
          else ("#ffffff", "  " +:+ option))
       (choiceMenuOptions s).

Definition hideChoiceMenu (s : Scene) : Scene :=
  setIsInDialogue false (setChoiceMenuVisible false s).

(** [this.choiceMenuOptions[this.choiceMenuSelectedIndex]] *)
Definition selectedOption (s : Scene) : option string :=
  jsIndex (choiceMenuOptions s) (choiceMenuSelectedIndex s).

(** *** Shrine save system *)

Definition sceneStartDialogue (lines : list string) (speaker : string)
    (cb : DialogueCallback) (p : option string) (s : Scene) : Scene :=
  setDialogueRenderer (startDialogue lines speaker cb p) s.

Definition handleShrineInteraction (npc : NPC) (s : Scene) : Scene :=
  let s := setHeroState (SaveManager_restoreAllResources (heroState s)) s in
  sceneStartDialogue
    (dialogue npc ++ ["Would you like to record your progress for the bards?"])
    (npcName npc) OnShrineDialogueDone (portrait npc) s.

Definition showShrineSaveMenu (s : Scene) : Scene :=
  showChoiceMenu ["Yes"; "No"] ShrineSaveChoice s.

Definition formatPlayTime (seconds : Z) : string :=
  let hours := seconds / 3600 in
  let minutes := Z.rem seconds 3600 / 60 in
  if 0 <? hours
  then pretty hours +:+ "h " +:+ pretty minutes +:+ "m"
  else pretty minutes +:+ "m".

Definition getHeroDisplayName (hero : string) : string :=
  default hero
    (assoc hero [("vicas", "Vicas"); ("azrael", "Azrael"); ("thump", "Thump")]).

Definition slotLabel (preview : SaveSlotPreview) : string :=
  if isEmpty preview
  then "Slot " +:+ pretty (slot preview) +:+ ": [Empty]"
  else
    let heroName := getHeroDisplayName (orString (mainHero preview) "unknown") in
    let level := orZ (heroLevels preview ≫= head) 1 in
    let time := formatPlayTime (orZ (previewPlayTime preview) 0) in
    "Slot " +:+ pretty (slot preview) +:+ ": " +:+ heroName +:+ " Lv" +:+
    pretty level +:+ " " +:+ time.

Definition findPreview (s : Scene) : option SaveSlotPreview :=
  List.find (fun p => slot p =? selectedSaveSlot s) (saveSlotPreviews s).

Definition showSaveSlotSelection (s : Scene) : Scene :=
  let s := setSaveSlotPreviews
             (SaveManager_getAllSlotPreviews (saveStore s)) s in
  let options := map slotLabel (saveSlotPreviews s) ++ ["Cancel"] in
  showChoiceMenu options SaveSlotChoice s.

Definition showOverwriteConfirmation (s : Scene) : Scene :=
  let heroName :=
    getHeroDisplayName
      (orString (findPreview s ≫= mainHero) "unknown") in
  let s := setIsInDialogue true s in
  sceneStartDialogue
    ["Overwrite " +:+ heroName +:+ "'s tale in Slot " +:+
     pretty (selectedSaveSlot s) +:+ "?"]
    "Shrine" OnOverwritePromptDone None s.

(** [saveGame]; [t] is what [Date.now()] returns during the call. *)
Definition saveGame (t : Z) (slotNo : Z) (s : Scene) : Scene :=
  let sessionSeconds := (t - sessionStartTime s) / 1000 in
  let totalPlayTime := playTime s + sessionSeconds in
  let saveData :=
    {| sd_slot := slotNo;
       sd_mainHero := heroId s;
       sd_currentMap := "ishetar_town_post_battle";
       sd_playerPosition := (playerGridX s, playerGridY s);
       sd_playTime := Some totalPlayTime;
       sd_heroState := Some (heroState s);
       sd_flags :=
         Some (<["south_gate_battle_complete" := true]> (gameFlags s));
       sd_timestamp := t;
       sd_inventory := Some (inventory s);
       sd_chests := Some (chestStates s) |} in
  let '(success, st) := SaveManager_save saveData (saveStore s) in
  let s := emit (SaveCall saveData success) (setSaveStore st s) in
  if success then
    let s := setPlayTime totalPlayTime t s in
    let s := setIsInDialogue true s in
    sceneStartDialogue ["*Your progress has been recorded by the bards.*"]
      "Shrine" OnEndDialogue None s
  else
    let s := setIsInDialogue true s in
    sceneStartDialogue
      ["*The bards seem distracted. Your progress could not be recorded.*"]
      "Shrine" OnEndDialogue None s.

(** The callbacks given to [showChoiceMenu].  [choice] is [None] when the
    selected index is outside the option list ([undefined]); the slot
    callback then fails at [choice.match] and does nothing more. *)
Definition runChoiceCallback (t : Z) (cb : ChoiceCallback)
    (choice : option string) (s : Scene) : Scene :=
  match cb with
  | ShrineSaveChoice =>
      if bool_decide (choice = Some "Yes") then showSaveSlotSelection s
      else s
  | SaveSlotChoice =>
      match choice with
      | None => s
      | Some c =>
          if String.eqb c "Cancel" then s
          else
            match matchSlot c with
            | None => s
            | Some n =>
                let s := setSelectedSaveSlot n s in
                match findPreview s with
                | Some preview =>
                    if negb (isEmpty preview)
                    then showOverwriteConfirmation s
                    else saveGame t (selectedSaveSlot s) s
                | None => saveGame t (selectedSaveSlot s) s
                end
            end
      end
  | OverwriteChoice =>
      if bool_decide (choice = Some "Yes")
      then saveGame t (selectedSaveSlot s) s
      else s
  end.

Definition selectChoiceMenuOption (t : Z) (s : Scene) : Scene :=
  let selected := selectedOption s in
  let s := hideChoiceMenu s in
  match choiceMenuCallback s with
  | Some cb => runChoiceCallback t cb selected s
  | None => s
  end.

(** *** Dialogue callbacks and interaction *)

Definition launchMenu (initialView : option string) (s : Scene) : Scene :=
  emit (SceneLaunchMenu (heroState s) "IshetarScene2" initialView
          (inventory s))
       (emit ScenePause s).

Definition runDialogueCallback (cb : DialogueCallback) (s : Scene) : Scene :=
  match cb with
  | OnShrineDialogueDone => showShrineSaveMenu s
  | OnOverwritePromptDone => showChoiceMenu ["Yes"; "No"] OverwriteChoice s
  | OnHrothgarDone =>
      launchMenu (Some "hrothgar")
        (setPendingHrothgarDialogue true (setIsInDialogue false s))
  | OnEndDialogue => setIsInDialogue false s
  end.

(** [this.dialogueRenderer.advance()] with the completion callback run on
    the scene. *)
Definition advanceDialogue (s : Scene) : Scene :=
  let '(d, cb) := advance (dialogueRenderer s) in
  let s := setDialogueRenderer d s in
  match cb with
  | Some c => runDialogueCallback c s
  | None => s
  end.

Definition showHrothgarEndingDialogue (s : Scene) : Scene :=
  sceneStartDialogue ["Now get out there and show those demons what ya got!"]
    "Hrothgar" OnEndDialogue None (setIsInDialogue true s).

Definition startNPCDialogue (npc : NPC) (s : Scene) : Scene :=
  let s := setIsInDialogue true s in
  if String.eqb (npcId npc) "pelor" then handleShrineInteraction npc s
  else if String.eqb (npcId npc) "hrothgar" then
    sceneStartDialogue (dialogue npc) (npcName npc) OnHrothgarDone
      (portrait npc) s
  else
    sceneStartDialogue (dialogue npc) (npcName npc) OnEndDialogue
      (portrait npc) s.

Definition facingOffsets (f : Facing) : Z * Z :=
  match f with
  | Front => (0, 1) | Back => (0, -1) | Left => (-1, 0) | Right => (1, 0)
  end.

Definition tryInteract (s : Scene) : Scene :=
  if isInDialogue s then
    if isDialogueActive (dialogueRenderer s) then advanceDialogue s else s
  else
    let offset := facingOffsets (playerFacing s) in
    let targetX := playerGridX s + fst offset in
    let targetY := playerGridY s + snd offset in
    match List.find (fun n => (gridX n =? targetX) && (gridY n =? targetY))
                    (npcs s) with
    | Some npc => startNPCDialogue npc s
    | None => s
    end.

Definition showLevelUpScreen (levelUps : list BattleXPSummary) (s : Scene)
  : Scene :=
  setLevelUpOverlay (Some levelUps) (setIsInDialogue true s).

(** The [onComplete] given to the level-up overlay. *)
Definition levelUpComplete (s : Scene) : Scene :=
  setIsInDialogue false (setLevelUpOverlay None s).

Definition hasOverlay (s : Scene) : bool :=
  match levelUpOverlay s with Some _ => true | None => false end.

(** *** The frame loop *)

Definition update (k : Keys) (s : Scene) : Scene :=
  if hasOverlay s && overlayWaiting k then
    if enterJustDown k
    then (if overlayCompletes k then levelUpComplete s else s)
    else s
  else if escJustDown k then launchMenu None s
  else if choiceMenuVisible s then
    if upJustDown k then
      setChoiceMenuSelectedIndex
        (Z.max 0 (choiceMenuSelectedIndex s - 1)) s
    else if downJustDown k then
      setChoiceMenuSelectedIndex
        (Z.min (Z.of_nat (length (choiceMenuOptions s)) - 1)
               (choiceMenuSelectedIndex s + 1)) s
    else if enterJustDown k then selectChoiceMenuOption (now k) s
    else s
  else
    let s := if enterJustDown k then tryInteract s else s in
    if negb (isInDialogue s) && negb (isMoving s) then
      if leftIsDown k then movePlayer (-1) 0 s
      else if rightIsDown k then movePlayer 1 0 s
      else if upIsDown k then movePlayer 0 (-1) s
      else if downIsDown k then movePlayer 0 1 s
      else s
    else s.

(** *** Engine events *)

Inductive Event :=
| Frame (k : Keys)      (* the engine calls update() *)
| TweenComplete         (* the oldest move tween reaches its target *)
| TimerFired            (* the oldest delayed call is due *)
| Resume.               (* the scene's 'resume' event *)

Definition runTimer (cb : TimerCallback) (s : Scene) : Scene :=
  match cb with
  | ShowLevelUpScreen levelUps => showLevelUpScreen levelUps s
  | ShowHrothgarEndingDialogue => showHrothgarEndingDialogue s
  end.

(** The listener registered with [this.events.on('resume', ...)]. *)
Definition onResume (s : Scene) : Scene :=
  if pendingHrothgarDialogue s then
    let s := setPendingHrothgarDialogue false s in
    setTimers (timers s ++ [ShowHrothgarEndingDialogue]) s
  else s.

Definition step (e : Event) (s : Scene) : Scene :=
  match e with
  | Frame k => update k s
  | TweenComplete =>
      match tweens s with
      | _ :: rest => moveTweenComplete (setTweens rest s)
      | [] => s
      end
  | TimerFired =>
      match timers s with
      | cb :: rest => runTimer cb (setTimers rest s)
      | [] => s
      end
  | Resume => onResume s
  end.

Definition run (evs : list Event) (s : Scene) : Scene :=
  fold_left (fun st e => step e st) evs s.

(** *** Scene start *)

(** The [data] argument of [create]. *)
Record CreateData := {
  d_heroId : option string;
  d_heroState : option (gmap string HeroState);
  d_gameFlags : option (gmap string bool);
  d_playTime : option Z;
  d_devMode : option bool;
  d_levelUps : option (list BattleXPSummary);
  d_inventory : option InventoryState;
  d_chests : option (gmap string ChestState);
  d_saveData : option SaveData
}.

(** [mapData.terrain.map((row) => [...row])] *)
Definition copyTerrain (t : list (list Z)) : Terrain :=
  map (map Some) t.

(** The four assignments [this.terrain[1][13] = 0] ... [this.terrain[2][14]
    = 0]; an assignment into a missing row throws, which is [None]. *)
Definition openNorthGate (t : Terrain) : option Terrain :=
  row1 ← t !! 1%nat;
  let t := <[1%nat := jsAssign 14 0 (jsAssign 13 0 row1)]> t in
  row2 ← t !! 2%nat;
  Some (<[2%nat := jsAssign 14 0 (jsAssign 13 0 row2)]> t).

(** [create(data)] on a scene object [prev] (a fresh one, or the object of
    an earlier run: the position, the facing and the menu fields are not
    reset).  [md] is the cached map JSON, [t] the clock, [textureExists]
    the texture manager.  The engine drops the tweens and timers of the
    earlier run. *)
Definition create (data : CreateData) (md : option MapData) (t : Z)
    (textureExists : string -> bool) (prev : Scene) : option Scene :=
  let hero := orString (d_heroId data) "vicas" in
  let hs0 := default ∅ (d_heroState data) in
  let gf0 := default ∅ (d_gameFlags data) in
  let pt0 := orZ (d_playTime data) 0 in
  let hs :=
    match d_saveData data, d_heroState data with
    | Some sd, None => default hs0 (sd_heroState sd)
    | _, _ => hs0
    end in
  let gf :=
    match d_saveData data, d_gameFlags data with
    | Some sd, None => default gf0 (sd_flags sd)
    | _, _ => gf0
    end in
  let pt :=
    match d_saveData data with
    | Some sd =>
        if negb (truthyZ (d_playTime data)) && truthyZ (sd_playTime sd)
        then default pt0 (sd_playTime sd) else pt0
    | None => pt0
    end in
  let inv :=
    match d_saveData data with
    | Some sd => default createDefaultInventory (sd_inventory sd)
    | None => default createDefaultInventory (d_inventory data)
    end in
  let ch :=
    match d_saveData data with
    | Some sd => default ∅ (sd_chests sd)
    | None => default ∅ (d_chests data)
    end in
  map_part ←
    match md with
    | Some m =>
        tr ← openNorthGate (copyTerrain (md_terrain m));
        Some (tr, md_gridWidth m, md_gridHeight m)
    | None => Some (terrain prev, mapGridWidth prev, mapGridHeight prev)
    end;
  let '(tr, w, h) := map_part in
  Some
    {| playerGridX := playerGridX prev;
       playerGridY := playerGridY prev;
       playerFacing := playerFacing prev;
       heroId := hero;
       npcs := placeNPCs textureExists hero;
       isInDialogue := false;
       isMoving := false;
       mapGridWidth := w;
       mapGridHeight := h;
       terrain := tr;
       heroState := hs;
       gameFlags := gf;
       playTime := pt;
       sessionStartTime := t;
       inventory := inv;
       chestStates := ch;
       pendingHrothgarDialogue := pendingHrothgarDialogue prev;
       choiceMenuVisible := false;
       choiceMenuOptions := choiceMenuOptions prev;
       choiceMenuSelectedIndex := choiceMenuSelectedIndex prev;
       devMode := orBool (d_devMode data);
       choiceMenuCallback := choiceMenuCallback prev;
       selectedSaveSlot := selectedSaveSlot prev;
       saveSlotPreviews := saveSlotPreviews prev;
       levelUpOverlay := levelUpOverlay prev;
       dialogueRenderer := None;
       tweens := [];
       timers :=
         match d_levelUps data with
         | Some ((_ :: _) as l) => [ShowLevelUpScreen l]
         | _ => []
         end;
       saveStore := saveStore prev;
       effects := effects prev |}.

(** *** Observations used by the properties *)

(** The player's tile is neither impassable terrain nor taken by an NPC. *)
Definition standsClear (s : Scene) : Prop :=
  terrainImpassable s (playerGridX s) (playerGridY s) = false /\
  npcAt s (playerGridX s) (playerGridY s) = false.

(** The player's tile is not impassable terrain, and it is free of NPCs
    unless it is still the tile [(x0, y0)]. *)
Definition clearSince (x0 y0 : Z) (s : Scene) : Prop :=
  terrainImpassable s (playerGridX s) (playerGridY s) = false /\
  (npcAt s (playerGridX s) (playerGridY s) = false \/
   (playerGridX s, playerGridY s) = (x0, y0)).

(** A call of [movePlayer] with any vector, or an engine event. *)
Inductive Action :=
| Move (dx dy : Z)
| Engine (e : Event).

Definition act (a : Action) (s : Scene) : Scene :=
  match a with
  | Move dx dy => movePlayer dx dy s
  | Engine e => step e s
  end.

Definition perform (acts : list Action) (s : Scene) : Scene :=
  fold_left (fun st a => act a st) acts s.

(** Reads the log (newest first) as a sequence of moves: every accepted
    move ([TweenAdded]) is followed by exactly one trigger evaluation,
    found with the moving flag cleared and at the tile that move
    committed, before the next move is accepted.  The result is [None] if
    the log is not of that shape, otherwise the target of the move whose
    evaluation is still outstanding, if any. *)
Fixpoint pairedLog (log : list Effect) : option (option (Z * Z)) :=
  match log with
  | [] => Some None
  | TweenAdded x y :: older =>
      match pairedLog older with
      | Some None => Some (Some (x, y))
      | _ => None
      end
  | TriggerEvaluation moving x y :: older =>
      match pairedLog older with
      | Some (Some (x', y')) =>
          if negb moving && (x =? x') && (y =? y') then Some None else None
      | _ => None
      end
  | _ :: older => pairedLog older
  end.

(** Accepted moves and trigger evaluations recorded in a log. *)
Fixpoint acceptedMoves (log : list Effect) : nat :=
  match log with
  | [] => 0%nat
  | TweenAdded _ _ :: older => S (acceptedMoves older)
  | _ :: older => acceptedMoves older
  end.

Fixpoint evaluations (log : list Effect) : nat :=
  match log with
  | [] => 0%nat
  | TriggerEvaluation _ _ _ :: older => S (evaluations older)
  | _ :: older => evaluations older
  end.

(** The log is paired and agrees with the scene: an outstanding move is
    exactly the one pending tween, with the moving flag set and the player
    on its target tile. *)
Definition consistent (s : Scene) : Prop :=
  match pairedLog (effects s) with
  | Some None => isMoving s = false /\ tweens s = []
  | Some (Some p) =>
      isMoving s = true /\ tweens s = [p] /\
      (playerGridX s, playerGridY s) = p
  | None => False
  end.

(** What the movement code reads and writes; the dialogue, menu and save
    code leaves all of it alone. *)
Definition motion (s : Scene) :=
  (playerGridX s, playerGridY s, playerFacing s, isMoving s, tweens s,
   (terrain s, npcs s, mapGridWidth s, mapGridHeight s),
   pairedLog (effects s)).

(** Frames in which the choice menu reads one key (no overlay, no ESC). *)
Definition menuUp (k : Keys) : Prop :=
  overlayWaiting k = false /\ escJustDown k = false /\ upJustDown k = true.

Definition menuDown (k : Keys) : Prop :=
  overlayWaiting k = false /\ escJustDown k = false /\
  upJustDown k = false /\ downJustDown k = true.

Definition menuConfirm (k : Keys) : Prop :=
  overlayWaiting k = false /\ escJustDown k = false /\
  upJustDown k = false /\ downJustDown k = false /\ enterJustDown k = true.

(** A frame in which only the arrow keys matter and only "down" is held. *)
Definition holdsDown (k : Keys) : Prop :=
  overlayWaiting k = false /\ escJustDown k = false /\
  enterJustDown k = false /\ leftIsDown k = false /\
  rightIsDown k = false /\ upIsDown k = false /\ downIsDown k = true.

(** The menu that [showChoiceMenu options cb] opened is still on screen,
    with its highlighted index inside the option list. *)
Definition menuOpen (options : list string) (cb : ChoiceCallback)
    (s : Scene) : Prop :=
  choiceMenuVisible s = true /\ choiceMenuOptions s = options /\
  choiceMenuCallback s = Some cb /\
  0 <= choiceMenuSelectedIndex s <= Z.of_nat (length options) - 1.

(** The pending tweens agree with the moving flag: none, or exactly one
    while the flag is set. *)
Definition tweensSettled (s : Scene) : Prop :=
  tweens s = [] \/ (isMoving s = true /\ exists p, tweens s = [p]).

(** A frame in which the dialogue reads the confirm key. *)
Definition dialogueConfirm (k : Keys) : Prop :=
  overlayWaiting k = false /\ escJustDown k = false /\
  enterJustDown k = true.

(** The scene is idle: no dialogue, no menu, nothing on screen. *)
Definition idle (s : Scene) : Prop :=
  isInDialogue s = false /\ choiceMenuVisible s = false /\
  dialogueRenderer s = None.

(** *** Further observations *)

(** The save-slot menu is on screen as [showSaveSlotSelection] builds it from
    the previews the scene holds. *)
Definition saveMenuOpen (s : Scene) : Prop :=
  choiceMenuVisible s = true /\ choiceMenuCallback s = Some SaveSlotChoice /\
  choiceMenuOptions s = map slotLabel (saveSlotPreviews s) ++ ["Cancel"].

(** The tile an NPC stands on. *)
Definition npcTile (n : NPC) : Z * Z := (gridX n, gridY n).

(** The tiles [create] assigns 0 to: [terrain[1][13]], [terrain[1][14]],
    [terrain[2][13]], [terrain[2][14]], as (x, y). *)
Definition openedTiles : list (Z * Z) := [ (13, 1); (14, 1); (13, 2); (14, 2) ].

(** The player stands inside the grid. *)
Definition inGrid (s : Scene) : Prop :=
  0 <= playerGridX s < mapGridWidth s /\
  0 <= playerGridY s < mapGridHeight s.

(** The data of the save calls recorded in a log, newest first. *)
Definition saveCallsOf (log : list Effect) : list SaveData :=
  omap (fun e => match e with SaveCall d _ => Some d | _ => None end) log.

(** While the choice menu is on screen its highlighted index is inside the
    option list. *)
Definition menuInRange (s : Scene) : Prop :=
  choiceMenuVisible s = true ->
  0 <= choiceMenuSelectedIndex s < Z.of_nat (length (choiceMenuOptions s)).
End Scene.
End IshetarScene2.

(** ** TravelScene: the world map *)

Module TravelScene.

Record Keys := {
  escJustDown : bool;
  enterJustDown : bool;
  upJustDown : bool;
  downJustDown : bool;
  leftIsDown : bool;
  rightIsDown : bool;
  upIsDown : bool;
  downIsDown : bool;
  overlayWaiting : bool;    (* levelUpOverlay.isWaitingForInput() *)
  overlayCompletes : bool   (* handleInput() ends the overlay *)
}.

Record LocationBounds := {
  x1 : Z;
  y1 : Z;
  x2 : Z;
  y2 : Z
}.

(** [type: 'town' | 'battle' | 'blocked' | 'explore'] *)
Inductive LocationType := Town | Battle | Blocked | Explore.

Record LocationMarker := {
  locId : string;
  locName : string;
  bounds : LocationBounds;
  markerPosition : Z * Z;
  description : list string;
  locType : LocationType;
  battleMap : option string;
  exploreMap : option string;
  targetScene : option string
}.

(** The cached JSON [data_map_travel]. *)
Record TravelMapData := {
  md_gridWidth : Z;
  md_gridHeight : Z;
  md_terrain : list (list Z);
  md_playerStart : Z * Z;
  md_locations : list LocationMarker
}.

Definition isBlocked (t : LocationType) : bool :=
  match t with Blocked => true | _ => false end.

Section Scene.
Context `{GT : GameTypes}.

(** The closures passed as [onComplete] to [startDialogue]. *)
Inductive DialogueCallback :=
| OnEndDialogue          (* () => { this.isInDialogue = false; } *)
| OnHellhoundWarningDone (* start the hellhound battle *)
| OnDescriptionDone (location : LocationMarker).
                         (* () => this.travelToLocation(location) *)

(** The closure passed to [time.delayedCall]. *)
Inductive TimerCallback :=
| ShowLevelUpScreen (levelUps : list BattleXPSummary).

(** The data object given to [scene.start]; the last four fields are
    present only for some targets. *)
Record Payload := {
  p_heroId : string;
  p_heroState : gmap string HeroState;
  p_gameFlags : gmap string bool;
  p_playTime : Z;
  p_inventory : InventoryState;
  p_chests : gmap string ChestState;
  p_devMode : bool;
  p_battleMap : option string;
  p_exploreMap : option string;
  p_returnScene : option string;
  p_returnPosition : option (Z * Z)
}.

(** Calls that leave the scene, the dialogues opened by the two trigger
    paths, and the evaluations of the triggers with the moving flag and
    the position they found. *)
Inductive Effect :=
| SceneStart (key : string) (payload : Payload)
| ScenePause
| SceneLaunchMenu (heroState : gmap string HeroState)
    (returnScene : string) (inventory : InventoryState)
| TweenAdded (targetX targetY : Z)
| BlockedWarning (location : string)
| HellhoundAmbush
| SpecialTriggerEvaluation (moving : bool) (x y : Z)
| LocationProximityEvaluation (moving : bool) (x y : Z).

Record Scene := mkScene {
  playerGridX : Z;
  playerGridY : Z;
  playerFacing : Facing;
  heroId : string;
  locations : list LocationMarker;
  isInDialogue : bool;
  shownBlockedDialogue : gset string;
  choiceMenuVisible : bool;
  choiceMenuOptions : list string;
  choiceMenuSelectedIndex : Z;
  isMoving : bool;
  terrain : list (list Z);
  mapGridWidth : Z;
  mapGridHeight : Z;
  heroState : gmap string HeroState;
  gameFlags : gmap string bool;
  playTime : Z;
  inventory : InventoryState;
  chestStates : gmap string ChestState;
  devMode : bool;
  levelUpOverlay : option (list BattleXPSummary);
  (* engine *)
  dialogueRenderer : option (DialogueSession DialogueCallback);
  tweens : list (Z * Z);        (* pending move tweens, oldest first *)
  timers : list TimerCallback;  (* pending delayed calls, oldest first *)
  effects : list Effect         (* newest first *)
}.

(** Field initialisers of the class. *)
Definition fresh : Scene :=
  {| playerGridX := 10; playerGridY := 10; playerFacing := Front;
     heroId := "vicas"; locations := []; isInDialogue := false;
     shownBlockedDialogue := ∅; choiceMenuVisible := false;
     choiceMenuOptions := []; choiceMenuSelectedIndex := 0;
     isMoving := false; terrain := []; mapGridWidth := 20;
     mapGridHeight := 20; heroState := ∅; gameFlags := ∅; playTime := 0;
     inventory := createDefaultInventory; chestStates := ∅;
     devMode := false; levelUpOverlay := None; dialogueRenderer := None;
     tweens := []; timers := []; effects := [] |}.

(** *** Field updates *)

Definition setPosition (x y : Z) (s : Scene) : Scene :=
  let '(mkScene _ _ f hid locs dlg shown cv co ci mov t w h hs gf pt inv
    ch dm lo dr tw tm ef) := s in
  mkScene x y f hid locs dlg shown cv co ci mov t w h hs gf pt inv ch dm
    lo dr tw tm ef.

Definition setFacing (f : Facing) (s : Scene) : Scene :=
  let '(mkScene x y _ hid locs dlg shown cv co ci mov t w h hs gf pt inv
    ch dm lo dr tw tm ef) := s in
  mkScene x y f hid locs dlg shown cv co ci mov t w h hs gf pt inv ch dm
    lo dr tw tm ef.

Definition setIsInDialogue (dlg : bool) (s : Scene) : Scene :=
  let '(mkScene x y f hid locs _ shown cv co ci mov t w h hs gf pt inv ch
    dm lo dr tw tm ef) := s in
  mkScene x y f hid locs dlg shown cv co ci mov t w h hs gf pt inv ch dm
    lo dr tw tm ef.

Definition setShownBlockedDialogue (shown : gset string) (s : Scene) : Scene :=
  let '(mkScene x y f hid locs dlg _ cv co ci mov t w h hs gf pt inv ch
    dm lo dr tw tm ef) := s in
  mkScene x y f hid locs dlg shown cv co ci mov t w h hs gf pt inv ch dm
    lo dr tw tm ef.

Definition setChoiceMenuVisible (cv : bool) (s : Scene) : Scene :=
  let '(mkScene x y f hid locs dlg shown _ co ci mov t w h hs gf pt inv
    ch dm lo dr tw tm ef) := s in
  mkScene x y f hid locs dlg shown cv co ci mov t w h hs gf pt inv ch dm
    lo dr tw tm ef.

Definition setChoiceMenuSelectedIndex (ci : Z) (s : Scene) : Scene :=
  let '(mkScene x y f hid locs dlg shown cv co _ mov t w h hs gf pt inv
    ch dm lo dr tw tm ef) := s in
  mkScene x y f hid locs dlg shown cv co ci mov t w h hs gf pt inv ch dm
    lo dr tw tm ef.

Definition setIsMoving (mov : bool) (s : Scene) : Scene :=
  let '(mkScene x y f hid locs dlg shown cv co ci _ t w h hs gf pt inv ch
    dm lo dr tw tm ef) := s in
  mkScene x y f hid locs dlg shown cv co ci mov t w h hs gf pt inv ch dm
    lo dr tw tm ef.

Definition setGameFlags (gf : gmap string bool) (s : Scene) : Scene :=
  let '(mkScene x y f hid locs dlg shown cv co ci mov t w h hs _ pt inv
    ch dm lo dr tw tm ef) := s in
  mkScene x y f hid locs dlg shown cv co ci mov t w h hs gf pt inv ch dm
    lo dr tw tm ef.

Definition setLevelUpOverlay (lo : option (list BattleXPSummary)) (s : Scene) : Scene :=
  let '(mkScene x y f hid locs dlg shown cv co ci mov t w h hs gf pt inv
    ch dm _ dr tw tm ef) := s in
  mkScene x y f hid locs dlg shown cv co ci mov t w h hs gf pt inv ch dm
    lo dr tw tm ef.

Definition setDialogueRenderer (dr : option (DialogueSession DialogueCallback)) (s : Scene) : Scene :=
  let '(mkScene x y f hid locs dlg shown cv co ci mov t w h hs gf pt inv
    ch dm lo _ tw tm ef) := s in
  mkScene x y f hid locs dlg shown cv co ci mov t w h hs gf pt inv ch dm
    lo dr tw tm ef.

Definition setTweens (tw : list (Z * Z)) (s : Scene) : Scene :=
  let '(mkScene x y f hid locs dlg shown cv co ci mov t w h hs gf pt inv
    ch dm lo dr _ tm ef) := s in
  mkScene x y f hid locs dlg shown cv co ci mov t w h hs gf pt inv ch dm
    lo dr tw tm ef.

Definition setTimers (tm : list TimerCallback) (s : Scene) : Scene :=
  let '(mkScene x y f hid locs dlg shown cv co ci mov t w h hs gf pt inv
    ch dm lo dr tw _ ef) := s in
  mkScene x y f hid locs dlg shown cv co ci mov t w h hs gf pt inv ch dm
    lo dr tw tm ef.

Definition emit (e : Effect) (s : Scene) : Scene :=
  let '(mkScene x y f hid locs dlg shown cv co ci mov t w h hs gf pt inv
    ch dm lo dr tw tm ef) := s in
  mkScene x y f hid locs dlg shown cv co ci mov t w h hs gf pt inv ch dm
    lo dr tw tm (e :: ef).

(** *** Locations and passability *)

Definition isWithinBounds (gx gy : Z) (b : LocationBounds) : bool :=
  (x1 b <=? gx) && (gx <=? x2 b) && (y1 b <=? gy) && (gy <=? y2 b).

Definition getLocationAtPosition (s : Scene) (gx gy : Z)
  : option LocationMarker :=
  List.find (fun loc => isWithinBounds gx gy (bounds loc)) (locations s).

Definition isPassable (s : Scene) (gx gy : Z) : bool :=
  if (gx <? 0) || (mapGridWidth s <=? gx) then false
  else if (gy <? 0) || (mapGridHeight s <=? gy) then false
  else
    match jsIndex2 (terrain s) gx gy with
    | Some v => if v =? 2 then false else true
    | None => true
    end.

Definition sceneStartDialogue (lines : list string) (speaker : string)
    (cb : DialogueCallback) (s : Scene) : Scene :=
  setDialogueRenderer (startDialogue lines speaker cb None) s.

(** *** Triggers *)

Definition basePayload (s : Scene) : Payload :=
  {| p_heroId := heroId s; p_heroState := heroState s;
     p_gameFlags := gameFlags s; p_playTime := playTime s;
     p_inventory := inventory s; p_chests := chestStates s;
     p_devMode := devMode s; p_battleMap := None; p_exploreMap := None;
     p_returnScene := None; p_returnPosition := None |}.

Definition battlePayload (map : string) (s : Scene) : Payload :=
  {| p_heroId := heroId s; p_heroState := heroState s;
     p_gameFlags := gameFlags s; p_playTime := playTime s;
     p_inventory := inventory s; p_chests := chestStates s;
     p_devMode := devMode s; p_battleMap := Some map;
     p_exploreMap := None; p_returnScene := Some "TravelScene";
     p_returnPosition := Some (playerGridX s, playerGridY s) |}.

Definition explorePayload (map : string) (s : Scene) : Payload :=
  {| p_heroId := heroId s; p_heroState := heroState s;
     p_gameFlags := gameFlags s; p_playTime := playTime s;
     p_inventory := inventory s; p_chests := chestStates s;
     p_devMode := devMode s; p_battleMap := None;
     p_exploreMap := Some map; p_returnScene := None;
     p_returnPosition := None |}.

Definition triggerHellhoundAmbush (s : Scene) : Scene :=
  let s := emit HellhoundAmbush s in
  let s := setGameFlags
             (<["hellhound_ambush_triggered" := true]> (gameFlags s)) s in
  let s := setIsInDialogue true s in
  sceneStartDialogue
    ["...growl..."; "Something large is hunting you. No, somethings!"]
    "Wilderness" OnHellhoundWarningDone s.

(** The condition under which [checkSpecialTriggers] fires the ambush. *)
Definition ambushDue (s : Scene) : bool :=
  flagSet (gameFlags s) "quetzi_shrine_battle_complete" &&
  negb (flagSet (gameFlags s) "hellhound_ambush_triggered") &&
  (playerGridY s =? 19).

Definition checkSpecialTriggers (s : Scene) : bool * Scene :=
  let s := emit (SpecialTriggerEvaluation (isMoving s) (playerGridX s)
                   (playerGridY s)) s in
  if ambushDue s then (true, triggerHellhoundAmbush s) else (false, s).

Definition promptLocationInteraction (location : LocationMarker)
    (s : Scene) : Scene :=
  let s := setIsInDialogue true s in
  if String.eqb (locId location) "hunting_paths" &&
     flagSet (gameFlags s) "quetzi_shrine_battle_complete" then
    sceneStartDialogue ["The path is now safe, thanks to you!"]
      (locName location) OnEndDialogue s
  else if String.eqb (locId location) "quetzi_shrine" &&
          flagSet (gameFlags s) "quetzi_shrine_battle_complete" then
    sceneStartDialogue ["The Shrine has been cleansed, thanks to you."]
      (locName location) OnEndDialogue s
  else
    sceneStartDialogue (description location) (locName location)
      (OnDescriptionDone location) s.

Definition checkLocationProximity (s : Scene) : Scene :=
  let s := emit (LocationProximityEvaluation (isMoving s) (playerGridX s)
                   (playerGridY s)) s in
  match getLocationAtPosition s (playerGridX s) (playerGridY s) with
  | Some location =>
      if negb (isBlocked (locType location))
      then promptLocationInteraction location s else s
  | None => s
  end.

Definition travelToLocation (location : LocationMarker) (s : Scene)
  : Scene :=
  match locType location with
  | Town =>
      if truthyString (targetScene location) then
        let target :=
          if flagSet (gameFlags s) "hellhound_cave_battle_complete"
          then "IshetarScene3" else "IshetarScene2" in
        emit (SceneStart target (basePayload s)) s
      else s
  | Battle =>
      if truthyString (battleMap location) then
        emit (SceneStart "BattleScene"
                (battlePayload (default EmptyString (battleMap location)) s))
             s
      else s
  | Explore =>
      if truthyString (exploreMap location) then
        emit (SceneStart "ExploreScene"
                (explorePayload (default EmptyString (exploreMap location))
                   s)) s
      else s
  | Blocked => s
  end.

(** *** Movement *)

(** [targetLocation], when [targetLocation && targetLocation.type ===
    'blocked'] holds for the location found at the tile. *)
Definition blockedLocationAt (s : Scene) (gx gy : Z)
  : option LocationMarker :=
  match getLocationAtPosition s gx gy with
  | Some targetLocation =>
      if isBlocked (locType targetLocation) then Some targetLocation
      else None
  | None => None
  end.

Definition movePlayer (dx dy : Z) (s : Scene) : Scene :=
  if isMoving s || isInDialogue s then s
  else
    let newGridX := playerGridX s + dx in
    let newGridY := playerGridY s + dy in
    let s := setFacing (facingOf dx dy (playerFacing s)) s in
    if negb (isPassable s newGridX newGridY) then s
    else
      match blockedLocationAt s newGridX newGridY with
      | Some targetLocation =>
          if bool_decide (locId targetLocation ∈ shownBlockedDialogue s)
          then s
          else
            let s := setShownBlockedDialogue
                       ({[locId targetLocation]} ∪ shownBlockedDialogue s)
                       s in
            let s := setIsInDialogue true s in
            emit (BlockedWarning (locId targetLocation))
              (sceneStartDialogue (description targetLocation)
                 (locName targetLocation) OnEndDialogue s)
      | None =>
          let s := setIsMoving true s in
          let s := setPosition newGridX newGridY s in
          emit (TweenAdded newGridX newGridY)
               (setTweens (tweens s ++ [(newGridX, newGridY)]) s)
      end.

(** The [onComplete] of the move tween. *)
Definition moveTweenComplete (s : Scene) : Scene :=
  let s := setIsMoving false s in
  let '(fired, s) := checkSpecialTriggers s in
  if fired then s else checkLocationProximity s.

(** *** Dialogue callbacks and interaction *)

Definition runDialogueCallback (cb : DialogueCallback) (s : Scene) : Scene :=
  match cb with
  | OnEndDialogue => setIsInDialogue false s
  | OnHellhoundWarningDone =>
      emit (SceneStart "BattleScene" (battlePayload "hellhound_cave" s)) s
  | OnDescriptionDone location => travelToLocation location s
  end.

Definition advanceDialogue (s : Scene) : Scene :=
  let '(d, cb) := advance (dialogueRenderer s) in
  let s := setDialogueRenderer d s in
  match cb with
  | Some c => runDialogueCallback c s
  | None => s
  end.

Definition tryInteract (s : Scene) : Scene :=
  if isInDialogue s then advanceDialogue s
  else
    match getLocationAtPosition s (playerGridX s) (playerGridY s) with
    | Some location =>
        if negb (isBlocked (locType location))
        then promptLocationInteraction location s else s
    | None => s
    end.

Definition hideChoiceMenu (s : Scene) : Scene :=
  setIsInDialogue false (setChoiceMenuVisible false s).

(** [choiceMenuCallback] is never assigned in this class, so selecting only
    hides the menu. *)
Definition selectChoiceMenuOption (s : Scene) : Scene :=
  hideChoiceMenu s.

Definition showLevelUpScreen (levelUps : list BattleXPSummary) (s : Scene)
  : Scene :=
  setLevelUpOverlay (Some levelUps) (setIsInDialogue true s).

Definition levelUpComplete (s : Scene) : Scene :=
  setIsInDialogue false (setLevelUpOverlay None s).

Definition hasOverlay (s : Scene) : bool :=
  match levelUpOverlay s with Some _ => true | None => false end.

(** *** The frame loop *)

Definition update (k : Keys) (s : Scene) : Scene :=
  if hasOverlay s && overlayWaiting k then
    if enterJustDown k
    then (if overlayCompletes k then levelUpComplete s else s)
    else s
  else if escJustDown k then
    emit (SceneLaunchMenu (heroState s) "TravelScene" (inventory s))
         (emit ScenePause s)
  else if choiceMenuVisible s then
    if upJustDown k then
      setChoiceMenuSelectedIndex
        (Z.max 0 (choiceMenuSelectedIndex s - 1)) s
    else if downJustDown k then
      setChoiceMenuSelectedIndex
        (Z.min (Z.of_nat (length (choiceMenuOptions s)) - 1)
               (choiceMenuSelectedIndex s + 1)) s
    else if enterJustDown k then selectChoiceMenuOption s
    else s
  else
    let s := if enterJustDown k then tryInteract s else s in
    if negb (isInDialogue s) && negb (isMoving s) then
      if leftIsDown k then movePlayer (-1) 0 s
      else if rightIsDown k then movePlayer 1 0 s
      else if upIsDown k then movePlayer 0 (-1) s
      else if downIsDown k then movePlayer 0 1 s
      else s
    else s.

(** *** Engine events *)

Inductive Event :=
| Frame (k : Keys)      (* the engine calls update() *)
| TweenComplete         (* the oldest move tween reaches its target *)
| TimerFired.           (* the oldest delayed call is due *)

Definition step (e : Event) (s : Scene) : Scene :=
  match e with
  | Frame k => update k s
  | TweenComplete =>
      match tweens s with
      | _ :: rest => moveTweenComplete (setTweens rest s)
      | [] => s
      end
  | TimerFired =>
      match timers s with
      | ShowLevelUpScreen l :: rest => showLevelUpScreen l (setTimers rest s)
      | [] => s
      end
  end.

Definition run (evs : list Event) (s : Scene) : Scene :=
  fold_left (fun st e => step e st) evs s.

(** *** Scene start *)

Record CreateData := {
  d_heroId : option string;
  d_heroState : option (gmap string HeroState);
  d_gameFlags : option (gmap string bool);
  d_playTime : option Z;
  d_playerPosition : option (Z * Z);
  d_levelUps : option (list BattleXPSummary);
  d_inventory : option InventoryState;
  d_chests : option (gmap string ChestState);
  d_devMode : option bool
}.

(** [create(data)] on a scene object [prev]; [md] is the cached map JSON.
    The engine drops the tweens and timers of an earlier run. *)
Definition create (data : CreateData) (md : TravelMapData) (prev : Scene)
  : Scene :=
  let pos := default (md_playerStart md) (d_playerPosition data) in
  {| playerGridX := fst pos;
     playerGridY := snd pos;
     playerFacing := playerFacing prev;
     heroId := orString (d_heroId data) "vicas";
     locations := md_locations md;
     isInDialogue := false;
     shownBlockedDialogue := ∅;
     choiceMenuVisible := false;
     choiceMenuOptions := choiceMenuOptions prev;
     choiceMenuSelectedIndex := choiceMenuSelectedIndex prev;
     isMoving := false;
     terrain := md_terrain md;
     mapGridWidth := md_gridWidth md;
     mapGridHeight := md_gridHeight md;
     heroState := default ∅ (d_heroState data);
     gameFlags := default ∅ (d_gameFlags data);
     playTime := orZ (d_playTime data) 0;
     inventory := default createDefaultInventory (d_inventory data);
     chestStates := default ∅ (d_chests data);
     devMode := orBool (d_devMode data);
     levelUpOverlay := levelUpOverlay prev;
     dialogueRenderer := None;
     tweens := [];
     timers :=
       match d_levelUps data with
       | Some ((_ :: _) as l) => [ShowLevelUpScreen l]
       | _ => []
       end;
     effects := effects prev |}.

(** *** Observations used by the properties *)

(** Where the log stands between a move and its trigger evaluations. *)
Inductive Pairing :=
| Settled                    (* no move is waiting for its evaluation *)
| Outstanding (p : Z * Z)    (* a move to [p] was accepted, tween pending *)
| SpecialDone (p : Z * Z).   (* its special triggers have been evaluated,
                                their outcome is not yet in the log *)

(** Reads the log (newest first) as a sequence of moves: every accepted
    move ([TweenAdded]) is followed by exactly one evaluation of the
    special triggers and then by exactly one of the two things that
    evaluation leads to, the hellhound ambush or the evaluation of the
    location proximity; both evaluations are found with the moving flag
    cleared and at the tile that move committed, and all of it comes before
    the next move is accepted.  [None] if the log is not of that shape. *)
Fixpoint pairedLog (log : list Effect) : option Pairing :=
  match log with
  | [] => Some Settled
  | TweenAdded x y :: older =>
      match pairedLog older with
      | Some Settled => Some (Outstanding (x, y))
      | _ => None
      end
  | SpecialTriggerEvaluation moving x y :: older =>
      match pairedLog older with
      | Some (Outstanding (x', y')) =>
          if negb moving && (x =? x') && (y =? y')
          then Some (SpecialDone (x, y)) else None
      | _ => None
      end
  | HellhoundAmbush :: older =>
      match pairedLog older with
      | Some (SpecialDone _) => Some Settled
      | _ => None
      end
  | LocationProximityEvaluation moving x y :: older =>
      match pairedLog older with
      | Some (SpecialDone (x', y')) =>
          if negb moving && (x =? x') && (y =? y')
          then Some Settled else None
      | _ => None
      end
  | _ :: older => pairedLog older
  end.

(** Accepted moves and trigger evaluations recorded in a log. *)
Fixpoint acceptedMoves (log : list Effect) : nat :=
  match log with
  | [] => 0%nat
  | TweenAdded _ _ :: older => S (acceptedMoves older)
  | _ :: older => acceptedMoves older
  end.

Fixpoint specialEvaluations (log : list Effect) : nat :=
  match log with
  | [] => 0%nat
  | SpecialTriggerEvaluation _ _ _ :: older => S (specialEvaluations older)
  | _ :: older => specialEvaluations older
  end.

Fixpoint proximityEvaluations (log : list Effect) : nat :=
  match log with
  | [] => 0%nat
  | LocationProximityEvaluation _ _ _ :: older =>
      S (proximityEvaluations older)
  | _ :: older => proximityEvaluations older
  end.

(** The log is paired and agrees with the scene: either no move is
    waiting, or the one pending tween is that of the move still waiting for
    its evaluations.  A log that stops between the special triggers and
    their outcome is not consistent. *)
Definition consistent (s : Scene) : Prop :=
  match pairedLog (effects s) with
  | Some Settled => isMoving s = false /\ tweens s = []
  | Some (Outstanding p) =>
      isMoving s = true /\ tweens s = [p] /\
      (playerGridX s, playerGridY s) = p
  | Some (SpecialDone _) | None => False
  end.

(** How often the hellhound ambush has fired. *)
Fixpoint ambushes (log : list Effect) : nat :=
  match log with
  | [] => 0%nat
  | HellhoundAmbush :: older => S (ambushes older)
  | _ :: older => ambushes older
  end.

(** How often the warning of the blocked location [name] was started. *)
Fixpoint warnings (name : string) (log : list Effect) : nat :=
  match log with
  | [] => 0%nat
  | BlockedWarning l :: older =>
      if String.eqb l name then S (warnings name older)
      else warnings name older
  | _ :: older => warnings name older
  end.

Definition ambushTriggered (s : Scene) : bool :=
  flagSet (gameFlags s) "hellhound_ambush_triggered".

(** What the movement and trigger code reads and writes; the dialogue and
    menu code leaves all of it alone. *)
Definition motion (s : Scene) :=
  (playerGridX s, playerGridY s, playerFacing s, isMoving s, tweens s,
   (terrain s, mapGridWidth s, mapGridHeight s, locations s),
   (gameFlags s, shownBlockedDialogue s),
   (pairedLog (effects s), ambushes (effects s),
    fun name => warnings name (effects s))).

(** A call of [movePlayer] with any vector, or an engine event. *)
Inductive Action :=
| Move (dx dy : Z)
| Engine (e : Event).

Definition act (a : Action) (s : Scene) : Scene :=
  match a with
  | Move dx dy => movePlayer dx dy s
  | Engine e => step e s
  end.

Definition perform (acts : list Action) (s : Scene) : Scene :=
  fold_left (fun st a => act a st) acts s.

(** The three state changes [movePlayer] can make: turn the sprite, start
    the warning of a blocked location, start the move. *)
Definition turned (dx dy : Z) (s : Scene) : Scene :=
  setFacing (facingOf dx dy (playerFacing s)) s.

Definition warned (l : LocationMarker) (s : Scene) : Scene :=
  emit (BlockedWarning (locId l))
    (sceneStartDialogue (description l) (locName l) OnEndDialogue
       (setIsInDialogue true
          (setShownBlockedDialogue ({[locId l]} ∪ shownBlockedDialogue s)
             s))).

Definition moved (x y : Z) (s : Scene) : Scene :=
  emit (TweenAdded x y)
    (setTweens (tweens s ++ [(x, y)])
       (setPosition x y (setIsMoving true s))).

(** The ambush has fired at most [n] times, counting the one time it can
    still fire while its flag is unset. *)
Definition ambushBudget (n : nat) (s : Scene) : Prop :=
  (ambushes (effects s) + (if ambushTriggered s then 0 else 1) <= n)%nat.

(** The flag is set and the ambush has fired [n] times. *)
Definition ambushSpent (n : nat) (s : Scene) : Prop :=
  ambushTriggered s = true /\ ambushes (effects s) = n.



(** *** Further observations *)

(** The player's tile is inside the grid, not impassable terrain, and the
    location found there, if any, is not a blocked one. *)
Definition onOpenGround (s : Scene) : Prop :=
  isPassable s (playerGridX s) (playerGridY s) = true /\
  blockedLocationAt s (playerGridX s) (playerGridY s) = None.

(** The calls of [scene.start] recorded in a log, newest first. *)
Definition sceneStarts (log : list Effect) : list (string * Payload) :=
  omap (fun e => match e with
                 | SceneStart key p => Some (key, p)
                 | _ => None
                 end) log.

(** A start of one of the four scenes [travelToLocation] and the ambush
    name, with the data each is given: the later town scene exactly when
    the flags passed on hold [hellhound_cave_battle_complete], a battle
    with its map and the way back to the travel map, an exploration with
    its map. *)
Definition properStart (start : string * Payload) : Prop :=
  let '(key, p) := start in
  (key = "IshetarScene2" /\
   flagSet (p_gameFlags p) "hellhound_cave_battle_complete" = false) \/
  (key = "IshetarScene3" /\
   flagSet (p_gameFlags p) "hellhound_cave_battle_complete" = true) \/
  (key = "BattleScene" /\ p_returnScene p = Some "TravelScene" /\
   is_Some (p_battleMap p) /\ is_Some (p_returnPosition p)) \/
  (key = "ExploreScene" /\ is_Some (p_exploreMap p)).
End Scene.
End TravelScene.

(** ** NarratorScene: the save-slot list and the delete prompt

    Of the eight phases of this scene the two that deal with save slots are
    embedded: [save_select] and [delete_confirm], with the methods they call.
    The other phases appear only as values of [currentPhase]. *)

Module NarratorScene.

Inductive Phase :=
| mode_select | intro | menu | hero_select | opening
| save_select | delete_confirm | dev_scene_select.

(** [Phaser.Input.Keyboard.JustDown] of the keys read in the two phases. *)
Record Keys := {
  upJustDown : bool;
  downJustDown : bool;
  leftJustDown : bool;
  rightJustDown : bool;
  enterJustDown : bool;
  deleteJustDown : bool;
  backspaceJustDown : bool;
  escJustDown : bool
}.

(** A text object of the delete prompt: its string and its colour. *)
Record Text := {
  text : string;
  color : string
}.

Section Scene.
Context `{SM : SaveManager}.

Inductive Effect :=
| SaveDelete (slotNo : Z)
| SaveLoad (slotNo : Z)
| SceneStartTravel (data : SaveData) (playerPosition : Z * Z)
| SceneStartTown (key : string) (data : SaveData).

Record Scene := mkScene {
  currentPhase : Phase;
  menuSelection : Z;
  saveSlotPreviews : list SaveSlotPreview;
  saveSlotSelection : Z;
  saveSlotContainerVisible : bool;
  deleteConfirmTexts : list Text;
  deleteConfirmSelection : Z;
  slotToDelete : Z;
  saveStore : Store;
  effects : list Effect   (* newest first *)
}.

Definition emit (e : Effect) (s : Scene) : Scene :=
  {| currentPhase := currentPhase s; menuSelection := menuSelection s;
     saveSlotPreviews := saveSlotPreviews s;
     saveSlotSelection := saveSlotSelection s;
     saveSlotContainerVisible := saveSlotContainerVisible s;
     deleteConfirmTexts := deleteConfirmTexts s;
     deleteConfirmSelection := deleteConfirmSelection s;
     slotToDelete := slotToDelete s; saveStore := saveStore s;
     effects := e :: effects s |}.

Definition showMainMenu (s : Scene) : Scene :=
  {| currentPhase := menu; menuSelection := 0;
     saveSlotPreviews := saveSlotPreviews s;
     saveSlotSelection := saveSlotSelection s;
     saveSlotContainerVisible := saveSlotContainerVisible s;
     deleteConfirmTexts := deleteConfirmTexts s;
     deleteConfirmSelection := deleteConfirmSelection s;
     slotToDelete := slotToDelete s; saveStore := saveStore s;
     effects := effects s |}.

Definition showSaveSlotSelection (s : Scene) : Scene :=
  {| currentPhase := save_select; menuSelection := menuSelection s;
     saveSlotPreviews := saveSlotPreviews s;
     saveSlotSelection := 0;
     saveSlotContainerVisible := true;
     deleteConfirmTexts := deleteConfirmTexts s;
     deleteConfirmSelection := deleteConfirmSelection s;
     slotToDelete := slotToDelete s; saveStore := saveStore s;
     effects := effects s |}.

Definition setSaveSlotSelection (i : Z) (s : Scene) : Scene :=
  {| currentPhase := currentPhase s; menuSelection := menuSelection s;
     saveSlotPreviews := saveSlotPreviews s;
     saveSlotSelection := i;
     saveSlotContainerVisible := saveSlotContainerVisible s;
     deleteConfirmTexts := deleteConfirmTexts s;
     deleteConfirmSelection := deleteConfirmSelection s;
     slotToDelete := slotToDelete s; saveStore := saveStore s;
     effects := effects s |}.

Definition setSaveSlotContainerVisible (v : bool) (s : Scene) : Scene :=
  {| currentPhase := currentPhase s; menuSelection := menuSelection s;
     saveSlotPreviews := saveSlotPreviews s;
     saveSlotSelection := saveSlotSelection s;
     saveSlotContainerVisible := v;
     deleteConfirmTexts := deleteConfirmTexts s;
     deleteConfirmSelection := deleteConfirmSelection s;
     slotToDelete := slotToDelete s; saveStore := saveStore s;
     effects := effects s |}.

Definition setDeleteConfirmTexts (ts : list Text) (s : Scene) : Scene :=
  {| currentPhase := currentPhase s; menuSelection := menuSelection s;
     saveSlotPreviews := saveSlotPreviews s;
     saveSlotSelection := saveSlotSelection s;
     saveSlotContainerVisible := saveSlotContainerVisible s;
     deleteConfirmTexts := ts;
     deleteConfirmSelection := deleteConfirmSelection s;
     slotToDelete := slotToDelete s; saveStore := saveStore s;
     effects := effects s |}.

Definition setDeleteConfirmSelection (i : Z) (s : Scene) : Scene :=
  {| currentPhase := currentPhase s; menuSelection := menuSelection s;
     saveSlotPreviews := saveSlotPreviews s;
     saveSlotSelection := saveSlotSelection s;
     saveSlotContainerVisible := saveSlotContainerVisible s;
     deleteConfirmTexts := deleteConfirmTexts s;
     deleteConfirmSelection := i;
     slotToDelete := slotToDelete s; saveStore := saveStore s;
     effects := effects s |}.

Definition setSaveSlotPreviews (ps : list SaveSlotPreview) (s : Scene)
  : Scene :=
  {| currentPhase := currentPhase s; menuSelection := menuSelection s;
     saveSlotPreviews := ps;
     saveSlotSelection := saveSlotSelection s;
     saveSlotContainerVisible := saveSlotContainerVisible s;
     deleteConfirmTexts := deleteConfirmTexts s;
     deleteConfirmSelection := deleteConfirmSelection s;
     slotToDelete := slotToDelete s; saveStore := saveStore s;
     effects := effects s |}.

Definition setSaveStore (st : Store) (s : Scene) : Scene :=
  {| currentPhase := currentPhase s; menuSelection := menuSelection s;
     saveSlotPreviews := saveSlotPreviews s;
     saveSlotSelection := saveSlotSelection s;
     saveSlotContainerVisible := saveSlotContainerVisible s;
     deleteConfirmTexts := deleteConfirmTexts s;
     deleteConfirmSelection := deleteConfirmSelection s;
     slotToDelete := slotToDelete s; saveStore := st;
     effects := effects s |}.

Definition setCurrentPhase (p : Phase) (s : Scene) : Scene :=
  {| currentPhase := p; menuSelection := menuSelection s;
     saveSlotPreviews := saveSlotPreviews s;
     saveSlotSelection := saveSlotSelection s;
     saveSlotContainerVisible := saveSlotContainerVisible s;
     deleteConfirmTexts := deleteConfirmTexts s;
     deleteConfirmSelection := deleteConfirmSelection s;
     slotToDelete := slotToDelete s; saveStore := saveStore s;
     effects := effects s |}.

(** [this.saveSlotPreviews = SaveManager.getAllSlotPreviews()] *)
Definition refreshPreviews (s : Scene) : Scene :=
  setSaveSlotPreviews (SaveManager_getAllSlotPreviews (saveStore s)) s.

(** [continueGame]: the entry into the save-slot list from the main menu. *)
Definition continueGame (s : Scene) : Scene :=
  let s := refreshPreviews s in
  if existsb (fun p => negb (isEmpty p)) (saveSlotPreviews s)
  then showSaveSlotSelection s
  else setCurrentPhase intro s.

(** [this.saveSlotPreviews[this.saveSlotSelection]] *)
Definition selectedPreview (s : Scene) : option SaveSlotPreview :=
  jsIndex (saveSlotPreviews s) (saveSlotSelection s).

(** [selectSaveSlot]; reading [isEmpty] of a missing preview throws and
    leaves the scene as it is. *)
Definition selectSaveSlot (s : Scene) : Scene :=
  match selectedPreview s with
  | None => s
  | Some preview =>
      if isEmpty preview then s
      else
        let s := emit (SaveLoad (slot preview)) s in
        match SaveManager_load (slot preview) (saveStore s) with
        | None => s
        | Some saveData =>
            let s := setSaveSlotContainerVisible false s in
            if String.eqb (sd_currentMap saveData)
                 "quetzi_shrine_exploration"
            then emit (SceneStartTravel saveData (4, 13)) s
            else
              let targetScene :=
                if String.eqb (sd_currentMap saveData)
                     "ishetar_town_post_battle" then "IshetarScene2"
                else if String.eqb (sd_currentMap saveData)
                          "ishetar_town_post_tutorial" then "IshetarScene3"
                else "IshetarScene1" in
              emit (SceneStartTown targetScene saveData) s
        end
  end.

Definition updateDeleteConfirmSelection (s : Scene) : Scene :=
  setDeleteConfirmTexts
    (imap (fun index t =>
             {| text := text t;
                color := if Z.of_nat index =? deleteConfirmSelection s
                         then "#ffff00" else "#ffffff" |})
          (deleteConfirmTexts s)) s.

Definition showDeleteConfirmation (s : Scene) : Scene :=
  match selectedPreview s with
  | None => s
  | Some preview =>
      if isEmpty preview then s
      else
        let s :=
          {| currentPhase := delete_confirm;
             menuSelection := menuSelection s;
             saveSlotPreviews := saveSlotPreviews s;
             saveSlotSelection := saveSlotSelection s;
             saveSlotContainerVisible := saveSlotContainerVisible s;
             deleteConfirmTexts :=
               [ {| text := "No"; color := "#ffff00" |};
                 {| text := "Yes"; color := "#ffffff" |} ];
             deleteConfirmSelection := 1;
             slotToDelete := slot preview; saveStore := saveStore s;
             effects := effects s |} in
        updateDeleteConfirmSelection s
  end.

Definition confirmDelete (s : Scene) : Scene :=
  let s :=
    if deleteConfirmSelection s =? 1
    then emit (SaveDelete (slotToDelete s))
           (setSaveStore
              (SaveManager_delete (slotToDelete s) (saveStore s)) s)
    else s in
  let s := setDeleteConfirmTexts [] s in
  let s := refreshPreviews s in
  if existsb (fun p => negb (isEmpty p)) (saveSlotPreviews s)
  then showSaveSlotSelection s
  else showMainMenu (setSaveSlotContainerVisible false s).

Definition cancelSaveSelection (s : Scene) : Scene :=
  showMainMenu (setSaveSlotContainerVisible false s).

(** The [save_select] branch of [update]: five independent [if]s. *)
Definition updateSaveSelect (k : Keys) (s : Scene) : Scene :=
  let s := if upJustDown k
           then setSaveSlotSelection (Z.max 0 (saveSlotSelection s - 1)) s
           else s in
  let s := if downJustDown k
           then setSaveSlotSelection
                  (Z.min (Z.of_nat (length (saveSlotPreviews s)) - 1)
                         (saveSlotSelection s + 1)) s
           else s in
  let s := if enterJustDown k then selectSaveSlot s else s in
  let s := if deleteJustDown k || backspaceJustDown k
           then showDeleteConfirmation s else s in
  if escJustDown k then cancelSaveSelection s else s.

(** The [delete_confirm] branch of [update]: four independent [if]s. *)
Definition updateDeleteConfirm (k : Keys) (s : Scene) : Scene :=
  let s := if leftJustDown k
           then updateDeleteConfirmSelection (setDeleteConfirmSelection 0 s)
           else s in
  let s := if rightJustDown k
           then updateDeleteConfirmSelection (setDeleteConfirmSelection 1 s)
           else s in
  let s := if enterJustDown k then confirmDelete s else s in
  if escJustDown k
  then showSaveSlotSelection (setDeleteConfirmTexts [] s) else s.

(** [update], on the two embedded phases. *)
Definition update (k : Keys) (s : Scene) : Scene :=
  match currentPhase s with
  | save_select => updateSaveSelect k s
  | delete_confirm => updateDeleteConfirm k s
  | _ => s
  end.

(** *** Observations used by the properties *)

(** A frame of the save list in which only delete or backspace is read. *)
Definition opensDeletePrompt (k : Keys) : Prop :=
  upJustDown k = false /\ downJustDown k = false /\
  enterJustDown k = false /\ escJustDown k = false /\
  deleteJustDown k || backspaceJustDown k = true.

(** A frame of the delete prompt in which none of its keys is read. *)
Definition quietInPrompt (k : Keys) : Prop :=
  leftJustDown k = false /\ rightJustDown k = false /\
  enterJustDown k = false /\ escJustDown k = false.

(** *** The data handed to the scene that is started *)

(** [{ heroId: saveData.mainHero, saveData: saveData }], the data of
    [scene.start(targetScene, ...)] for a town scene. *)
Definition townStartData (saveData : SaveData) : IshetarScene2.CreateData :=
  {| IshetarScene2.d_heroId := Some (sd_mainHero saveData);
     IshetarScene2.d_heroState := None;
     IshetarScene2.d_gameFlags := None;
     IshetarScene2.d_playTime := None;
     IshetarScene2.d_devMode := None;
     IshetarScene2.d_levelUps := None;
     IshetarScene2.d_inventory := None;
     IshetarScene2.d_chests := None;
     IshetarScene2.d_saveData := Some saveData |}.

(** The data of [scene.start('TravelScene', ...)]: the fields of the save
    and the given player position. *)
Definition travelStartData (saveData : SaveData) (pos : Z * Z)
  : TravelScene.CreateData :=
  {| TravelScene.d_heroId := Some (sd_mainHero saveData);
     TravelScene.d_heroState := sd_heroState saveData;
     TravelScene.d_gameFlags := sd_flags saveData;
     TravelScene.d_playTime := sd_playTime saveData;
     TravelScene.d_playerPosition := Some pos;
     TravelScene.d_levelUps := None;
     TravelScene.d_inventory := sd_inventory saveData;
     TravelScene.d_chests := sd_chests saveData;
     TravelScene.d_devMode := None |}.

(** *** Further observations *)


(** *** Hero selection *)

Record HeroOption := {
  heroOptionId : string;
  heroOptionName : string;
  heroOptionClass : string;
  heroOptionPortrait : string
}.

Definition heroes : list HeroOption :=
  [ {| heroOptionId := "azrael"; heroOptionName := "Azrael";
       heroOptionClass := "Rogue"; heroOptionPortrait := "portrait_azrael" |};
    {| heroOptionId := "lyra"; heroOptionName := "Lyra";
       heroOptionClass := "Cleric"; heroOptionPortrait := "portrait_lyra" |};
    {| heroOptionId := "rooker"; heroOptionName := "Rooker";
       heroOptionClass := "Mage"; heroOptionPortrait := "portrait_rooker" |};
    {| heroOptionId := "thump"; heroOptionName := "Thump";
       heroOptionClass := "Druid"; heroOptionPortrait := "portrait_thump" |};
    {| heroOptionId := "vicas"; heroOptionName := "Vicas";
       heroOptionClass := "Monk"; heroOptionPortrait := "portrait_vicas" |} ].

(** The [hero_select] branch of [update] on the one field it assigns before
    the confirm key is read, [heroSelection]: four independent [if]s over
    the two-row layout (indices 0, 1, 2 above 3, 4). *)
Definition updateHeroSelection (k : Keys) (heroSelection : Z) : Z :=
  let h := heroSelection in
  let h := if leftJustDown k
           then (if h <=? 2 then Z.max 0 (h - 1) else Z.max 3 (h - 1))
           else h in
  let h := if rightJustDown k
           then (if h <=? 2 then Z.min 2 (h + 1) else Z.min 4 (h + 1))
           else h in
  let h := if downJustDown k
           then (if h <=? 2 then (if h <=? 1 then 3 else 4) else h)
           else h in
  if upJustDown k then (if 3 <=? h then 1 else h) else h.

(** [this.heroes[this.heroSelection].id] in [selectHero]; [None] where the
    index names no hero and the read throws. *)
Definition selectedHeroId (heroSelection : Z) : option string :=
  heroOptionId <$> jsIndex heroes heroSelection.
End Scene.
End NarratorScene.

(** ** Concrete collaborators and scenes

    A small instance of the external interface (every opaque type is [unit],
    the save store is a map from slot numbers to save data with three
    slots) and the scenes on which the properties are exercised. *)

Module Sample.

Definition unitTypes : GameTypes :=
  {| HeroState := unit; InventoryState := unit; ChestState := unit;
     BattleXPSummary := unit; createDefaultInventory := tt |}.

#[local] Existing Instance unitTypes.

Definition previewOf (st : gmap Z SaveData) (n : Z) : SaveSlotPreview :=
  match st !! n with
  | Some d =>
      {| slot := n; isEmpty := false; mainHero := Some (sd_mainHero d);
         heroLevels := Some [2; 2; 2; 2; 2];
         previewPlayTime := sd_playTime d;
         location := Some (sd_currentMap d) |}
  | None =>
      {| slot := n; isEmpty := true; mainHero := None; heroLevels := None;
         previewPlayTime := None; location := None |}
  end.

Definition slotStore : SaveManager :=
  {| Store := gmap Z SaveData;
     SaveManager_save := fun d st => (true, <[sd_slot d := d]> st);
     SaveManager_load := fun n st => st !! n;
     SaveManager_delete := fun n st => delete n st;
     SaveManager_getAllSlotPreviews := fun st => map (previewOf st) [1; 2; 3];
     SaveManager_restoreAllResources := fun hs => hs |}.

#[local] Existing Instance slotStore.

(** A save of Vicas in slot 1. *)
Definition vicasSave : SaveData :=
  {| sd_slot := 1; sd_mainHero := "vicas";
     sd_currentMap := "ishetar_town_post_battle";
     sd_playerPosition := (20, 18); sd_playTime := Some 125;
     sd_heroState := Some ∅; sd_flags := Some ∅; sd_timestamp := 0;
     sd_inventory := Some tt; sd_chests := Some ∅ |}.

Definition oneSave : gmap Z SaveData := {[ 1 := vicasSave ]}.

(** *** IshetarScene2 *)

Definition pressEnter : IshetarScene2.Keys :=
  {| IshetarScene2.escJustDown := false; IshetarScene2.enterJustDown := true;
     IshetarScene2.upJustDown := false; IshetarScene2.downJustDown := false;
     IshetarScene2.leftIsDown := false; IshetarScene2.rightIsDown := false;
     IshetarScene2.upIsDown := false; IshetarScene2.downIsDown := false;
     IshetarScene2.overlayWaiting := false;
     IshetarScene2.overlayCompletes := false; IshetarScene2.now := 5000 |}.

Definition pressUp : IshetarScene2.Keys :=
  {| IshetarScene2.escJustDown := false; IshetarScene2.enterJustDown := false;
     IshetarScene2.upJustDown := true; IshetarScene2.downJustDown := false;
     IshetarScene2.leftIsDown := false; IshetarScene2.rightIsDown := false;
     IshetarScene2.upIsDown := true; IshetarScene2.downIsDown := false;
     IshetarScene2.overlayWaiting := false;
     IshetarScene2.overlayCompletes := false; IshetarScene2.now := 5000 |}.

Definition pressDown : IshetarScene2.Keys :=
  {| IshetarScene2.escJustDown := false; IshetarScene2.enterJustDown := false;
     IshetarScene2.upJustDown := false; IshetarScene2.downJustDown := true;
     IshetarScene2.leftIsDown := false; IshetarScene2.rightIsDown := false;
     IshetarScene2.upIsDown := false; IshetarScene2.downIsDown := true;
     IshetarScene2.overlayWaiting := false;
     IshetarScene2.overlayCompletes := false; IshetarScene2.now := 5000 |}.

(** A 32 x 32 town whose border is impassable. *)
Definition townTerrain : list (list Z) :=
  replicate 1 (replicate 32 2) ++
  replicate 30 ([2] ++ replicate 30 0 ++ [2]) ++
  replicate 1 (replicate 32 2).

Definition townMap : IshetarScene2.MapData :=
  {| IshetarScene2.md_terrain := townTerrain;
     IshetarScene2.md_gridWidth := 32; IshetarScene2.md_gridHeight := 32 |}.

Definition newGame : IshetarScene2.CreateData :=
  {| IshetarScene2.d_heroId := Some "vicas";
     IshetarScene2.d_heroState := None;
     IshetarScene2.d_gameFlags :=
       Some {[ "south_gate_battle_complete" := true ]};
     IshetarScene2.d_playTime := Some 100;
     IshetarScene2.d_devMode := None; IshetarScene2.d_levelUps := None;
     IshetarScene2.d_inventory := None; IshetarScene2.d_chests := None;
     IshetarScene2.d_saveData := None |}.

(** The town entered with one occupied save slot, the player at the south
    gate (20, 18). *)
Definition town : IshetarScene2.Scene :=
  default (IshetarScene2.fresh oneSave)
    (IshetarScene2.create newGame (Some townMap) 0 (fun _ => true)
       (IshetarScene2.fresh oneSave)).

(** The same town with the player below the north gate, at (13, 1). *)
Definition townAtGate : IshetarScene2.Scene :=
  default (IshetarScene2.fresh oneSave)
    (IshetarScene2.create newGame (Some townMap) 0 (fun _ => true)
       (IshetarScene2.setPosition 13 1 (IshetarScene2.fresh oneSave))).

(** *** TravelScene *)

Definition travelKeys (enter left right up down : bool)
  : TravelScene.Keys :=
  {| TravelScene.escJustDown := false; TravelScene.enterJustDown := enter;
     TravelScene.upJustDown := up; TravelScene.downJustDown := down;
     TravelScene.leftIsDown := left; TravelScene.rightIsDown := right;
     TravelScene.upIsDown := up; TravelScene.downIsDown := down;
     TravelScene.overlayWaiting := false;
     TravelScene.overlayCompletes := false |}.

Definition ishetarTown : TravelScene.LocationMarker :=
  {| TravelScene.locId := "ishetar"; TravelScene.locName := "Ishetar";
     TravelScene.bounds :=
       {| TravelScene.x1 := 0; TravelScene.y1 := 0;
          TravelScene.x2 := 5; TravelScene.y2 := 5 |};
     TravelScene.markerPosition := (2, 2);
     TravelScene.description := ["The town of Ishetar."];
     TravelScene.locType := TravelScene.Town;
     TravelScene.battleMap := None; TravelScene.exploreMap := None;
     TravelScene.targetScene := Some "IshetarScene2" |}.

Definition redVale : TravelScene.LocationMarker :=
  {| TravelScene.locId := "red_vale"; TravelScene.locName := "Red Vale";
     TravelScene.bounds :=
       {| TravelScene.x1 := 3; TravelScene.y1 := 3;
          TravelScene.x2 := 8; TravelScene.y2 := 8 |};
     TravelScene.markerPosition := (6, 6);
     TravelScene.description := ["It is much too dangerous."];
     TravelScene.locType := TravelScene.Blocked;
     TravelScene.battleMap := None; TravelScene.exploreMap := None;
     TravelScene.targetScene := None |}.

(** A 24 x 24 world map, all walkable, on which the bounds of the town
    (declared first) and of the blocked Red Vale overlap in the tiles (3..5,
    3..5). *)
Definition worldMap (start : Z * Z) : TravelScene.TravelMapData :=
  {| TravelScene.md_gridWidth := 24; TravelScene.md_gridHeight := 24;
     TravelScene.md_terrain := replicate 24 (replicate 24 0);
     TravelScene.md_playerStart := start;
     TravelScene.md_locations := [ishetarTown; redVale] |}.

Definition travelData (flags : gmap string bool) : TravelScene.CreateData :=
  {| TravelScene.d_heroId := Some "vicas"; TravelScene.d_heroState := None;
     TravelScene.d_gameFlags := Some flags;
     TravelScene.d_playTime := Some 100;
     TravelScene.d_playerPosition := None; TravelScene.d_levelUps := None;
     TravelScene.d_inventory := None; TravelScene.d_chests := None;
     TravelScene.d_devMode := None |}.

(** The world map entered at [start] with the given flags. *)
Definition world (start : Z * Z) (flags : gmap string bool)
  : TravelScene.Scene :=
  TravelScene.create (travelData flags) (worldMap start) TravelScene.fresh.

Definition afterQuetzi : gmap string bool :=
  {[ "quetzi_shrine_battle_complete" := true ]}.

(** *** NarratorScene *)

Definition narratorKeys (enter left right : bool) : NarratorScene.Keys :=
  {| NarratorScene.upJustDown := false; NarratorScene.downJustDown := false;
     NarratorScene.leftJustDown := left;
     NarratorScene.rightJustDown := right;
     NarratorScene.enterJustDown := enter;
     NarratorScene.deleteJustDown := false;
     NarratorScene.backspaceJustDown := false;
     NarratorScene.escJustDown := false |}.

(** The save-slot list with slot 1 occupied and selected. *)
Definition slotList : NarratorScene.Scene :=
  NarratorScene.continueGame
    {| NarratorScene.currentPhase := NarratorScene.menu;
       NarratorScene.menuSelection := 1;
       NarratorScene.saveSlotPreviews := [];
       NarratorScene.saveSlotSelection := 0;
       NarratorScene.saveSlotContainerVisible := false;
       NarratorScene.deleteConfirmTexts := [];
       NarratorScene.deleteConfirmSelection := 0;
       NarratorScene.slotToDelete := 0;
       NarratorScene.saveStore := oneSave;
       NarratorScene.effects := [] |}.


(** The save-slot list over a given store, its first slot selected. *)
Definition slotListOf (st : gmap Z SaveData) : NarratorScene.Scene :=
  NarratorScene.continueGame
    {| NarratorScene.currentPhase := NarratorScene.menu;
       NarratorScene.menuSelection := 1;
       NarratorScene.saveSlotPreviews := [];
       NarratorScene.saveSlotSelection := 0;
       NarratorScene.saveSlotContainerVisible := false;
       NarratorScene.deleteConfirmTexts := [];
       NarratorScene.deleteConfirmSelection := 0;
       NarratorScene.slotToDelete := 0;
       NarratorScene.saveStore := st;
       NarratorScene.effects := [] |}.

(** A save made at the Quetzi shrine, in slot 2. *)
Definition shrineSave : SaveData :=
  {| sd_slot := 2; sd_mainHero := "lyra";
     sd_currentMap := "quetzi_shrine_exploration";
     sd_playerPosition := (9, 9); sd_playTime := Some 640;
     sd_heroState := Some ∅;
     sd_flags := Some {[ "quetzi_shrine_battle_complete" := true ]};
     sd_timestamp := 0; sd_inventory := Some tt; sd_chests := Some ∅ |}.
End Sample.

(** * Properties *)

(** ** IshetarScene2: the movement code against the rest of the scene *)

Module Ishetar2Facts.
Import IshetarScene2.

Create Rewrite HintDb motion.

Section Facts.
Context `{SM : SaveManager}.

Local Ltac by_fields s := destruct s; reflexivity.

Lemma motion_setIsInDialogue b s : motion (setIsInDialogue b s) = motion s.
Proof. by_fields s. Qed.
Lemma motion_setHeroState h s : motion (setHeroState h s) = motion s.
Proof. by_fields s. Qed.
Lemma motion_setPlayTime a b s : motion (setPlayTime a b s) = motion s.
Proof. by_fields s. Qed.
Lemma motion_setPendingHrothgarDialogue b s :
  motion (setPendingHrothgarDialogue b s) = motion s.
Proof. by_fields s. Qed.
Lemma motion_setChoiceMenuVisible b s :
  motion (setChoiceMenuVisible b s) = motion s.
Proof. by_fields s. Qed.
Lemma motion_setChoiceMenu o c i v s :
  motion (setChoiceMenu o c i v s) = motion s.
Proof. by_fields s. Qed.
Lemma motion_setChoiceMenuSelectedIndex i s :
  motion (setChoiceMenuSelectedIndex i s) = motion s.
Proof. by_fields s. Qed.
Lemma motion_setSelectedSaveSlot i s :
  motion (setSelectedSaveSlot i s) = motion s.
Proof. by_fields s. Qed.
Lemma motion_setSaveSlotPreviews p s :
  motion (setSaveSlotPreviews p s) = motion s.
Proof. by_fields s. Qed.
Lemma motion_setLevelUpOverlay o s :
  motion (setLevelUpOverlay o s) = motion s.
Proof. by_fields s. Qed.
Lemma motion_setDialogueRenderer d s :
  motion (setDialogueRenderer d s) = motion s.
Proof. by_fields s. Qed.
Lemma motion_setTimers t s : motion (setTimers t s) = motion s.
Proof. by_fields s. Qed.
Lemma motion_setSaveStore t s : motion (setSaveStore t s) = motion s.
Proof. by_fields s. Qed.
Lemma motion_emit_SceneStart k p s :
  motion (emit (SceneStart k p) s) = motion s.
Proof. by_fields s. Qed.
Lemma motion_emit_ScenePause s : motion (emit ScenePause s) = motion s.
Proof. by_fields s. Qed.
Lemma motion_emit_SceneLaunchMenu a b c d s :
  motion (emit (SceneLaunchMenu a b c d) s) = motion s.
Proof. by_fields s. Qed.
Lemma motion_emit_SaveCall d b s :
  motion (emit (SaveCall d b) s) = motion s.
Proof. by_fields s. Qed.

#[local] Hint Rewrite motion_setIsInDialogue motion_setHeroState motion_setPlayTime
  motion_setPendingHrothgarDialogue motion_setChoiceMenuVisible
  motion_setChoiceMenu motion_setChoiceMenuSelectedIndex
  motion_setSelectedSaveSlot motion_setSaveSlotPreviews
  motion_setLevelUpOverlay motion_setDialogueRenderer motion_setTimers
  motion_setSaveStore motion_emit_SceneStart motion_emit_ScenePause
  motion_emit_SceneLaunchMenu motion_emit_SaveCall : motion.

Local Ltac still :=
  intros; repeat (case_match; try reflexivity);
  autorewrite with motion; try reflexivity.

Lemma motion_showChoiceMenu o c s : motion (showChoiceMenu o c s) = motion s.
Proof. unfold showChoiceMenu. still. Qed.
Lemma motion_hideChoiceMenu s : motion (hideChoiceMenu s) = motion s.
Proof. unfold hideChoiceMenu. still. Qed.
Lemma motion_sceneStartDialogue l sp cb p s :
  motion (sceneStartDialogue l sp cb p s) = motion s.
Proof. unfold sceneStartDialogue. still. Qed.
#[local] Hint Rewrite motion_showChoiceMenu motion_hideChoiceMenu
  motion_sceneStartDialogue : motion.

Lemma motion_handleShrineInteraction n s :
  motion (handleShrineInteraction n s) = motion s.
Proof. unfold handleShrineInteraction. still. Qed.
Lemma motion_showSaveSlotSelection s :
  motion (showSaveSlotSelection s) = motion s.
Proof. unfold showSaveSlotSelection. still. Qed.
Lemma motion_showOverwriteConfirmation s :
  motion (showOverwriteConfirmation s) = motion s.
Proof. unfold showOverwriteConfirmation. still. Qed.
Lemma motion_saveGame t n s : motion (saveGame t n s) = motion s.
Proof. unfold saveGame. still. Qed.
#[local] Hint Rewrite motion_handleShrineInteraction motion_showSaveSlotSelection
  motion_showOverwriteConfirmation motion_saveGame : motion.

Lemma motion_runChoiceCallback t cb c s :
  motion (runChoiceCallback t cb c s) = motion s.
Proof. unfold runChoiceCallback. still. Qed.
#[local] Hint Rewrite motion_runChoiceCallback : motion.

Lemma motion_selectChoiceMenuOption t s :
  motion (selectChoiceMenuOption t s) = motion s.
Proof. unfold selectChoiceMenuOption. still. Qed.

Lemma motion_launchMenu v s : motion (launchMenu v s) = motion s.
Proof. unfold launchMenu. still. Qed.
#[local] Hint Rewrite motion_selectChoiceMenuOption motion_launchMenu : motion.

Lemma motion_runDialogueCallback cb s :
  motion (runDialogueCallback cb s) = motion s.
Proof. unfold runDialogueCallback, showShrineSaveMenu. still. Qed.
#[local] Hint Rewrite motion_runDialogueCallback : motion.

Lemma motion_advanceDialogue s : motion (advanceDialogue s) = motion s.
Proof. unfold advanceDialogue. still. Qed.
Lemma motion_startNPCDialogue n s : motion (startNPCDialogue n s) = motion s.
Proof. unfold startNPCDialogue. still. Qed.
#[local] Hint Rewrite motion_advanceDialogue motion_startNPCDialogue : motion.

Lemma motion_tryInteract s : motion (tryInteract s) = motion s.
Proof. unfold tryInteract. still. Qed.
Lemma motion_levelUpComplete s : motion (levelUpComplete s) = motion s.
Proof. unfold levelUpComplete. still. Qed.
Lemma motion_runTimer cb s : motion (runTimer cb s) = motion s.
Proof.
  unfold runTimer, showLevelUpScreen, showHrothgarEndingDialogue. still.
Qed.
Lemma motion_onResume s : motion (onResume s) = motion s.
Proof. unfold onResume. still. Qed.
#[local] Hint Rewrite motion_tryInteract motion_levelUpComplete motion_runTimer
  motion_onResume : motion.

(** Three ways in which [movePlayer] returns. *)
Lemma isPassable_setFacing f s gx gy :
  isPassable (setFacing f s) gx gy = isPassable s gx gy.
Proof. by_fields s. Qed.

Lemma position_setFacing f s :
  playerGridX (setFacing f s) = playerGridX s /\
  playerGridY (setFacing f s) = playerGridY s.
Proof. by destruct s. Qed.

Lemma movePlayer_busy dx dy s :
  isMoving s || isInDialogue s = true -> movePlayer dx dy s = s.
Proof. intros H. unfold movePlayer. by rewrite H. Qed.

Lemma movePlayer_rejected dx dy s :
  isMoving s = false -> isInDialogue s = false ->
  isPassable s (playerGridX s + dx) (playerGridY s + dy) = false ->
  movePlayer dx dy s = setFacing (facingOf dx dy (playerFacing s)) s.
Proof.
  intros Hm Hd Hp. unfold movePlayer. rewrite Hm, Hd. cbn.
  by rewrite isPassable_setFacing, Hp.
Qed.

Lemma movePlayer_accepted dx dy s :
  isMoving s = false -> isInDialogue s = false ->
  isPassable s (playerGridX s + dx) (playerGridY s + dy) = true ->
  movePlayer dx dy s =
    emit (TweenAdded (playerGridX s + dx) (playerGridY s + dy))
      (setTweens (tweens s ++ [(playerGridX s + dx, playerGridY s + dy)])
         (setPosition (playerGridX s + dx) (playerGridY s + dy)
            (setIsMoving true
               (setFacing (facingOf dx dy (playerFacing s)) s)))).
Proof.
  intros Hm Hd Hp. unfold movePlayer. rewrite Hm, Hd. cbn.
  rewrite isPassable_setFacing, Hp. cbn. by destruct s.
Qed.

Lemma movePlayer_cases dx dy s :
  movePlayer dx dy s = s \/
  movePlayer dx dy s = setFacing (facingOf dx dy (playerFacing s)) s \/
  (isMoving s = false /\ isInDialogue s = false /\
   isPassable s (playerGridX s + dx) (playerGridY s + dy) = true /\
   movePlayer dx dy s =
     emit (TweenAdded (playerGridX s + dx) (playerGridY s + dy))
       (setTweens (tweens s ++ [(playerGridX s + dx, playerGridY s + dy)])
          (setPosition (playerGridX s + dx) (playerGridY s + dy)
             (setIsMoving true
                (setFacing (facingOf dx dy (playerFacing s)) s))))).
Proof.
  destruct (isMoving s) eqn:Hm; [left; by apply movePlayer_busy; rewrite Hm |].
  destruct (isInDialogue s) eqn:Hd;
    [left; by apply movePlayer_busy; rewrite Hm, Hd |].
  destruct (isPassable s (playerGridX s + dx) (playerGridY s + dy)) eqn:Hp.
  - right; right. by rewrite movePlayer_accepted.
  - right; left. by apply movePlayer_rejected.
Qed.

(** A frame either leaves the movement data alone or ends in one call of
    [movePlayer] with a unit vector, made with no menu on screen. *)
Lemma update_cases k s :
  motion (update k s) = motion s \/
  exists dx dy s1,
    unitVector dx dy /\ motion s1 = motion s /\
    choiceMenuVisible s = false /\
    isInDialogue s1 = false /\ isMoving s1 = false /\
    update k s = movePlayer dx dy s1.
Proof.
  unfold update.
  destruct (hasOverlay s && overlayWaiting k);
    [left; repeat case_match; by autorewrite with motion |].
  destruct (escJustDown k); [left; by autorewrite with motion |].
  destruct (choiceMenuVisible s) eqn:Hcv;
    [left; repeat case_match; by autorewrite with motion |].
  set (s1 := if enterJustDown k then tryInteract s else s).
  assert (Hs1 : motion s1 = motion s)
    by (subst s1; case_match; by autorewrite with motion).
  destruct (isInDialogue s1) eqn:Hd; [by left |].
  destruct (isMoving s1) eqn:Hm; [by left |]. cbn.
  destruct (leftIsDown k);
    [right; exists (-1), 0, s1; unfold unitVector; by intuition |].
  destruct (rightIsDown k);
    [right; exists 1, 0, s1; unfold unitVector; by intuition |].
  destruct (upIsDown k);
    [right; exists 0, (-1), s1; unfold unitVector; by intuition |].
  destruct (downIsDown k);
    [right; exists 0, 1, s1; unfold unitVector; by intuition |].
  by left.
Qed.

(** Properties of the movement data are kept by every event once they are
    kept by [movePlayer] and by the completion of a tween. *)
Lemma step_preserves (P : Scene -> Prop) :
  (forall s s', motion s = motion s' -> P s -> P s') ->
  (forall dx dy s, unitVector dx dy -> P s -> P (movePlayer dx dy s)) ->
  (forall s p rest,
      tweens s = p :: rest -> P s -> P (moveTweenComplete (setTweens rest s))) ->
  forall e s, P s -> P (step e s).
Proof.
  intros Hmot Hmove Htween e s HP. destruct e as [k | | |]; cbn.
  - destruct (update_cases k s) as [H | (dx & dy & s1 & Hu & H1 & _ & _ & _ & ->)].
    + by apply (Hmot s).
    + apply Hmove; [done |]. by apply (Hmot s).
  - destruct (tweens s) eqn:Ht; [done |]. by eapply Htween.
  - destruct (timers s) eqn:Ht; [done |].
    eapply (Hmot s); [| done]. by autorewrite with motion.
  - eapply (Hmot s); [| done]. by autorewrite with motion.
Qed.

Lemma run_preserves (P : Scene -> Prop) :
  (forall e s, P s -> P (step e s)) ->
  forall evs s, P s -> P (run evs s).
Proof.
  intros Hstep evs. unfold run.
  induction evs as [| e evs IH]; intros s HP; cbn; [done |].
  apply IH. by apply Hstep.
Qed.

(** *** Standing on a free tile *)

Lemma standsClear_motion s s' :
  motion s = motion s' -> standsClear s -> standsClear s'.
Proof.
  destruct s, s'. unfold standsClear, terrainImpassable, npcAt, motion. cbn.
  intros H. by simplify_eq.
Qed.

Lemma isPassable_clear s gx gy :
  isPassable s gx gy = true ->
  terrainImpassable s gx gy = false /\ npcAt s gx gy = false /\
  outOfBounds s gx gy = false.
Proof.
  unfold isPassable, outOfBounds. intros H.
  destruct (gx <? 0), (mapGridWidth s <=? gx); try done.
  destruct (gy <? 0), (mapGridHeight s <=? gy); try done.
  destruct (terrainImpassable s gx gy); [done |].
  by destruct (npcAt s gx gy).
Qed.

Lemma standsClear_movePlayer dx dy s :
  standsClear s -> standsClear (movePlayer dx dy s).
Proof.
  intros Hs.
  destruct (movePlayer_cases dx dy s) as [-> | [-> | (_ & _ & Hp & ->)]].
  - done.
  - revert Hs. by destruct s.
  - apply isPassable_clear in Hp as (Ht & Hn & _).
    revert Ht Hn. by destruct s.
Qed.

Lemma standsClear_tween s rest :
  standsClear s -> standsClear (moveTweenComplete (setTweens rest s)).
Proof.
  unfold moveTweenComplete, checkTriggers, goToTravelMap.
  case_match; by destruct s.
Qed.

Lemma standsClear_step e s : standsClear s -> standsClear (step e s).
Proof.
  apply step_preserves.
  - apply standsClear_motion.
  - intros. by apply standsClear_movePlayer.
  - intros. by apply standsClear_tween.
Qed.

Lemma standsClear_perform acts s :
  standsClear s -> standsClear (perform acts s).
Proof.
  unfold perform. revert s.
  induction acts as [| a acts IH]; intros s Hs; cbn; [done |].
  apply IH. destruct a as [dx dy | e]; cbn.
  - by apply standsClear_movePlayer.
  - by apply standsClear_step.
Qed.

Lemma movePlayer_commits dx dy s :
  (playerGridX (movePlayer dx dy s), playerGridY (movePlayer dx dy s)) <>
    (playerGridX s, playerGridY s) ->
  isPassable s (playerGridX s + dx) (playerGridY s + dy) = true /\
  playerGridX (movePlayer dx dy s) = playerGridX s + dx /\
  playerGridY (movePlayer dx dy s) = playerGridY s + dy.
Proof.
  destruct (movePlayer_cases dx dy s) as [-> | [-> | (_ & _ & Hp & ->)]].
  - done.
  - intros H. exfalso. apply H. by destruct s.
  - intros _. split; [done |]. by destruct s.
Qed.

(** *** The log pairs moves with trigger evaluations *)

Lemma consistent_motion s s' :
  motion s = motion s' -> consistent s -> consistent s'.
Proof.
  destruct s, s'. unfold consistent, motion. cbn.
  intros H. simplify_eq.
  match goal with H : pairedLog _ = pairedLog _ |- _ => by rewrite H end.
Qed.

Lemma consistent_movePlayer dx dy s :
  consistent s -> consistent (movePlayer dx dy s).
Proof.
  intros Hs.
  destruct (movePlayer_cases dx dy s) as [-> | [-> | (Hm & _ & _ & ->)]].
  - done.
  - revert Hs. by destruct s.
  - revert Hs Hm. destruct s. unfold consistent. cbn.
    destruct (pairedLog effects0) as [[p |] |]; [| | done].
    + intros (-> & _). done.
    + intros (_ & ->) _. done.
Qed.

Lemma consistent_tween s p rest :
  tweens s = p :: rest -> consistent s ->
  consistent (moveTweenComplete (setTweens rest s)).
Proof.
  unfold moveTweenComplete, checkTriggers, goToTravelMap.
  intros Ht Hs.
  assert (H : consistent
                (emit (TriggerEvaluation false (playerGridX s) (playerGridY s))
                   (setIsMoving false (setTweens rest s)))).
  { revert Ht Hs. destruct s. unfold consistent. cbn.
    destruct (pairedLog effects0) as [[[x y] |] |]; [| | done].
    - intros -> (_ & Hp & Hxy). simplify_eq.
      by rewrite !Z.eqb_refl.
    - intros -> (_ & Hp). done. }
  replace (isMoving (setIsMoving false (setTweens rest s))) with false
    by by destruct s.
  replace (playerGridX (setIsMoving false (setTweens rest s)))
    with (playerGridX s) by by destruct s.
  replace (playerGridY (setIsMoving false (setTweens rest s)))
    with (playerGridY s) by by destruct s.
  case_match; [| done].
  eapply consistent_motion; [| exact H]. by autorewrite with motion.
Qed.

Lemma consistent_step e s : consistent s -> consistent (step e s).
Proof.
  apply step_preserves.
  - apply consistent_motion.
  - intros. by apply consistent_movePlayer.
  - intros. by eapply consistent_tween.
Qed.

Lemma consistent_run evs s : consistent s -> consistent (run evs s).
Proof. apply run_preserves, consistent_step. Qed.

(** *** Claims about the movement of IshetarScene2 *)

Lemma clearSince_motion x0 y0 s s' :
  motion s = motion s' -> clearSince x0 y0 s -> clearSince x0 y0 s'.
Proof.
  destruct s, s'. unfold clearSince, terrainImpassable, npcAt, motion. cbn.
  intros H. by simplify_eq.
Qed.

Lemma clearSince_movePlayer x0 y0 dx dy s :
  clearSince x0 y0 s -> clearSince x0 y0 (movePlayer dx dy s).
Proof.
  intros Hs.
  destruct (movePlayer_cases dx dy s) as [-> | [-> | (_ & _ & Hp & ->)]].
  - done.
  - revert Hs. by destruct s.
  - apply isPassable_clear in Hp as (Ht & Hn & _).
    revert Ht Hn. destruct s. unfold clearSince, terrainImpassable, npcAt.
    cbn. intros -> ->. auto.
Qed.

Lemma clearSince_tween x0 y0 s rest :
  clearSince x0 y0 s ->
  clearSince x0 y0 (moveTweenComplete (setTweens rest s)).
Proof.
  unfold moveTweenComplete, checkTriggers, goToTravelMap.
  case_match; by destruct s.
Qed.

Lemma clearSince_perform x0 y0 acts s :
  clearSince x0 y0 s -> clearSince x0 y0 (perform acts s).
Proof.
  unfold perform. revert s.
  induction acts as [| a acts IH]; intros s Hs; cbn; [done |].
  apply IH. destruct a as [dx dy | e]; cbn.
  - by apply clearSince_movePlayer.
  - revert Hs. apply step_preserves.
    + apply clearSince_motion.
    + intros. by apply clearSince_movePlayer.
    + intros. by apply clearSince_tween.
Qed.

(** C1.  From every scene state whose player tile is not impassable terrain
    (value 2), every sequence of [movePlayer] calls (with any vector) and
    engine events leaves the player on a tile that is not impassable terrain
    and that no NPC occupies, unless the player still stands on the tile of
    the start and an NPC occupied that one; a start tile free of NPCs gives a
    tile free of NPCs throughout.  And whenever a call of [movePlayer]
    changes the grid position, [isPassable] was true of the new tile, which
    is the old one plus the vector. *)
Theorem C1_player_never_rests_on_blocked_tile
    (s : Scene) (acts : list Action) :
  terrainImpassable s (playerGridX s) (playerGridY s) = false ->
  let s' := perform acts s in
  terrainImpassable s' (playerGridX s') (playerGridY s') = false /\
  ((playerGridX s', playerGridY s') <> (playerGridX s, playerGridY s) ->
   npcAt s' (playerGridX s') (playerGridY s') = false) /\
  (npcAt s (playerGridX s) (playerGridY s) = false ->
   npcAt s' (playerGridX s') (playerGridY s') = false) /\
  forall dx dy,
    (playerGridX (movePlayer dx dy s'), playerGridY (movePlayer dx dy s'))
      <> (playerGridX s', playerGridY s') ->
    isPassable s' (playerGridX s' + dx) (playerGridY s' + dy) = true /\
    playerGridX (movePlayer dx dy s') = playerGridX s' + dx /\
    playerGridY (movePlayer dx dy s') = playerGridY s' + dy.
Proof.
  intros Ht s'.
  assert (Hsince : clearSince (playerGridX s) (playerGridY s) s')
    by (apply clearSince_perform; split; auto).
  destruct Hsince as [Ht' Hn'].
  split; [done |]. split; [| split].
  - intros Hne. by destruct Hn'.
  - intros Hn. by apply (standsClear_perform acts s).
  - intros dx dy. apply movePlayer_commits.
Qed.

(** C4.  A [movePlayer] call with a unit vector made while neither moving
    nor in dialogue sets the facing from the sign of [dx], then of [dy]
    (right, left, front, back), whether or not the move is then rejected;
    a call made while moving or in dialogue returns the scene unchanged;
    and a frame that starts with the choice menu on screen, or with the
    level-up overlay waiting for input, changes neither facing nor
    position nor the pending tweens. *)
Theorem C4_facing_follows_every_attempt (s : Scene) (dx dy : Z) :
  unitVector dx dy ->
  (isMoving s = false -> isInDialogue s = false ->
   playerFacing (movePlayer dx dy s) =
     if 0 <? dx then Right
     else if dx <? 0 then Left
     else if 0 <? dy then Front
     else Back) /\
  (isMoving s = true \/ isInDialogue s = true -> movePlayer dx dy s = s) /\
  (forall k,
      choiceMenuVisible s = true \/
      (hasOverlay s = true /\ overlayWaiting k = true) ->
      playerFacing (update k s) = playerFacing s /\
      playerGridX (update k s) = playerGridX s /\
      playerGridY (update k s) = playerGridY s /\
      isMoving (update k s) = isMoving s /\
      tweens (update k s) = tweens s).
Proof.
  intros Hu. split; [| split].
  - intros Hm Hd.
    assert (Hf : facingOf dx dy (playerFacing s) =
                 if 0 <? dx then Right else if dx <? 0 then Left
                 else if 0 <? dy then Front else Back).
    { unfold facingOf.
      destruct Hu as [[-> ->] | [[-> ->] | [[-> ->] | [-> ->]]]]; done. }
    rewrite <- Hf.
    destruct (isPassable s (playerGridX s + dx) (playerGridY s + dy)) eqn:Hp.
    + rewrite movePlayer_accepted by done. by destruct s.
    + rewrite movePlayer_rejected by done. by destruct s.
  - intros [H | H]; apply movePlayer_busy; rewrite H; [done |].
    by destruct (isMoving s).
  - intros k Hmodal.
    assert (H : motion (update k s) = motion s).
    { destruct (update_cases k s)
        as [H | (dx' & dy' & s1 & _ & _ & Hcv & _ & _ & Hupd)]; [done |].
      destruct Hmodal as [Hv | [Ho Hw]]; [congruence |].
      unfold update. rewrite Ho, Hw. cbn.
      repeat case_match; by autorewrite with motion. }
    unfold motion in H. by simplify_eq.
Qed.

(** *** Claims about the choice menu *)

Lemma update_menuUp k s :
  menuUp k -> choiceMenuVisible s = true ->
  update k s =
    setChoiceMenuSelectedIndex (Z.max 0 (choiceMenuSelectedIndex s - 1)) s.
Proof.
  intros (Ho & He & Hu) Hv. unfold update.
  by rewrite Ho, andb_false_r, He, Hv, Hu.
Qed.

Lemma update_menuDown k s :
  menuDown k -> choiceMenuVisible s = true ->
  update k s =
    setChoiceMenuSelectedIndex
      (Z.min (Z.of_nat (length (choiceMenuOptions s)) - 1)
             (choiceMenuSelectedIndex s + 1)) s.
Proof.
  intros (Ho & He & Hu & Hd) Hv. unfold update.
  by rewrite Ho, andb_false_r, He, Hv, Hu, Hd.
Qed.

Lemma update_menuConfirm k s :
  menuConfirm k -> choiceMenuVisible s = true ->
  update k s = selectChoiceMenuOption (now k) s.
Proof.
  intros (Ho & He & Hu & Hd & Hen) Hv. unfold update.
  by rewrite Ho, andb_false_r, He, Hv, Hu, Hd, Hen.
Qed.

Lemma menuOpen_arrows options cb ks s :
  Forall (fun k => menuUp k \/ menuDown k) ks ->
  menuOpen options cb s ->
  menuOpen options cb (run (map Frame ks) s).
Proof.
  intros Hks. revert s. unfold run.
  induction Hks as [| k ks Hk _ IH]; intros s Hs; cbn; [done |].
  apply IH. destruct Hs as (Hv & Ho & Hc & Hi).
  destruct Hk as [Hk | Hk].
  - rewrite update_menuUp by done.
    revert Hv Ho Hc Hi. destruct s. unfold menuOpen. cbn.
    intros -> -> -> ?. repeat split; lia.
  - rewrite update_menuDown by done.
    revert Hv Ho Hc Hi. destruct s. unfold menuOpen. cbn.
    intros -> -> -> ?. repeat split; lia.
Qed.

(** C6.  Opening the choice menu on a non-empty option list highlights
    index 0.  After any sequence of up and down inputs the index is still
    inside [0, length-1]; one more "up" moves it down by one unless it is
    0, where it stays; one more "down" moves it up by one unless it is
    length-1, where it stays; and a confirm hides the menu and runs the
    callback on exactly the label at the highlighted index, which is the
    option drawn with the marker and the highlight colour. *)
Theorem C6_choice_menu_navigation
    (options : list string) (cb : ChoiceCallback) (s0 : Scene)
    (ks : list Keys) :
  options <> [] ->
  Forall (fun k => menuUp k \/ menuDown k) ks ->
  let len := Z.of_nat (length options) in
  let opened := showChoiceMenu options cb s0 in
  let s := run (map Frame ks) opened in
  let i := choiceMenuSelectedIndex s in
  choiceMenuSelectedIndex opened = 0 /\
  choiceMenuVisible s = true /\
  0 <= i <= len - 1 /\
  (forall k, menuUp k ->
     choiceMenuSelectedIndex (update k s) = if i =? 0 then 0 else i - 1) /\
  (forall k, menuDown k ->
     choiceMenuSelectedIndex (update k s) =
       if i =? len - 1 then len - 1 else i + 1) /\
  (forall k, menuConfirm k ->
     exists label,
       options !! Z.to_nat i = Some label /\
       choiceMenuTexts s !! Z.to_nat i = Some ("#ffff00", "> " +:+ label) /\
       update k s =
         runChoiceCallback (now k) cb (Some label) (hideChoiceMenu s)).
Proof.
  intros Hne Hks len opened s i.
  assert (Hopened : menuOpen options cb opened).
  { subst opened. destruct s0. unfold menuOpen, showChoiceMenu. cbn.
    repeat split; try done. destruct options; [done |].
    cbn [length]. lia. }
  assert (Hs : menuOpen options cb s) by by apply menuOpen_arrows.
  destruct Hs as (Hv & Ho & Hc & Hi). fold i len in Hi.
  split; [subst opened; by destruct s0 |].
  split; [done |]. split; [done |].
  split; [| split].
  - intros k Hk. rewrite update_menuUp by done. fold i.
    replace (choiceMenuSelectedIndex (setChoiceMenuSelectedIndex _ s))
      with (Z.max 0 (i - 1)) by by destruct s.
    destruct (Z.eqb_spec i 0); lia.
  - intros k Hk. rewrite update_menuDown by done. fold i. rewrite Ho.
    fold len.
    replace (choiceMenuSelectedIndex (setChoiceMenuSelectedIndex _ s))
      with (Z.min (len - 1) (i + 1)) by by destruct s.
    destruct (Z.eqb_spec i (len - 1)); lia.
  - intros k Hk.
    destruct (lookup_lt_is_Some_2 options (Z.to_nat i)) as [label Hl];
      [subst len; lia |].
    exists label. split; [done |]. split.
    + unfold choiceMenuTexts. rewrite Ho, list_lookup_imap, Hl. cbn.
      fold i. rewrite Z2Nat.id by lia. by rewrite Z.eqb_refl.
    + rewrite update_menuConfirm by done.
      unfold selectChoiceMenuOption.
      replace (choiceMenuCallback (hideChoiceMenu s)) with (Some cb)
        by (rewrite <- Hc; by destruct s).
      f_equal. unfold selectedOption, jsIndex. fold i. rewrite Ho.
      destruct (Z.ltb_spec i 0); [lia | done].
Qed.

(** *** Claims about the north gate *)

Lemma jsAssign_lookup_eq {A : Type} i (v : A) a :
  jsAssign i v a !! i = Some (Some v).
Proof.
  unfold jsAssign. case_decide as Hi.
  - by apply list_lookup_insert_eq.
  - rewrite lookup_app_r by lia.
    rewrite lookup_app_r; rewrite length_replicate; [| lia].
    by replace (i - length a - (i - length a))%nat with 0%nat by lia.
Qed.

Lemma jsAssign_lookup_below {A : Type} i j (v : A) a :
  (j < length a)%nat -> j <> i -> jsAssign i v a !! j = a !! j.
Proof.
  intros Hj Hne. unfold jsAssign. case_decide as Hi.
  - by apply list_lookup_insert_ne.
  - by apply lookup_app_l.
Qed.

Lemma jsAssign_length {A : Type} i (v : A) a :
  (i < length (jsAssign i v a))%nat.
Proof.
  unfold jsAssign. case_decide as Hi.
  - by rewrite length_insert.
  - rewrite !length_app, length_replicate. cbn. lia.
Qed.

Lemma openNorthGate_open t t' :
  openNorthGate t = Some t' -> terrainAt t' 13 2 = Some 0.
Proof.
  unfold openNorthGate, Terrain in *. intros H.
  destruct (t !! 1%nat) as [row1 |] eqn:H1; [| done]. cbn in H.
  destruct (<[1%nat:=jsAssign 14 0 (jsAssign 13 0 row1)]> t !! 2%nat)
    as [row2 |] eqn:H2; [| done]. cbn in H. simplify_eq.
  unfold terrainAt, jsIndex2, jsIndex.
  change (2 <? 0) with false. change (13 <? 0) with false. cbv iota.
  change (Z.to_nat 2) with 2%nat. change (Z.to_nat 13) with 13%nat.
  rewrite list_lookup_insert_eq by (by eapply lookup_lt_Some).
  rewrite jsAssign_lookup_below; [| apply (jsAssign_length 13) | lia].
  by rewrite jsAssign_lookup_eq.
Qed.

Lemma placeNPCs_gate_free tex hero :
  existsb (fun npc => (gridX npc =? 13) && (gridY npc =? 2))
    (placeNPCs tex hero) = false.
Proof.
  unfold placeNPCs. rewrite existsb_app. apply orb_false_iff. split.
  - reflexivity.
  - generalize (List.filter (fun h => negb (String.eqb h hero)) allHeroes).
    intros l. destruct l as [| a [| b [| c [| d [| e l]]]]]; reflexivity.
Qed.

Lemma create_opens_gate data m t tex prev s0 :
  create data (Some m) t tex prev = Some s0 ->
  13 < md_gridWidth m -> 2 < md_gridHeight m ->
  isPassable s0 13 2 = true /\ tweensSettled s0.
Proof.
  unfold create. intros H Hw Hh.
  destruct (openNorthGate (copyTerrain (md_terrain m))) as [tr |] eqn:Ht;
    [| done].
  cbn -[placeNPCs] in H. simplify_eq. split; [| by left].
  unfold isPassable, terrainImpassable, npcAt.
  cbn [terrain npcs mapGridWidth mapGridHeight].
  rewrite (openNorthGate_open _ _ Ht), placeNPCs_gate_free.
  destruct (Z.leb_spec (md_gridWidth m) 13); [lia |].
  destruct (Z.leb_spec (md_gridHeight m) 2); [lia | done].
Qed.

Lemma gate_motion s s' :
  motion s = motion s' ->
  isPassable s 13 2 = true /\ tweensSettled s ->
  isPassable s' 13 2 = true /\ tweensSettled s'.
Proof.
  destruct s, s'. unfold isPassable, terrainImpassable, npcAt,
    tweensSettled, motion. cbn.
  intros H. by simplify_eq.
Qed.

Lemma gate_step e s :
  isPassable s 13 2 = true /\ tweensSettled s ->
  isPassable (step e s) 13 2 = true /\ tweensSettled (step e s).
Proof.
  apply (step_preserves
           (fun s => isPassable s 13 2 = true /\ tweensSettled s)).
  - apply gate_motion.
  - intros dx dy s0 _ [Hp Ht].
    destruct (movePlayer_cases dx dy s0) as [-> | [-> | (Hm & _ & _ & ->)]].
    + done.
    + revert Hp Ht. by destruct s0.
    + revert Hp Ht Hm. destruct s0.
      unfold isPassable, terrainImpassable, npcAt, tweensSettled. cbn.
      intros -> [-> | [-> _]] ?; [| done].
      split; [done |]. right. eauto.
  - intros s0 p rest Hrest [Hp Ht]. split.
    + revert Hp. unfold moveTweenComplete, checkTriggers, goToTravelMap.
      case_match; by destruct s0.
    + destruct Ht as [Ht | (_ & q & Ht)]; [congruence |].
      rewrite Ht in Hrest. simplify_eq. left.
      unfold moveTweenComplete, checkTriggers, goToTravelMap.
      case_match; by destruct s0.
Qed.

(** C7.  In a scene started by [create] on a map at least 14 tiles wide and
    3 tiles high, whenever the player stands at (13, 1) with no move
    animation, dialogue or choice menu active, a frame in which "down" is
    held commits the position (13, 2); when the tween completes the
    triggers are evaluated there, the north-gate exit fires, and
    TravelScene is started with a payload whose [gameFlags] is the scene's
    [gameFlags], which the scene has not changed. *)
Theorem C7_north_gate_starts_travel
    (data : CreateData) (m : MapData) (t : Z) (tex : string -> bool)
    (prev s0 : Scene) (evs : list Event) (k : Keys) :
  create data (Some m) t tex prev = Some s0 ->
  13 < md_gridWidth m -> 2 < md_gridHeight m ->
  let s := run evs s0 in
  playerGridX s = 13 -> playerGridY s = 1 ->
  isMoving s = false -> isInDialogue s = false ->
  choiceMenuVisible s = false ->
  holdsDown k ->
  let s1 := step (Frame k) s in
  let s2 := step TweenComplete s1 in
  (playerGridX s1, playerGridY s1) = (13, 2) /\
  (playerGridX s2, playerGridY s2) = (13, 2) /\
  isMoving s2 = false /\
  gameFlags s2 = gameFlags s /\
  exists payload,
    effects s2 =
      SceneStart "TravelScene" payload ::
      TriggerEvaluation false 13 2 :: TweenAdded 13 2 :: effects s /\
    tp_gameFlags payload = gameFlags s.
Proof.
  intros Hc Hw Hh s Hx Hy Hm Hd Hv (Ho & He & Hen & Hl & Hr & Hu & Hdn) s1 s2.
  assert (Hinv : isPassable s 13 2 = true /\ tweensSettled s).
  { subst s. apply (run_preserves _ gate_step).
    by eapply create_opens_gate. }
  destruct Hinv as [Hp Ht].
  assert (Htw : tweens s = []) by (destruct Ht as [? | [? _]]; congruence).
  clearbody s.
  assert (H1 : step (Frame k) s = movePlayer 0 1 s).
  { change (step (Frame k) s) with (update k s). unfold update.
    by rewrite Ho, andb_false_r, He, Hv, Hen, Hd, Hm, Hl, Hr, Hu, Hdn. }
  rewrite movePlayer_accepted in H1 by (rewrite ?Hx, ?Hy; done).
  rewrite Hx, Hy, Htw in H1.
  subst s1 s2. rewrite H1.
  destruct s. cbn in *. subst.
  repeat split. eexists. split; reflexivity.
Qed.

(** *** Claims about saving at the shrine *)

Lemma update_dialogueConfirm k s :
  dialogueConfirm k -> choiceMenuVisible s = false ->
  isInDialogue s = true ->
  isDialogueActive (dialogueRenderer s) = true ->
  isInDialogue (advanceDialogue s) = true ->
  update k s = advanceDialogue s.
Proof.
  intros (Ho & He & Hen) Hv Hd Ha Hd'. unfold update.
  rewrite Ho, andb_false_r, He, Hv, Hen. unfold tryInteract.
  by rewrite Hd, Ha, Hd'.
Qed.

Lemma matchSlot_not_cancel c n :
  matchSlot c = Some n -> String.eqb c "Cancel" = false.
Proof.
  intros H. destruct (String.eqb_spec c "Cancel") as [-> |]; [| done].
  by vm_compute in H.
Qed.

(** The confirmation menu that follows the overwrite prompt. *)
Lemma overwrite_menu s c n p k1 k2 :
  choiceMenuVisible s = true ->
  choiceMenuCallback s = Some SaveSlotChoice ->
  selectedOption s = Some c -> matchSlot c = Some n ->
  List.find (fun q => slot q =? n) (saveSlotPreviews s) = Some p ->
  isEmpty p = false ->
  menuConfirm k1 -> dialogueConfirm k2 ->
  update k1 s =
    showOverwriteConfirmation (setSelectedSaveSlot n (hideChoiceMenu s)) /\
  update k2 (update k1 s) =
    showChoiceMenu ["Yes"; "No"] OverwriteChoice
      (setDialogueRenderer None
         (showOverwriteConfirmation
            (setSelectedSaveSlot n (hideChoiceMenu s)))).
Proof.
  intros Hv Hcb Hsel Hm Hf He Hk1 Hk2.
  assert (H1 : update k1 s =
               showOverwriteConfirmation
                 (setSelectedSaveSlot n (hideChoiceMenu s))).
  { rewrite update_menuConfirm by done. unfold selectChoiceMenuOption.
    replace (choiceMenuCallback (hideChoiceMenu s))
      with (Some SaveSlotChoice) by (rewrite <- Hcb; by destruct s).
    rewrite Hsel. unfold runChoiceCallback.
    rewrite (matchSlot_not_cancel _ _ Hm), Hm.
    replace (findPreview (setSelectedSaveSlot n (hideChoiceMenu s)))
      with (Some p) by (rewrite <- Hf; by destruct s).
    by rewrite He. }
  split; [done |]. rewrite H1.
  rewrite update_dialogueConfirm; try done; by destruct s.
Qed.

(** C8.  When the slot picked in the save menu holds data, confirming it
    saves nothing and opens the overwrite prompt; advancing the prompt
    opens a choice menu with exactly the options Yes and No, Yes
    highlighted.  Selecting No returns the scene to idle with the log, the
    save store and the tracked play time as they were before the slot was
    picked: [SaveManager.save] was not called.  Selecting Yes calls
    [SaveManager.save] once, for the picked slot; and the menu's callback
    calls it for no choice other than Yes. *)
Theorem C8_overwrite_asks_before_saving
    (s : Scene) (c : string) (n : Z) (p : SaveSlotPreview)
    (k1 k2 kd k4 : Keys) :
  choiceMenuVisible s = true ->
  choiceMenuCallback s = Some SaveSlotChoice ->
  selectedOption s = Some c -> matchSlot c = Some n ->
  List.find (fun q => slot q =? n) (saveSlotPreviews s) = Some p ->
  isEmpty p = false ->
  menuConfirm k1 -> dialogueConfirm k2 -> menuDown kd -> menuConfirm k4 ->
  let s1 := update k1 s in
  let s2 := update k2 s1 in
  let sNo := update k4 (update kd s2) in
  let sYes := update k4 s2 in
  (isInDialogue s1 = true /\
   isDialogueActive (dialogueRenderer s1) = true /\
   choiceMenuVisible s1 = false /\ effects s1 = effects s) /\
  (choiceMenuVisible s2 = true /\ choiceMenuOptions s2 = ["Yes"; "No"] /\
   choiceMenuSelectedIndex s2 = 0 /\
   choiceMenuCallback s2 = Some OverwriteChoice /\
   effects s2 = effects s) /\
  (selectedOption (update kd s2) = Some "No" /\ idle sNo /\
   effects sNo = effects s /\ saveStore sNo = saveStore s /\
   playTime sNo = playTime s) /\
  (exists d ok,
      effects sYes = SaveCall d ok :: effects s /\ sd_slot d = n) /\
  (forall t choice s',
      choice <> Some "Yes" ->
      runChoiceCallback t OverwriteChoice choice s' = s').
Proof.
  intros Hv Hcb Hsel Hm Hf He Hk1 Hk2 Hkd Hk4 s1 s2 sNo sYes.
  destruct (overwrite_menu s c n p k1 k2) as [H1 H2]; try done.
  fold s1 in H1, H2. fold s2 in H2.
  split; [| split; [| split; [| split]]].
  - rewrite H1. by destruct s.
  - rewrite H2. by destruct s.
  - assert (Hd : update kd s2 = setChoiceMenuSelectedIndex 1 s2).
    { rewrite update_menuDown by (try done; rewrite H2; by destruct s).
      rewrite H2. by destruct s. }
    subst sNo. rewrite Hd.
    rewrite update_menuConfirm by (try done; rewrite H2; by destruct s).
    rewrite H2. clear. by destruct s.
  - subst sYes.
    rewrite update_menuConfirm by (try done; rewrite H2; by destruct s).
    rewrite H2. clear. destruct s. cbn.
    change (Z.to_nat 0) with 0%nat. cbn [lookup list_lookup].
    rewrite bool_decide_eq_true_2 by done. unfold saveGame. cbn.
    match goal with
    | |- context [SaveManager_save ?d ?st] =>
        destruct (SaveManager_save d st) as [ok st']
    end.
    destruct ok; cbn; eauto.
  - intros t choice s' Hne. unfold runChoiceCallback.
    by rewrite bool_decide_eq_false_2.
Qed.
End Facts.

#[local] Existing Instance Sample.unitTypes.
#[local] Existing Instance Sample.slotStore.

Lemma C1_player_never_rests_on_blocked_tile_witness :
  let acts := [Move 0 (-1); Engine TweenComplete; Move (-1) 0;
               Engine TweenComplete; Move 0 1; Move 5 5] in
  let s' := perform acts Sample.town in
  terrainImpassable Sample.town 20 18 = false /\
  (playerGridX s', playerGridY s') = (19, 18) /\
  terrainImpassable s' 19 18 = false /\
  npcAt s' 19 18 = false.
Proof.
  intros acts s'.
  assert (H : terrainImpassable Sample.town (playerGridX Sample.town)
                (playerGridY Sample.town) = false)
    by (vm_compute; reflexivity).
  split; [exact H |]. split; [vm_compute; reflexivity |].
  destruct (C1_player_never_rests_on_blocked_tile Sample.town acts H)
    as (Ht & Hn & _).
  split; [exact Ht |]. apply Hn. vm_compute. discriminate.
Defined.

Lemma C4_facing_follows_every_attempt_witness :
  let s := setPosition 16 18 Sample.town in
  unitVector (-1) 0 /\
  isMoving s = false /\ isInDialogue s = false /\
  isPassable s 15 18 = false /\
  playerFacing s = Back /\
  playerFacing (movePlayer (-1) 0 s) = Left.
Proof.
  intros s.
  assert (Hu : unitVector (-1) 0) by (unfold unitVector; lia).
  split; [exact Hu |].
  do 4 (split; [vm_compute; reflexivity |]).
  exact (proj1 (C4_facing_follows_every_attempt s (-1) 0 Hu)
           eq_refl eq_refl).
Defined.

(** C4 as stated fails for a modal session that does not set
    [isInDialogue]: the save-slot menu.  At the shrine, confirming through
    the two dialogue lines and then "Yes" hides the first menu, which clears
    [isInDialogue], and opens the slot menu; with that menu on screen a call
    of [movePlayer] turns the player and moves it from (8, 5) to (7, 5). *)
Lemma C4_open_menu_counterexample :
  let s :=
    run [Frame Sample.pressEnter; Frame Sample.pressEnter;
         Frame Sample.pressEnter; Frame Sample.pressEnter]
      (setPosition 8 5 Sample.town) in
  unitVector (-1) 0 /\
  choiceMenuVisible s = true /\ choiceMenuCallback s = Some SaveSlotChoice /\
  isMoving s = false /\
  (playerGridX s, playerGridY s, playerFacing s) = (8, 5, Back) /\
  (playerGridX (movePlayer (-1) 0 s), playerGridY (movePlayer (-1) 0 s),
   playerFacing (movePlayer (-1) 0 s)) = (7, 5, Left) /\
  isMoving (movePlayer (-1) 0 s) = true /\
  movePlayer (-1) 0 s <> s.
Proof.
  intros s. split; [unfold unitVector; lia |].
  do 6 (split; [vm_compute; reflexivity |]).
  intros Heq. apply (f_equal playerGridX) in Heq.
  vm_compute in Heq. discriminate.
Qed.

Lemma C6_choice_menu_navigation_witness :
  let s := run (map Frame [Sample.pressDown; Sample.pressDown;
                           Sample.pressUp])
             (showChoiceMenu ["Yes"; "No"] OverwriteChoice Sample.town) in
  ["Yes"; "No"] <> [] /\
  Forall (fun k => menuUp k \/ menuDown k)
    [Sample.pressDown; Sample.pressDown; Sample.pressUp] /\
  choiceMenuSelectedIndex s = 0 /\
  choiceMenuSelectedIndex (update Sample.pressDown s) = 1 /\
  choiceMenuSelectedIndex
    (update Sample.pressDown (update Sample.pressDown s)) = 1.
Proof.
  intros s.
  assert (Hne : ["Yes"; "No"] <> @nil string) by discriminate.
  assert (Hks : Forall (fun k => menuUp k \/ menuDown k)
                  [Sample.pressDown; Sample.pressDown; Sample.pressUp]).
  { repeat (constructor;
            [first [left; repeat split; reflexivity
                   | right; repeat split; reflexivity] |]).
    constructor. }
  split; [exact Hne |]. split; [exact Hks |].
  split; [vm_compute; reflexivity |].
  split; [| vm_compute; reflexivity].
  pose proof (C6_choice_menu_navigation ["Yes"; "No"] OverwriteChoice
                Sample.town _ Hne Hks) as (_ & _ & _ & _ & Hdown & _).
  etransitivity;
    [apply (Hdown Sample.pressDown); repeat split; reflexivity |].
  vm_compute; reflexivity.
Defined.

Lemma C7_north_gate_starts_travel_witness :
  let s := Sample.townAtGate in
  let s2 := run [Frame Sample.pressDown; TweenComplete] s in
  create Sample.newGame (Some Sample.townMap) 0 (fun _ => true)
    (setPosition 13 1 (fresh Sample.oneSave)) = Some s /\
  (playerGridX s, playerGridY s) = (13, 1) /\
  (playerGridX s2, playerGridY s2) = (13, 2) /\
  gameFlags s2 = gameFlags s.
Proof.
  intros s s2.
  assert (Hc : create Sample.newGame (Some Sample.townMap) 0
                 (fun _ => true) (setPosition 13 1 (fresh Sample.oneSave))
               = Some s) by reflexivity.
  split; [exact Hc |]. split; [reflexivity |].
  assert (Hk : holdsDown Sample.pressDown) by (repeat split; reflexivity).
  pose proof (C7_north_gate_starts_travel Sample.newGame Sample.townMap
                0 (fun _ => true) _ s [] Sample.pressDown Hc
                ltac:(reflexivity) ltac:(reflexivity) eq_refl eq_refl eq_refl
                eq_refl eq_refl Hk) as (_ & H2 & _ & Hg & _).
  split; [exact H2 | exact Hg].
Defined.

Lemma C8_overwrite_asks_before_saving_witness :
  let s := setChoiceMenuSelectedIndex 0
             (showSaveSlotSelection Sample.town) in
  let sNo := run (map Frame [Sample.pressEnter; Sample.pressEnter;
                             Sample.pressDown; Sample.pressEnter]) s in
  selectedOption s = Some "Slot 1: Vicas Lv2 2m" /\
  matchSlot "Slot 1: Vicas Lv2 2m" = Some 1 /\
  idle sNo /\ effects sNo = effects s /\ saveStore sNo = Sample.oneSave.
Proof.
  intros s sNo.
  assert (Hc : menuConfirm Sample.pressEnter) by (repeat split; reflexivity).
  assert (Hd : dialogueConfirm Sample.pressEnter)
    by (repeat split; reflexivity).
  assert (Hdn : menuDown Sample.pressDown) by (repeat split; reflexivity).
  assert (Hsel : selectedOption s = Some "Slot 1: Vicas Lv2 2m")
    by (vm_compute; reflexivity).
  assert (Hm : matchSlot "Slot 1: Vicas Lv2 2m" = Some 1)
    by (vm_compute; reflexivity).
  assert (Hf : List.find (fun q => slot q =? 1) (saveSlotPreviews s) =
               Some (Sample.previewOf Sample.oneSave 1))
    by (vm_compute; reflexivity).
  destruct (C8_overwrite_asks_before_saving s "Slot 1: Vicas Lv2 2m" 1
              (Sample.previewOf Sample.oneSave 1)
              Sample.pressEnter Sample.pressEnter Sample.pressDown
              Sample.pressEnter eq_refl eq_refl Hsel Hm Hf eq_refl
              Hc Hd Hdn Hc)
    as (_ & _ & (_ & Hidle & Hef & Hst & _) & _).
  split; [exact Hsel |]. split; [exact Hm |].
  split; [exact Hidle |]. split; [exact Hef | exact Hst].
Defined.
End Ishetar2Facts.

(** ** TravelScene: the movement and trigger code against the rest *)

Module TravelFacts.
Import TravelScene.

Create Rewrite HintDb tmotion.

Section Facts.
Context `{GT : GameTypes}.

Local Ltac by_fields s := destruct s; reflexivity.

Lemma travel_motion_setIsInDialogue b s : motion (setIsInDialogue b s) = motion s.
Proof. by_fields s. Qed.
Lemma travel_motion_setChoiceMenuVisible b s :
  motion (setChoiceMenuVisible b s) = motion s.
Proof. by_fields s. Qed.
Lemma travel_motion_setChoiceMenuSelectedIndex i s :
  motion (setChoiceMenuSelectedIndex i s) = motion s.
Proof. by_fields s. Qed.
Lemma travel_motion_setLevelUpOverlay o s :
  motion (setLevelUpOverlay o s) = motion s.
Proof. by_fields s. Qed.
Lemma travel_motion_setDialogueRenderer d s :
  motion (setDialogueRenderer d s) = motion s.
Proof. by_fields s. Qed.
Lemma travel_motion_setTimers t s : motion (setTimers t s) = motion s.
Proof. by_fields s. Qed.
Lemma travel_motion_emit_SceneStart k p s :
  motion (emit (SceneStart k p) s) = motion s.
Proof. by_fields s. Qed.
Lemma travel_motion_emit_ScenePause s : motion (emit ScenePause s) = motion s.
Proof. by_fields s. Qed.
Lemma travel_motion_emit_SceneLaunchMenu a b c s :
  motion (emit (SceneLaunchMenu a b c) s) = motion s.
Proof. by_fields s. Qed.

#[local] Hint Rewrite travel_motion_setIsInDialogue travel_motion_setChoiceMenuVisible
  travel_motion_setChoiceMenuSelectedIndex travel_motion_setLevelUpOverlay
  travel_motion_setDialogueRenderer travel_motion_setTimers travel_motion_emit_SceneStart
  travel_motion_emit_ScenePause travel_motion_emit_SceneLaunchMenu : tmotion.

Local Ltac still :=
  intros; repeat (case_match; try reflexivity);
  autorewrite with tmotion; try reflexivity.

Lemma travel_motion_sceneStartDialogue l sp cb s :
  motion (sceneStartDialogue l sp cb s) = motion s.
Proof. unfold sceneStartDialogue. still. Qed.
#[local] Hint Rewrite travel_motion_sceneStartDialogue : tmotion.

Lemma motion_promptLocationInteraction l s :
  motion (promptLocationInteraction l s) = motion s.
Proof. unfold promptLocationInteraction. still. Qed.
Lemma motion_travelToLocation l s : motion (travelToLocation l s) = motion s.
Proof. unfold travelToLocation. still. Qed.
#[local] Hint Rewrite motion_promptLocationInteraction
  motion_travelToLocation : tmotion.

Lemma travel_motion_runDialogueCallback cb s :
  motion (runDialogueCallback cb s) = motion s.
Proof. unfold runDialogueCallback. still. Qed.
#[local] Hint Rewrite travel_motion_runDialogueCallback : tmotion.

Lemma travel_motion_advanceDialogue s : motion (advanceDialogue s) = motion s.
Proof. unfold advanceDialogue. still. Qed.
#[local] Hint Rewrite travel_motion_advanceDialogue : tmotion.

Lemma travel_motion_tryInteract s : motion (tryInteract s) = motion s.
Proof. unfold tryInteract. still. Qed.
Lemma travel_motion_selectChoiceMenuOption s :
  motion (selectChoiceMenuOption s) = motion s.
Proof. unfold selectChoiceMenuOption, hideChoiceMenu. still. Qed.
Lemma travel_motion_levelUpComplete s : motion (levelUpComplete s) = motion s.
Proof. unfold levelUpComplete. still. Qed.
Lemma motion_showLevelUpScreen l s :
  motion (showLevelUpScreen l s) = motion s.
Proof. unfold showLevelUpScreen. still. Qed.
#[local] Hint Rewrite travel_motion_tryInteract travel_motion_selectChoiceMenuOption
  travel_motion_levelUpComplete motion_showLevelUpScreen : tmotion.

Lemma travel_update_cases k s :
  motion (update k s) = motion s \/
  exists dx dy s1,
    unitVector dx dy /\ motion s1 = motion s /\
    update k s = movePlayer dx dy s1.
Proof.
  unfold update.
  destruct (hasOverlay s && overlayWaiting k);
    [left; repeat case_match; by autorewrite with tmotion |].
  destruct (escJustDown k); [left; by autorewrite with tmotion |].
  destruct (choiceMenuVisible s) eqn:Hcv;
    [left; repeat case_match; by autorewrite with tmotion |].
  set (s1 := if enterJustDown k then tryInteract s else s).
  assert (Hs1 : motion s1 = motion s)
    by (subst s1; case_match; by autorewrite with tmotion).
  destruct (isInDialogue s1) eqn:Hd; [by left |].
  destruct (isMoving s1) eqn:Hm; [by left |]. cbn.
  destruct (leftIsDown k);
    [right; exists (-1), 0, s1; unfold unitVector; by intuition |].
  destruct (rightIsDown k);
    [right; exists 1, 0, s1; unfold unitVector; by intuition |].
  destruct (upIsDown k);
    [right; exists 0, (-1), s1; unfold unitVector; by intuition |].
  destruct (downIsDown k);
    [right; exists 0, 1, s1; unfold unitVector; by intuition |].
  by left.
Qed.

Lemma travel_step_preserves (P : Scene -> Prop) :
  (forall s s', motion s = motion s' -> P s -> P s') ->
  (forall dx dy s, unitVector dx dy -> P s -> P (movePlayer dx dy s)) ->
  (forall s p rest,
      tweens s = p :: rest -> P s -> P (moveTweenComplete (setTweens rest s))) ->
  forall e s, P s -> P (step e s).
Proof.
  intros Hmot Hmove Htween e s HP. destruct e as [k | |]; cbn.
  - destruct (travel_update_cases k s) as [H | (dx & dy & s1 & Hu & H1 & ->)].
    + by apply (Hmot s).
    + apply Hmove; [done |]. by apply (Hmot s).
  - destruct (tweens s) eqn:Ht; [done |]. by eapply Htween.
  - destruct (timers s) as [| [l] rest] eqn:Ht; [done |].
    eapply (Hmot s); [| done]. by autorewrite with tmotion.
Qed.

Lemma travel_run_preserves (P : Scene -> Prop) :
  (forall e s, P s -> P (step e s)) ->
  forall evs s, P s -> P (run evs s).
Proof.
  intros Hstep evs. unfold run.
  induction evs as [| e evs IH]; intros s HP; cbn; [done |].
  apply IH. by apply Hstep.
Qed.

(** The ways in which [movePlayer] returns. *)
Lemma travel_movePlayer_cases dx dy s :
  let x := playerGridX s + dx in
  let y := playerGridY s + dy in
  movePlayer dx dy s = s \/
  movePlayer dx dy s = turned dx dy s \/
  (exists l, isMoving s = false /\ isInDialogue s = false /\
             isPassable s x y = true /\
             blockedLocationAt s x y = Some l /\
             (locId l ∉ shownBlockedDialogue s) /\
             movePlayer dx dy s = warned l (turned dx dy s)) \/
  (isMoving s = false /\ isInDialogue s = false /\
   isPassable s x y = true /\ blockedLocationAt s x y = None /\
   movePlayer dx dy s = moved x y (turned dx dy s)).
Proof.
  intros x y. unfold movePlayer.
  destruct (isMoving s) eqn:Hm; [by left |].
  destruct (isInDialogue s) eqn:Hd; [by left |]. cbn.
  fold x y. fold (turned dx dy s).
  replace (isPassable (turned dx dy s) x y) with (isPassable s x y)
    by by destruct s.
  destruct (isPassable s x y) eqn:Hp; [| right; by left]. cbn.
  replace (blockedLocationAt (turned dx dy s) x y)
    with (blockedLocationAt s x y) by by destruct s.
  destruct (blockedLocationAt s x y) as [l |] eqn:Hb.
  - replace (shownBlockedDialogue (turned dx dy s))
      with (shownBlockedDialogue s) by by destruct s.
    case_bool_decide as Hin; [right; by left |].
    right; right; left. exists l. repeat split; try done.
    unfold warned. by destruct s.
  - right; right; right. repeat split; try done.
    unfold moved. by destruct s.
Qed.


(** *** The log pairs moves with trigger evaluations *)

Lemma travel_consistent_motion s s' :
  motion s = motion s' -> consistent s -> consistent s'.
Proof.
  destruct s, s'. unfold consistent, motion. cbn.
  intros H. simplify_eq.
  match goal with H : pairedLog _ = pairedLog _ |- _ => by rewrite H end.
Qed.

Lemma travel_consistent_movePlayer dx dy s :
  consistent s -> consistent (movePlayer dx dy s).
Proof.
  intros Hs.
  destruct (travel_movePlayer_cases dx dy s)
    as [-> | [-> | [(l & _ & _ & _ & _ & _ & ->) | (Hm & _ & _ & _ & ->)]]].
  - done.
  - revert Hs. by destruct s.
  - revert Hs. by destruct s.
  - revert Hs Hm. destruct s. unfold consistent. cbn.
    destruct (pairedLog effects0) as [[| p | p] |]; [| | done | done].
    + by intros (_ & ->) _.
    + by intros (-> & _).
Qed.

Lemma travel_consistent_tween s p rest :
  tweens s = p :: rest -> consistent s ->
  consistent (moveTweenComplete (setTweens rest s)).
Proof.
  intros Ht Hs.
  set (s1 := emit (SpecialTriggerEvaluation false (playerGridX s)
                     (playerGridY s))
               (setIsMoving false (setTweens rest s))).
  assert (H1 : pairedLog (effects s1) =
               Some (SpecialDone (playerGridX s, playerGridY s)) /\
               isMoving s1 = false /\ tweens s1 = [] /\
               playerGridX s1 = playerGridX s /\
               playerGridY s1 = playerGridY s).
  { subst s1. revert Ht Hs. destruct s. unfold consistent. cbn.
    destruct (pairedLog effects0) as [[| [x y] | q] |]; [| | done | done].
    - by intros -> (_ & ?).
    - intros -> (_ & Hp & Hxy). simplify_eq. by rewrite !Z.eqb_refl. }
  destruct H1 as (Hlog & Hm1 & Ht1 & Hx1 & Hy1).
  unfold moveTweenComplete, checkSpecialTriggers.
  replace (emit (SpecialTriggerEvaluation
                   (isMoving (setIsMoving false (setTweens rest s)))
                   (playerGridX (setIsMoving false (setTweens rest s)))
                   (playerGridY (setIsMoving false (setTweens rest s))))
                (setIsMoving false (setTweens rest s)))
    with s1 by (subst s1; by destruct s).
  destruct (ambushDue s1).
  - unfold triggerHellhoundAmbush.
    revert Hlog Hm1 Ht1. destruct s1. unfold consistent. cbn.
    by intros -> -> ->.
  - unfold checkLocationProximity. rewrite Hm1, Hx1, Hy1.
    set (s2 := emit _ s1).
    assert (H2 : consistent s2).
    { subst s2. revert Hlog Hm1 Ht1. destruct s1. unfold consistent. cbn.
      intros -> -> ->. by rewrite !Z.eqb_refl. }
    replace (getLocationAtPosition s2 (playerGridX s) (playerGridY s))
      with (getLocationAtPosition s1 (playerGridX s) (playerGridY s))
      by (subst s2; by destruct s1).
    repeat case_match; try done.
    eapply travel_consistent_motion; [| exact H2]. by autorewrite with tmotion.
Qed.

Lemma travel_consistent_step e s : consistent s -> consistent (step e s).
Proof.
  apply travel_step_preserves.
  - apply travel_consistent_motion.
  - intros. by apply travel_consistent_movePlayer.
  - intros. by eapply travel_consistent_tween.
Qed.

Lemma travel_consistent_run evs s : consistent s -> consistent (run evs s).
Proof. apply travel_run_preserves, travel_consistent_step. Qed.

Lemma perform_preserves (P : Scene -> Prop) :
  (forall dx dy s, P s -> P (movePlayer dx dy s)) ->
  (forall e s, P s -> P (step e s)) ->
  forall acts s, P s -> P (perform acts s).
Proof.
  intros Hmove Hstep acts. unfold perform.
  induction acts as [| a acts IH]; intros s HP; cbn; [done |].
  apply IH. destruct a; cbn; auto.
Qed.

(** *** The hellhound ambush *)

Lemma ambush_motion s s' :
  motion s = motion s' ->
  ambushTriggered s' = ambushTriggered s /\
  ambushes (effects s') = ambushes (effects s).
Proof.
  destruct s, s'. unfold motion, ambushTriggered. cbn.
  intros H. by simplify_eq.
Qed.

Lemma ambush_movePlayer dx dy s :
  ambushTriggered (movePlayer dx dy s) = ambushTriggered s /\
  ambushes (effects (movePlayer dx dy s)) = ambushes (effects s).
Proof.
  destruct (travel_movePlayer_cases dx dy s)
    as [-> | [-> | [(l & _ & _ & _ & _ & _ & ->) | (_ & _ & _ & _ & ->)]]];
    by destruct s.
Qed.

Lemma checkLocationProximity_ambush s :
  ambushTriggered (checkLocationProximity s) = ambushTriggered s /\
  ambushes (effects (checkLocationProximity s)) = ambushes (effects s).
Proof.
  unfold checkLocationProximity.
  set (s1 := emit _ s).
  assert (H1 : ambushTriggered s1 = ambushTriggered s /\
               ambushes (effects s1) = ambushes (effects s))
    by (subst s1; by destruct s).
  repeat case_match; try done.
  destruct (ambush_motion s1 (promptLocationInteraction l s1)) as [-> ->];
    [by autorewrite with tmotion | done].
Qed.

Lemma checkSpecialTriggers_fires s :
  fst (checkSpecialTriggers s) = ambushDue s.
Proof.
  unfold checkSpecialTriggers.
  replace (ambushDue (emit _ s)) with (ambushDue s) by by destruct s.
  by destruct (ambushDue s).
Qed.

Lemma checkSpecialTriggers_fired s :
  ambushDue s = true ->
  ambushTriggered s = false /\
  ambushTriggered (snd (checkSpecialTriggers s)) = true /\
  ambushes (effects (snd (checkSpecialTriggers s))) =
    S (ambushes (effects s)).
Proof.
  intros Hdue. unfold checkSpecialTriggers.
  replace (ambushDue (emit _ s)) with (ambushDue s) by by destruct s.
  rewrite Hdue. revert Hdue. destruct s.
  unfold ambushDue, ambushTriggered, flagSet. cbn.
  rewrite lookup_insert_eq.
  intros (Hq & Ht)%andb_prop. apply andb_prop in Hq as [_ Hn].
  by apply negb_true_iff in Hn.
Qed.

Lemma checkSpecialTriggers_quiet s :
  ambushDue s = false ->
  ambushTriggered (snd (checkSpecialTriggers s)) = ambushTriggered s /\
  ambushes (effects (snd (checkSpecialTriggers s))) = ambushes (effects s).
Proof.
  intros Hdue. unfold checkSpecialTriggers.
  replace (ambushDue (emit _ s)) with (ambushDue s) by by destruct s.
  rewrite Hdue. by destruct s.
Qed.

Lemma moveTweenComplete_ambush s :
  let s' := moveTweenComplete s in
  (ambushDue (setIsMoving false s) = true /\
   ambushTriggered s = false /\ ambushTriggered s' = true /\
   ambushes (effects s') = S (ambushes (effects s))) \/
  (ambushTriggered s' = ambushTriggered s /\
   ambushes (effects s') = ambushes (effects s)).
Proof.
  intros s'. subst s'. unfold moveTweenComplete.
  set (s0 := setIsMoving false s).
  assert (H0 : ambushTriggered s0 = ambushTriggered s /\
               ambushes (effects s0) = ambushes (effects s))
    by (subst s0; by destruct s).
  destruct H0 as [Ht0 He0].
  pose proof (checkSpecialTriggers_fires s0) as Hf.
  destruct (checkSpecialTriggers s0) as [fired s1] eqn:Hc. cbn in Hf.
  destruct (ambushDue s0) eqn:Hdue; subst fired.
  - left. destruct (checkSpecialTriggers_fired s0 Hdue) as (H1 & H2 & H3).
    rewrite Hc in H2, H3. cbn in H2, H3. cbn.
    rewrite <- Ht0, <- He0. done.
  - right. destruct (checkSpecialTriggers_quiet s0 Hdue) as (H1 & H2).
    rewrite Hc in H1, H2. cbn in H1, H2. cbn.
    destruct (checkLocationProximity_ambush s1) as [-> ->].
    split; congruence.
Qed.

Lemma ambushBudget_step n e s : ambushBudget n s -> ambushBudget n (step e s).
Proof.
  apply travel_step_preserves; unfold ambushBudget.
  - intros s0 s1 H. by destruct (ambush_motion _ _ H) as [-> ->].
  - intros dx dy s0 _. by destruct (ambush_movePlayer dx dy s0) as [-> ->].
  - intros s0 p rest _.
    replace (ambushTriggered s0)
      with (ambushTriggered (setTweens rest s0)) by by destruct s0.
    replace (ambushes (effects s0))
      with (ambushes (effects (setTweens rest s0))) by by destruct s0.
    destruct (moveTweenComplete_ambush (setTweens rest s0))
      as [(_ & -> & -> & ->) | [-> ->]]; lia.
Qed.

Lemma ambushSpent_step n e s : ambushSpent n s -> ambushSpent n (step e s).
Proof.
  apply travel_step_preserves; unfold ambushSpent.
  - intros s0 s1 H. by destruct (ambush_motion _ _ H) as [-> ->].
  - intros dx dy s0 _. by destruct (ambush_movePlayer dx dy s0) as [-> ->].
  - intros s0 p rest _.
    replace (ambushTriggered s0)
      with (ambushTriggered (setTweens rest s0)) by by destruct s0.
    replace (ambushes (effects s0))
      with (ambushes (effects (setTweens rest s0))) by by destruct s0.
    destruct (moveTweenComplete_ambush (setTweens rest s0))
      as [(_ & -> & _) | [-> ->]]; [by intros [? _] | done].
Qed.

(** C5.  [checkSpecialTriggers] fires the hellhound ambush exactly when
    the flag quetzi_shrine_battle_complete is set, the flag
    hellhound_ambush_triggered is unset and the committed row is 19;
    firing sets hellhound_ambush_triggered; once that flag is set no
    sequence of events fires the ambush again or unsets the flag; so from
    any state the ambush fires at most once. *)
Theorem C5_hellhound_ambush_fires_at_most_once
    (s : Scene) (evs : list Event) :
  (fst (checkSpecialTriggers s) = true <->
   flagSet (gameFlags s) "quetzi_shrine_battle_complete" = true /\
   flagSet (gameFlags s) "hellhound_ambush_triggered" = false /\
   playerGridY s = 19) /\
  (fst (checkSpecialTriggers s) = true ->
   flagSet (gameFlags (snd (checkSpecialTriggers s)))
     "hellhound_ambush_triggered" = true /\
   ambushes (effects (snd (checkSpecialTriggers s))) =
     S (ambushes (effects s))) /\
  (fst (checkSpecialTriggers s) = false ->
   ambushes (effects (snd (checkSpecialTriggers s))) =
     ambushes (effects s)) /\
  (flagSet (gameFlags s) "hellhound_ambush_triggered" = true ->
   flagSet (gameFlags (run evs s)) "hellhound_ambush_triggered" = true /\
   ambushes (effects (run evs s)) = ambushes (effects s)) /\
  (ambushes (effects (run evs s)) <= ambushes (effects s) + 1)%nat.
Proof.
  rewrite checkSpecialTriggers_fires.
  split; [| split; [| split; [| split]]].
  - unfold ambushDue. rewrite !andb_true_iff, negb_true_iff, Z.eqb_eq.
    tauto.
  - intros Hdue. by destruct (checkSpecialTriggers_fired s Hdue) as (_ & ? & ?).
  - intros Hdue. by destruct (checkSpecialTriggers_quiet s Hdue).
  - intros Ht.
    apply (travel_run_preserves _ (ambushSpent_step (ambushes (effects s))) evs s).
    by split.
  - assert (H : ambushBudget (ambushes (effects s) + 1) (run evs s)).
    { apply (travel_run_preserves _ (ambushBudget_step _) evs s).
      unfold ambushBudget. destruct (ambushTriggered s); lia. }
    unfold ambushBudget in H. lia.
Qed.

(** *** Blocked locations *)











End Facts.

#[local] Existing Instance Sample.unitTypes.

Lemma C5_hellhound_ambush_fires_at_most_once_witness :
  let first := Sample.world (5, 18) Sample.afterQuetzi in
  let later :=
    Sample.world (5, 18)
      (<["hellhound_ambush_triggered" := true]> Sample.afterQuetzi) in
  let walk := [Frame (Sample.travelKeys false false false false true);
               TweenComplete] in
  playerGridY (run walk first) = 19 /\
  ambushes (effects (run walk first)) = 1%nat /\
  flagSet (gameFlags later) "hellhound_ambush_triggered" = true /\
  playerGridY (run walk later) = 19 /\
  ambushes (effects (run walk later)) = 0%nat.
Proof.
  intros first later walk.
  split; [vm_compute; reflexivity |]. split; [vm_compute; reflexivity |].
  assert (Hflag : flagSet (gameFlags later) "hellhound_ambush_triggered"
                  = true) by (vm_compute; reflexivity).
  split; [exact Hflag |]. split; [vm_compute; reflexivity |].
  destruct (C5_hellhound_ambush_fires_at_most_once later walk)
    as (_ & _ & _ & Hnever & _).
  exact (proj2 (Hnever Hflag)).
Defined.


End TravelFacts.

(** ** Claims that span IshetarScene2 and TravelScene *)

Module MovementClaims.

Section Claims.
Context `{SM : SaveManager}.

Lemma town_log_counts (log : list IshetarScene2.Effect) :
  match IshetarScene2.pairedLog log with
  | Some None =>
      IshetarScene2.acceptedMoves log = IshetarScene2.evaluations log
  | Some (Some _) =>
      IshetarScene2.acceptedMoves log = S (IshetarScene2.evaluations log)
  | None => True
  end.
Proof.
  induction log as [| e log IH]; [done |].
  destruct e; cbn; try exact IH;
    destruct (IshetarScene2.pairedLog log) as [[[x' y'] |] |];
    cbn; try done; try lia.
  destruct (negb moving && (x =? x') && (y =? y')); [lia | done].
Qed.

Lemma town_log_flags (log : list IshetarScene2.Effect) p m x y :
  IshetarScene2.pairedLog log = Some p ->
  In (IshetarScene2.TriggerEvaluation m x y) log -> m = false.
Proof.
  revert p. induction log as [| e log IH]; intros p Hp Hin; [done |].
  destruct Hin as [-> | Hin].
  - cbn in Hp. destruct (IshetarScene2.pairedLog log) as [[[x' y'] |] |];
      try done.
    by destruct m.
  - destruct e; cbn in Hp; try (by eapply IH);
      destruct (IshetarScene2.pairedLog log) as [[[x' y'] |] |];
      try done; by eapply IH.
Qed.

Lemma travel_log_counts (log : list TravelScene.Effect) :
  match TravelScene.pairedLog log with
  | Some TravelScene.Settled =>
      TravelScene.acceptedMoves log = TravelScene.specialEvaluations log /\
      TravelScene.specialEvaluations log =
        (TravelScene.proximityEvaluations log +
         TravelScene.ambushes log)%nat
  | Some (TravelScene.SpecialDone _) =>
      TravelScene.acceptedMoves log = TravelScene.specialEvaluations log /\
      TravelScene.specialEvaluations log =
        S (TravelScene.proximityEvaluations log +
           TravelScene.ambushes log)
  | Some (TravelScene.Outstanding _) =>
      TravelScene.acceptedMoves log =
        S (TravelScene.specialEvaluations log) /\
      TravelScene.specialEvaluations log =
        (TravelScene.proximityEvaluations log +
         TravelScene.ambushes log)%nat
  | None => True
  end.
Proof.
  induction log as [| e log IH]; [cbn; lia |].
  destruct e; cbn; try exact IH;
    destruct (TravelScene.pairedLog log) as [[| [x' y'] | [x' y']] |];
    cbn; try done; try lia;
    destruct (negb moving && (x =? x') && (y =? y')); cbn; try done; lia.
Qed.

Lemma travel_log_flags (log : list TravelScene.Effect) p m x y :
  TravelScene.pairedLog log = Some p ->
  In (TravelScene.SpecialTriggerEvaluation m x y) log \/
  In (TravelScene.LocationProximityEvaluation m x y) log ->
  m = false.
Proof.
  revert p. induction log as [| e log IH]; intros p Hp Hin;
    [by destruct Hin |].
  assert (Hcase :
    e = TravelScene.SpecialTriggerEvaluation m x y \/
    e = TravelScene.LocationProximityEvaluation m x y \/
    (In (TravelScene.SpecialTriggerEvaluation m x y) log \/
     In (TravelScene.LocationProximityEvaluation m x y) log))
    by (cbn in Hin; tauto).
  destruct Hcase as [-> | [-> | Hlog]].
  - cbn in Hp.
    destruct (TravelScene.pairedLog log) as [[| [x' y'] | [x' y']] |];
      try done.
    by destruct m.
  - cbn in Hp.
    destruct (TravelScene.pairedLog log) as [[| [x' y'] | [x' y']] |];
      try done.
    by destruct m.
  - destruct e; cbn in Hp; try (by eapply IH);
      destruct (TravelScene.pairedLog log) as [[| [x' y'] | [x' y']] |];
      try done; by eapply IH.
Qed.

(** C2.  In both scenes, from any state whose log pairs every accepted
    move with its trigger evaluation, every sequence of engine events
    leads to such a state again: each accepted move is followed by exactly
    one evaluation of the triggers, found at the tile that move committed
    and with [isMoving] already false, before the next move is accepted.
    In IshetarScene2 the evaluation is one call of [checkTriggers]; in
    TravelScene it is one call of [checkSpecialTriggers], followed by one
    call of [checkLocationProximity] exactly when the special triggers did
    not fire the ambush.  So the accepted moves are as many as the
    evaluations plus the pending tweens, in TravelScene the evaluations of
    the special triggers are as many as the evaluations of the location
    proximity plus the ambushes, and no evaluation ever saw [isMoving]
    true. *)
Theorem C2_triggers_run_once_after_commit
    (s : IshetarScene2.Scene) (evs : list IshetarScene2.Event)
    (t : TravelScene.Scene) (tevs : list TravelScene.Event) :
  IshetarScene2.consistent s -> TravelScene.consistent t ->
  let s' := IshetarScene2.run evs s in
  let t' := TravelScene.run tevs t in
  (IshetarScene2.consistent s' /\
   IshetarScene2.acceptedMoves (IshetarScene2.effects s') =
     (IshetarScene2.evaluations (IshetarScene2.effects s') +
      length (IshetarScene2.tweens s'))%nat /\
   forall m x y,
     In (IshetarScene2.TriggerEvaluation m x y) (IshetarScene2.effects s')
     -> m = false) /\
  (TravelScene.consistent t' /\
   TravelScene.acceptedMoves (TravelScene.effects t') =
     (TravelScene.specialEvaluations (TravelScene.effects t') +
      length (TravelScene.tweens t'))%nat /\
   TravelScene.specialEvaluations (TravelScene.effects t') =
     (TravelScene.proximityEvaluations (TravelScene.effects t') +
      TravelScene.ambushes (TravelScene.effects t'))%nat /\
   forall m x y,
     In (TravelScene.SpecialTriggerEvaluation m x y)
        (TravelScene.effects t') \/
     In (TravelScene.LocationProximityEvaluation m x y)
        (TravelScene.effects t') -> m = false).
Proof.
  intros Hs Ht s' t'. split.
  - assert (Hs' : IshetarScene2.consistent s')
      by by apply Ishetar2Facts.consistent_run.
    split; [done |].
    pose proof (town_log_counts (IshetarScene2.effects s')) as Hc.
    unfold IshetarScene2.consistent in Hs'.
    destruct (IshetarScene2.pairedLog (IshetarScene2.effects s'))
      as [[p |] |] eqn:Hp; [| | done].
    + destruct Hs' as (_ & -> & _). split; [cbn; lia |].
      intros m x y. by eapply town_log_flags.
    + destruct Hs' as (_ & ->). split; [cbn; lia |].
      intros m x y. by eapply town_log_flags.
  - assert (Ht' : TravelScene.consistent t')
      by by apply TravelFacts.travel_consistent_run.
    split; [done |].
    pose proof (travel_log_counts (TravelScene.effects t')) as Hc.
    unfold TravelScene.consistent in Ht'.
    destruct (TravelScene.pairedLog (TravelScene.effects t'))
      as [[| p | p] |] eqn:Hp; [| | done | done].
    + destruct Ht' as (_ & ->). split; [cbn; lia |]. split; [lia |].
      intros m x y. by eapply travel_log_flags.
    + destruct Ht' as (_ & -> & _). split; [cbn; lia |]. split; [lia |].
      intros m x y. by eapply travel_log_flags.
Qed.

Lemma town_isPassable_false (s : IshetarScene2.Scene) gx gy :
  IshetarScene2.isPassable s gx gy = false <->
  IshetarScene2.outOfBounds s gx gy = true \/
  terrainAt (IshetarScene2.terrain s) gx gy = Some 2 \/
  IshetarScene2.npcAt s gx gy = true.
Proof.
  unfold IshetarScene2.isPassable, IshetarScene2.outOfBounds,
    IshetarScene2.terrainImpassable.
  destruct (gx <? 0), (IshetarScene2.mapGridWidth s <=? gx),
    (gy <? 0), (IshetarScene2.mapGridHeight s <=? gy); cbn;
    try (by intuition).
  destruct (terrainAt (IshetarScene2.terrain s) gx gy) as [v |].
  - destruct (Z.eqb_spec v 2) as [-> | Hv]; [by intuition |].
    destruct (IshetarScene2.npcAt s gx gy); [by intuition |].
    split; [done |]. intros [? | [? | ?]]; [done | | done]. congruence.
  - destruct (IshetarScene2.npcAt s gx gy); [by intuition |].
    split; [done |]. by intros [? | [? | ?]].
Qed.

Lemma travel_isPassable_false (t : TravelScene.Scene) gx gy :
  TravelScene.isPassable t gx gy = false <->
  gx < 0 \/ TravelScene.mapGridWidth t <= gx \/
  gy < 0 \/ TravelScene.mapGridHeight t <= gy \/
  jsIndex2 (TravelScene.terrain t) gx gy = Some 2.
Proof.
  unfold TravelScene.isPassable.
  destruct (Z.ltb_spec gx 0); [cbn; by intuition |].
  destruct (Z.leb_spec (TravelScene.mapGridWidth t) gx); [cbn; by intuition |].
  destruct (Z.ltb_spec gy 0); [cbn; by intuition |].
  destruct (Z.leb_spec (TravelScene.mapGridHeight t) gy);
    [cbn; by intuition |].
  cbn. destruct (jsIndex2 (TravelScene.terrain t) gx gy) as [v |].
  - destruct (Z.eqb_spec v 2) as [-> | Hv]; [by intuition |].
    split; [done |]. intros [? | [? | [? | [? | ?]]]]; try lia. congruence.
  - split; [done |]. intros [? | [? | [? | [? | ?]]]]; try lia. done.
Qed.

(** C3.  A [movePlayer] call of IshetarScene2 with a unit vector, made
    while neither moving nor in dialogue, rejects the move (position,
    moving flag and tweens as before) exactly when the target tile is out
    of the grid bounds, or its terrain value is 2, or an NPC stands on it;
    otherwise the move is accepted: the position is the target, the moving
    flag is set and one tween is added.  In particular a tile of terrain
    value 1 inside the bounds and free of NPCs is accepted.  TravelScene's
    [isPassable] is false exactly of the tiles outside its bounds and of
    those of terrain value 2, so it holds of every tile of terrain value 1
    inside the bounds; TravelScene's [movePlayer], called under the same
    conditions, rejects the move exactly when [isPassable] is false of the
    target or the location found at the target is a blocked one, and
    accepts it otherwise. *)
Theorem C3_move_rejected_exactly_when_blocked
    (s : IshetarScene2.Scene) (dx dy : Z)
    (t : TravelScene.Scene) (gx gy : Z) :
  unitVector dx dy ->
  IshetarScene2.isMoving s = false ->
  IshetarScene2.isInDialogue s = false ->
  let tx := IshetarScene2.playerGridX s + dx in
  let ty := IshetarScene2.playerGridY s + dy in
  let s' := IshetarScene2.movePlayer dx dy s in
  let rejected :=
    IshetarScene2.playerGridX s' = IshetarScene2.playerGridX s /\
    IshetarScene2.playerGridY s' = IshetarScene2.playerGridY s /\
    IshetarScene2.isMoving s' = false /\
    IshetarScene2.tweens s' = IshetarScene2.tweens s /\
    IshetarScene2.effects s' = IshetarScene2.effects s in
  let accepted :=
    IshetarScene2.playerGridX s' = tx /\
    IshetarScene2.playerGridY s' = ty /\
    IshetarScene2.isMoving s' = true /\
    IshetarScene2.tweens s' = IshetarScene2.tweens s ++ [(tx, ty)] in
  let ux := TravelScene.playerGridX t + dx in
  let uy := TravelScene.playerGridY t + dy in
  let t' := TravelScene.movePlayer dx dy t in
  let travelRejected :=
    TravelScene.playerGridX t' = TravelScene.playerGridX t /\
    TravelScene.playerGridY t' = TravelScene.playerGridY t /\
    TravelScene.isMoving t' = false /\
    TravelScene.tweens t' = TravelScene.tweens t in
  let travelAccepted :=
    TravelScene.playerGridX t' = ux /\
    TravelScene.playerGridY t' = uy /\
    TravelScene.isMoving t' = true /\
    TravelScene.tweens t' = TravelScene.tweens t ++ [(ux, uy)] in
  (rejected <->
   IshetarScene2.outOfBounds s tx ty = true \/
   terrainAt (IshetarScene2.terrain s) tx ty = Some 2 \/
   IshetarScene2.npcAt s tx ty = true) /\
  (rejected \/ accepted) /\
  (IshetarScene2.outOfBounds s tx ty = false ->
   terrainAt (IshetarScene2.terrain s) tx ty = Some 1 ->
   IshetarScene2.npcAt s tx ty = false -> accepted) /\
  (0 <= gx < TravelScene.mapGridWidth t ->
   0 <= gy < TravelScene.mapGridHeight t ->
   jsIndex2 (TravelScene.terrain t) gx gy = Some 1 ->
   TravelScene.isPassable t gx gy = true) /\
  (TravelScene.isPassable t gx gy = false <->
   gx < 0 \/ TravelScene.mapGridWidth t <= gx \/
   gy < 0 \/ TravelScene.mapGridHeight t <= gy \/
   jsIndex2 (TravelScene.terrain t) gx gy = Some 2) /\
  (TravelScene.isMoving t = false -> TravelScene.isInDialogue t = false ->
   (travelRejected <->
    (ux < 0 \/ TravelScene.mapGridWidth t <= ux \/
     uy < 0 \/ TravelScene.mapGridHeight t <= uy \/
     jsIndex2 (TravelScene.terrain t) ux uy = Some 2) \/
    exists l, TravelScene.blockedLocationAt t ux uy = Some l) /\
   (travelRejected \/ travelAccepted)).
Proof.
  intros Hu Hm Hd tx ty s' rejected accepted ux uy t'
    travelRejected travelAccepted.
  assert (Hrej : IshetarScene2.isPassable s tx ty = false -> rejected).
  { intros Hp. subst rejected s'.
    rewrite Ishetar2Facts.movePlayer_rejected by done.
    revert Hm. destruct s. cbn. by intros ->. }
  assert (Hacc : IshetarScene2.isPassable s tx ty = true -> accepted).
  { intros Hp. subst accepted s'.
    rewrite Ishetar2Facts.movePlayer_accepted by done.
    by destruct s. }
  assert (Hexcl : rejected -> accepted -> False).
  { intros (Hx & Hy & _) (Hx' & Hy' & _). subst tx ty.
    destruct Hu as [[-> ->] | [[-> ->] | [[-> ->] | [-> ->]]]]; lia. }
  split; [| split; [| split; [| split; [| split]]]].
  - rewrite <- town_isPassable_false. split.
    + intros Hr. destruct (IshetarScene2.isPassable s tx ty) eqn:Hp;
        [| done]. exfalso. by apply Hexcl; [| apply Hacc].
    + done.
  - destruct (IshetarScene2.isPassable s tx ty); [right | left]; auto.
  - intros Hb Ht Hn. apply Hacc.
    destruct (IshetarScene2.isPassable s tx ty) eqn:Hp; [done |].
    apply town_isPassable_false in Hp as [? | [? | ?]]; congruence.
  - intros [Hx0 Hx1] [Hy0 Hy1] Ht.
    destruct (TravelScene.isPassable t gx gy) eqn:Hp; [done |].
    apply travel_isPassable_false in Hp as [? | [? | [? | [? | ?]]]];
      try lia. congruence.
  - apply travel_isPassable_false.
  - intros Htm Htd. rewrite <- travel_isPassable_false.
    assert (Htexcl : travelRejected -> travelAccepted -> False).
    { intros (Hx & Hy & _) (Hx' & Hy' & _). subst ux uy.
      destruct Hu as [[-> ->] | [[-> ->] | [[-> ->] | [-> ->]]]]; lia. }
    assert (Hcases :
      (travelRejected /\
       (TravelScene.isPassable t ux uy = false \/
        exists l, TravelScene.blockedLocationAt t ux uy = Some l)) \/
      (travelAccepted /\ TravelScene.isPassable t ux uy = true /\
       TravelScene.blockedLocationAt t ux uy = None)).
    { subst travelRejected travelAccepted t'.
      unfold TravelScene.movePlayer. rewrite Htm, Htd. cbn.
      fold ux uy.
      replace (TravelScene.isPassable
                 (TravelScene.setFacing
                    (facingOf dx dy (TravelScene.playerFacing t)) t) ux uy)
        with (TravelScene.isPassable t ux uy) by (by destruct t).
      destruct (TravelScene.isPassable t ux uy) eqn:Hp; cbn.
      2:{ left. split; [| by left]. revert Htm. destruct t. cbn.
          by intros ->. }
      replace (TravelScene.blockedLocationAt
                 (TravelScene.setFacing
                    (facingOf dx dy (TravelScene.playerFacing t)) t) ux uy)
        with (TravelScene.blockedLocationAt t ux uy) by (by destruct t).
      destruct (TravelScene.blockedLocationAt t ux uy) as [l |] eqn:Hb.
      - left. split; [| right; by exists l].
        case_bool_decide; revert Htm; destruct t; cbn; by intros ->.
      - right. split; [| done]. by destruct t. }
    destruct Hcases as [(Hr & Hwhy) | (Ha & Hp & Hb)].
    + split; [| by left]. split; [done |]. done.
    + split; [| by right]. split.
      * intros Hr. exfalso. by apply Htexcl.
      * intros [Hf | (l & Hl)]; congruence.
Qed.
End Claims.

#[local] Existing Instance Sample.unitTypes.
#[local] Existing Instance Sample.slotStore.

Lemma C2_triggers_run_once_after_commit_witness :
  let town' :=
    IshetarScene2.run
      [IshetarScene2.Frame Sample.pressUp; IshetarScene2.TweenComplete;
       IshetarScene2.Frame Sample.pressUp]
      Sample.town in
  let world' :=
    TravelScene.run
      [TravelScene.Frame (Sample.travelKeys false false true false false);
       TravelScene.TweenComplete;
       TravelScene.Frame (Sample.travelKeys false false false false true);
       TravelScene.TweenComplete]
      (Sample.world (10, 18) Sample.afterQuetzi) in
  IshetarScene2.consistent Sample.town /\
  TravelScene.consistent (Sample.world (10, 18) Sample.afterQuetzi) /\
  IshetarScene2.acceptedMoves (IshetarScene2.effects town') = 2%nat /\
  IshetarScene2.acceptedMoves (IshetarScene2.effects town') =
    (IshetarScene2.evaluations (IshetarScene2.effects town') +
     length (IshetarScene2.tweens town'))%nat /\
  TravelScene.consistent world' /\
  TravelScene.acceptedMoves (TravelScene.effects world') = 2%nat /\
  TravelScene.proximityEvaluations (TravelScene.effects world') = 1%nat /\
  TravelScene.ambushes (TravelScene.effects world') = 1%nat /\
  TravelScene.specialEvaluations (TravelScene.effects world') =
    (TravelScene.proximityEvaluations (TravelScene.effects world') +
     TravelScene.ambushes (TravelScene.effects world'))%nat.
Proof.
  intros town' world'.
  assert (Hs : IshetarScene2.consistent Sample.town)
    by (split; reflexivity).
  assert (Ht : TravelScene.consistent
                 (Sample.world (10, 18) Sample.afterQuetzi))
    by (split; reflexivity).
  split; [exact Hs |]. split; [exact Ht |].
  split; [vm_compute; reflexivity |].
  destruct (C2_triggers_run_once_after_commit Sample.town
              [IshetarScene2.Frame Sample.pressUp;
               IshetarScene2.TweenComplete;
               IshetarScene2.Frame Sample.pressUp]
              (Sample.world (10, 18) Sample.afterQuetzi)
              [TravelScene.Frame
                 (Sample.travelKeys false false true false false);
               TravelScene.TweenComplete;
               TravelScene.Frame
                 (Sample.travelKeys false false false false true);
               TravelScene.TweenComplete] Hs Ht)
    as ((_ & Hcount & _) & (Hw & _ & Hsplit & _)).
  split; [exact Hcount |]. split; [exact Hw |].
  do 3 (split; [vm_compute; reflexivity |]).
  exact Hsplit.
Defined.

Lemma C3_move_rejected_exactly_when_blocked_witness :
  let s := IshetarScene2.setPosition 30 18 Sample.town in
  let t := Sample.world (0, 10) ∅ in
  unitVector 1 0 /\
  IshetarScene2.isMoving s = false /\ IshetarScene2.isInDialogue s = false /\
  terrainAt (IshetarScene2.terrain s) 31 18 = Some 2 /\
  IshetarScene2.playerGridX (IshetarScene2.movePlayer 1 0 s) = 30 /\
  TravelScene.isPassable t 24 10 = false /\
  TravelScene.playerGridX (TravelScene.movePlayer 1 0 t) = 1.
Proof.
  intros s t.
  assert (Hu : unitVector 1 0) by (unfold unitVector; lia).
  assert (Hwall : terrainAt (IshetarScene2.terrain s) 31 18 = Some 2)
    by (vm_compute; reflexivity).
  split; [exact Hu |]. do 2 (split; [reflexivity |]). split; [exact Hwall |].
  destruct (C3_move_rejected_exactly_when_blocked s 1 0 t 24 10
              Hu eq_refl eq_refl)
    as (Hiff & _ & _ & _ & Hpass & Hmove).
  split; [exact (proj1 (proj2 Hiff (or_intror (or_introl Hwall)))) |].
  split.
  - apply Hpass. right; left. vm_compute. discriminate.
  - destruct (Hmove eq_refl eq_refl) as (Hrej & [Hr | Ha]).
    + exfalso. apply Hrej in Hr as [Hout | (l & Hl)].
      * vm_compute in Hout.
        destruct Hout as [H | [H | [H | [H | H]]]];
          try (by apply H); discriminate.
      * vm_compute in Hl. discriminate.
    + exact (proj1 Ha).
Defined.
End MovementClaims.

(** ** NarratorScene: the delete prompt *)

Module NarratorFacts.
Import NarratorScene.

Section Facts.
Context `{SM : SaveManager}.

Lemma quiet_frames_keep_prompt (quiet : list Keys) (s : Scene) :
  currentPhase s = delete_confirm ->
  Forall quietInPrompt quiet ->
  fold_left (fun st q => update q st) quiet s = s.
Proof.
  intros Hph Hq. induction Hq as [| q quiet (Hl & Hr & He & Hx) _ IH];
    [done |].
  cbn. unfold update at 2. rewrite Hph. unfold updateDeleteConfirm.
  by rewrite Hl, Hr, He, Hx.
Qed.

(** C10.  Pressing delete or backspace on an occupied slot of the save
    list opens the delete prompt with the selection index 1; the text
    objects are "No" at index 0 and "Yes" at index 1, and "Yes" is the one
    drawn in the highlight colour.  Frames without left, right, confirm or
    escape leave the prompt as it is, and a confirm without left or right
    then calls [SaveManager.delete] on the selected slot. *)
Theorem C10_delete_prompt_starts_on_yes
    (s : Scene) (p : SaveSlotPreview) (kdel : Keys) (quiet : list Keys)
    (k : Keys) :
  currentPhase s = save_select ->
  selectedPreview s = Some p -> isEmpty p = false ->
  opensDeletePrompt kdel ->
  Forall quietInPrompt quiet ->
  leftJustDown k = false -> rightJustDown k = false ->
  enterJustDown k = true ->
  let prompt := update kdel s in
  let waited := fold_left (fun st q => update q st) quiet prompt in
  prompt = showDeleteConfirmation s /\
  currentPhase prompt = delete_confirm /\
  deleteConfirmSelection prompt = 1 /\
  deleteConfirmTexts prompt =
    [ {| text := "No"; color := "#ffffff" |};
      {| text := "Yes"; color := "#ffff00" |} ] /\
  slotToDelete prompt = slot p /\
  effects prompt = effects s /\
  waited = prompt /\
  effects (update k waited) = SaveDelete (slot p) :: effects s /\
  saveStore (update k waited) = SaveManager_delete (slot p) (saveStore s).
Proof.
  intros Hph Hsel He (Hu & Hd & Hen & Hx & Hdel) Hq Hl Hr Hent prompt waited.
  assert (Hprompt : prompt = showDeleteConfirmation s).
  { subst prompt. unfold update. rewrite Hph. unfold updateSaveSelect.
    by rewrite Hu, Hd, Hen, Hdel, Hx. }
  assert (Hshape :
    showDeleteConfirmation s =
      {| currentPhase := delete_confirm;
         menuSelection := menuSelection s;
         saveSlotPreviews := saveSlotPreviews s;
         saveSlotSelection := saveSlotSelection s;
         saveSlotContainerVisible := saveSlotContainerVisible s;
         deleteConfirmTexts :=
           [ {| text := "No"; color := "#ffffff" |};
             {| text := "Yes"; color := "#ffff00" |} ];
         deleteConfirmSelection := 1;
         slotToDelete := slot p; saveStore := saveStore s;
         effects := effects s |}).
  { unfold showDeleteConfirmation. by rewrite Hsel, He. }
  assert (Hwaited : waited = prompt).
  { subst waited. apply quiet_frames_keep_prompt; [| done].
    by rewrite Hprompt, Hshape. }
  rewrite Hwaited, Hprompt, Hshape.
  do 7 (split; [done |]).
  unfold update. cbn. unfold updateDeleteConfirm. rewrite Hl, Hr, Hent.
  unfold confirmDelete. cbn.
  destruct (existsb _ _); destruct (escJustDown k); done.
Qed.
End Facts.

#[local] Existing Instance Sample.unitTypes.
#[local] Existing Instance Sample.slotStore.

Lemma C10_delete_prompt_starts_on_yes_witness :
  let backspace :=
    {| upJustDown := false; downJustDown := false; leftJustDown := false;
       rightJustDown := false; enterJustDown := false;
       deleteJustDown := false; backspaceJustDown := true;
       escJustDown := false |} in
  let s' :=
    update (Sample.narratorKeys true false false)
      (update backspace Sample.slotList) in
  currentPhase Sample.slotList = save_select /\
  selectedPreview Sample.slotList =
    Some (Sample.previewOf Sample.oneSave 1) /\
  effects s' = [SaveDelete 1] /\
  saveStore s' = delete 1 Sample.oneSave.
Proof.
  intros backspace s'.
  assert (Hsel : selectedPreview Sample.slotList =
                 Some (Sample.previewOf Sample.oneSave 1))
    by (vm_compute; reflexivity).
  split; [reflexivity |]. split; [exact Hsel |].
  destruct (C10_delete_prompt_starts_on_yes Sample.slotList
              (Sample.previewOf Sample.oneSave 1) backspace []
              (Sample.narratorKeys true false false)
              eq_refl Hsel eq_refl
              ltac:(repeat split; reflexivity) (Forall_nil_2 _)
              eq_refl eq_refl eq_refl)
    as (_ & _ & _ & _ & _ & _ & _ & Hef & Hst).
  split; [exact Hef | exact Hst].
Defined.
End NarratorFacts.

(** ** IshetarScene2: further properties *)

Module Ishetar2More.
Import IshetarScene2.

Section More.
Context `{SM : SaveManager}.

(** *** Slot labels are parsed back to their slot *)

Lemma append_assoc3 (a b c : string) : (a +:+ b) +:+ c = a +:+ (b +:+ c).
Proof.
  induction a as [| ch a IH]; [reflexivity |].
  change (String ch ((a +:+ b) +:+ c) = String ch (a +:+ (b +:+ c))).
  by rewrite IH.
Qed.

Lemma pretty_N_char_digit (d : N) :
  (d < 10)%N ->
  isDigit (pretty_N_char d) = true /\
  Z.of_nat (nat_of_ascii (pretty_N_char d)) - 48 = Z.of_N d.
Proof.
  intros Hd.
  assert (d = 0 \/ d = 1 \/ d = 2 \/ d = 3 \/ d = 4 \/ d = 5 \/ d = 6 \/
          d = 7 \/ d = 8 \/ d = 9)%N as H by lia.
  repeat (destruct H as [-> | H]; [by vm_compute |]). subst. by vm_compute.
Qed.

Lemma parseDigits_snoc ds c :
  parseDigits (ds ++ [c]) =
    10 * parseDigits ds + (Z.of_nat (nat_of_ascii c) - 48).
Proof. unfold parseDigits. by rewrite fold_left_app. Qed.

Lemma pretty_N_go_app x s :
  pretty_N_go x s = pretty_N_go x EmptyString +:+ s.
Proof.
  revert s. induction (N.lt_wf_0 x) as [x _ IH]; intros s.
  destruct (decide (x = 0)%N) as [-> | Hx]; [done |].
  rewrite !(pretty_N_go_step x) by lia.
  rewrite (IH (x `div` 10)%N) by (apply N.div_lt; lia).
  rewrite (IH (x `div` 10)%N ltac:(apply N.div_lt; lia) (String _ EmptyString)).
  by rewrite append_assoc3.
Qed.

Lemma pretty_N_go_digits x :
  forall s ds rest,
    takeDigits s = (ds, rest) ->
    exists dx,
      takeDigits (pretty_N_go x s) = (dx ++ ds, rest) /\
      parseDigits dx = Z.of_N x /\
      ((0 < x)%N -> dx <> []).
Proof.
  induction (N.lt_wf_0 x) as [x _ IH]; intros s ds rest Hs.
  destruct (decide (x = 0)%N) as [-> | Hx].
  { exists []. split; [done |]. split; [done | lia]. }
  rewrite pretty_N_go_step by lia.
  destruct (pretty_N_char_digit (x `mod` 10)%N) as [Hd Hv];
    [apply N.mod_lt; lia |].
  destruct (IH (x `div` 10)%N ltac:(apply N.div_lt; lia)
              (String (pretty_N_char (x `mod` 10)) s)
              (pretty_N_char (x `mod` 10) :: ds) rest) as (dx & Ht & Hp & _).
  { cbn. by rewrite Hd, Hs. }
  exists (dx ++ [pretty_N_char (x `mod` 10)%N]). split; [| split].
  - by rewrite <- app_assoc.
  - rewrite parseDigits_snoc, Hp, Hv.
    rewrite (N.div_mod x 10) at 3 by lia. lia.
  - intros _. by destruct dx.
Qed.

Lemma takeDigits_pretty (n : Z) (tail : string) :
  0 <= n ->
  exists ds,
    takeDigits (pretty n +:+ String ":" tail) = (ds, String ":" tail) /\
    ds <> [] /\ parseDigits ds = n.
Proof.
  intros Hn. destruct n as [| p | p]; [| | lia].
  - exists ["0"%char]. by vm_compute.
  - change (pretty (Z.pos p)) with (pretty (N.pos p)).
    unfold pretty, pretty_N. rewrite decide_False by done.
    rewrite <- pretty_N_go_app.
    destruct (pretty_N_go_digits (N.pos p) (String ":" tail) []
                (String ":" tail)) as (dx & Ht & Hp & Hne); [done |].
    exists dx. rewrite app_nil_r in Ht. split; [done |].
    split; [apply Hne; lia | by rewrite Hp].
Qed.

Lemma matchSlot_label (n : Z) (tail : string) :
  matchSlot ("Slot " +:+ pretty n +:+ String ":" tail) =
    if 0 <=? n then Some n else None.
Proof.
  destruct (Z.leb_spec 0 n) as [Hn | Hn].
  - destruct (takeDigits_pretty n tail Hn) as (ds & Ht & Hne & Hp).
    unfold matchSlot.
    change (stripPrefix "Slot " ("Slot " +:+ pretty n +:+ String ":" tail))
      with (Some (pretty n +:+ String ":" tail)).
    cbv beta iota. rewrite Ht. destruct ds; [done |]. by rewrite Hp.
  - destruct n as [| p | p]; [lia | lia |]. done.
Qed.

Lemma slotLabel_matchSlot (p : SaveSlotPreview) :
  matchSlot (slotLabel p) = if 0 <=? slot p then Some (slot p) else None.
Proof.
  unfold slotLabel. destruct (isEmpty p); apply matchSlot_label.
Qed.

(** X1.  The label that [showSaveSlotSelection] builds for a preview is
    parsed back by the selection callback to that preview's slot number,
    for empty and for occupied slots alike, when the number is a
    non-negative integer below 2^53; the label of a negative slot number
    does not match, and the callback then returns without acting. *)
Theorem X1_slot_label_parses_back_to_slot (p : SaveSlotPreview) :
  (0 <= slot p < 9007199254740992 ->
   matchSlot (slotLabel p) = Some (slot p)) /\
  (slot p < 0 -> matchSlot (slotLabel p) = None).
Proof.
  rewrite slotLabel_matchSlot. split; intros H.
  - by destruct (Z.leb_spec 0 (slot p)); [| lia].
  - by destruct (Z.leb_spec 0 (slot p)); [lia |].
Qed.

(** *** Picking an entry of the save-slot menu *)

Lemma saveMenu_selected_slot s (i : nat) p :
  saveMenuOpen s -> choiceMenuSelectedIndex s = Z.of_nat i ->
  saveSlotPreviews s !! i = Some p ->
  selectedOption s = Some (slotLabel p).
Proof.
  intros (_ & _ & Ho) Hi Hp. unfold selectedOption, jsIndex.
  rewrite Hi, Ho, Nat2Z.id.
  destruct (Z.ltb_spec (Z.of_nat i) 0); [lia |].
  rewrite lookup_app_l by (rewrite length_map; by eapply lookup_lt_Some).
  by rewrite list_lookup_fmap, Hp.
Qed.

Lemma saveMenu_selected_cancel s :
  saveMenuOpen s ->
  choiceMenuSelectedIndex s = Z.of_nat (length (saveSlotPreviews s)) ->
  selectedOption s = Some "Cancel".
Proof.
  intros (_ & _ & Ho) Hi. unfold selectedOption, jsIndex.
  rewrite Hi, Ho, Nat2Z.id.
  destruct (Z.ltb_spec (Z.of_nat (length (saveSlotPreviews s))) 0); [lia |].
  rewrite lookup_app_r by (by rewrite length_map).
  by rewrite length_map, Nat.sub_diag.
Qed.

Lemma saveMenu_confirm s k :
  saveMenuOpen s -> menuConfirm k ->
  update k s =
    runChoiceCallback (now k) SaveSlotChoice (selectedOption s)
      (hideChoiceMenu s).
Proof.
  intros (Hv & Hc & _) Hk.
  rewrite Ishetar2Facts.update_menuConfirm by done.
  unfold selectChoiceMenuOption.
  by replace (choiceMenuCallback (hideChoiceMenu s))
    with (Some SaveSlotChoice) by (rewrite <- Hc; by destruct s).
Qed.

(** X2.  In the save-slot menu, confirming the entry of an empty slot whose
    number is a non-negative integer below 2^53 (and is the first preview
    with that number) calls
    [SaveManager.save] for that slot at once, with no confirmation in
    between; confirming the last entry, Cancel, or the entry of a preview
    with a negative slot number only hides the menu: the log, the store and
    the play time stay as they were. *)
Theorem X2_save_menu_entries
    (s : Scene) (k : Keys) (i : nat) (p : SaveSlotPreview) :
  saveMenuOpen s -> menuConfirm k ->
  saveSlotPreviews s !! i = Some p ->
  (choiceMenuSelectedIndex s = Z.of_nat i ->
   0 <= slot p < 9007199254740992 ->
   List.find (fun q => slot q =? slot p) (saveSlotPreviews s) = Some p ->
   isEmpty p = true ->
   update k s =
     saveGame (now k) (slot p)
       (setSelectedSaveSlot (slot p) (hideChoiceMenu s)) /\
   exists d ok,
     effects (update k s) = SaveCall d ok :: effects s /\
     sd_slot d = slot p) /\
  (choiceMenuSelectedIndex s = Z.of_nat i -> slot p < 0 ->
   update k s = hideChoiceMenu s) /\
  (choiceMenuSelectedIndex s = Z.of_nat (length (saveSlotPreviews s)) ->
   update k s = hideChoiceMenu s) /\
  effects (hideChoiceMenu s) = effects s /\
  saveStore (hideChoiceMenu s) = saveStore s /\
  playTime (hideChoiceMenu s) = playTime s /\
  choiceMenuVisible (hideChoiceMenu s) = false /\
  isInDialogue (hideChoiceMenu s) = false.
Proof.
  intros Hopen Hk Hp.
  split; [| split; [| split; [| by destruct s]]].
  - intros Hi Hslot Hfind He.
    assert (Hupd : update k s =
                   saveGame (now k) (slot p)
                     (setSelectedSaveSlot (slot p) (hideChoiceMenu s))).
    { rewrite saveMenu_confirm by done.
      rewrite (saveMenu_selected_slot s i p) by done.
      pose proof (slotLabel_matchSlot p) as Hm.
      destruct (Z.leb_spec 0 (slot p)); [| lia].
      unfold runChoiceCallback.
      rewrite (Ishetar2Facts.matchSlot_not_cancel _ _ Hm), Hm.
      replace (findPreview (setSelectedSaveSlot (slot p) (hideChoiceMenu s)))
        with (Some p) by (rewrite <- Hfind; by destruct s).
      rewrite He. cbn. by destruct s. }
    split; [done |]. rewrite Hupd. clear. destruct s. unfold saveGame. cbn.
    match goal with
    | |- context [SaveManager_save ?d ?st] =>
        destruct (SaveManager_save d st) as [ok st']
    end.
    destruct ok; cbn; eauto.
  - intros Hi Hslot.
    rewrite saveMenu_confirm by done.
    rewrite (saveMenu_selected_slot s i p) by done.
    pose proof (slotLabel_matchSlot p) as Hm.
    destruct (Z.leb_spec 0 (slot p)); [lia |].
    unfold runChoiceCallback. rewrite Hm.
    by destruct (String.eqb _ _).
  - intros Hi. rewrite saveMenu_confirm by done.
    by rewrite saveMenu_selected_cancel.
Qed.

(** *** What a save records *)

Lemma saveGame_log t n s :
  exists ok,
    effects (saveGame t n s) =
      SaveCall
        {| sd_slot := n; sd_mainHero := heroId s;
           sd_currentMap := "ishetar_town_post_battle";
           sd_playerPosition := (playerGridX s, playerGridY s);
           sd_playTime :=
             Some (playTime s + (t - sessionStartTime s) / 1000);
           sd_heroState := Some (heroState s);
           sd_flags :=
             Some (<["south_gate_battle_complete" := true]> (gameFlags s));
           sd_timestamp := t; sd_inventory := Some (inventory s);
           sd_chests := Some (chestStates s) |} ok :: effects s /\
    gameFlags (saveGame t n s) = gameFlags s /\
    (playTime (saveGame t n s), sessionStartTime (saveGame t n s)) =
      (if ok then (playTime s + (t - sessionStartTime s) / 1000, t)
       else (playTime s, sessionStartTime s)).
Proof.
  destruct s. unfold saveGame. cbn.
  match goal with
  | |- context [SaveManager_save ?d ?st] =>
      destruct (SaveManager_save d st) as [ok st']
  end.
  exists ok. destruct ok; cbn; done.
Qed.

(** X3.  [saveGame] submits the play time so far plus the whole seconds of
    the running session, and the game flags with
    [south_gate_battle_complete] set, while the scene's own flags stay as
    they are.  Only a successful save moves the accumulated time and the
    session start; a failed one leaves both.  Hence a second save never
    counts a second of play twice: it submits at most the time a single
    save at that moment would have submitted. *)
Theorem X3_save_accounts_play_time (s : Scene) (t1 n1 t2 n2 : Z) :
  let s1 := saveGame t1 n1 s in
  let s2 := saveGame t2 n2 s1 in
  let whole := playTime s + (t2 - sessionStartTime s) / 1000 in
  exists d1 ok1 d2 ok2 p2,
    effects s1 = SaveCall d1 ok1 :: effects s /\
    effects s2 = SaveCall d2 ok2 :: effects s1 /\
    sd_playTime d1 = Some (playTime s + (t1 - sessionStartTime s) / 1000) /\
    sd_flags d1 =
      Some (<["south_gate_battle_complete" := true]> (gameFlags s)) /\
    gameFlags s1 = gameFlags s /\
    (playTime s1, sessionStartTime s1) =
      (if ok1 then (playTime s + (t1 - sessionStartTime s) / 1000, t1)
       else (playTime s, sessionStartTime s)) /\
    sd_playTime d2 = Some p2 /\ p2 <= whole.
Proof.
  intros s1 s2 whole.
  destruct (saveGame_log t1 n1 s) as (ok1 & Hl1 & Hf1 & Ht1).
  destruct (saveGame_log t2 n2 s1) as (ok2 & Hl2 & _ & _).
  fold s1 in Hl1, Hf1, Ht1. fold s2 in Hl2.
  eexists _, ok1, _, ok2, _.
  split; [exact Hl1 |]. split; [exact Hl2 |].
  repeat (split; [done |]).
  subst whole. destruct ok1; injection Ht1 as -> ->; [| lia].
  pose proof (Z.div_mod (t1 - sessionStartTime s) 1000 ltac:(lia)).
  pose proof (Z.mod_pos_bound (t1 - sessionStartTime s) 1000 ltac:(lia)).
  pose proof (Z.div_mod (t2 - t1) 1000 ltac:(lia)).
  pose proof (Z.mod_pos_bound (t2 - t1) 1000 ltac:(lia)).
  pose proof (Z.div_mod (t2 - sessionStartTime s) 1000 ltac:(lia)).
  pose proof (Z.mod_pos_bound (t2 - sessionStartTime s) 1000 ltac:(lia)).
  lia.
Qed.

(** *** Walking into an NPC and talking *)

Lemma startNPCDialogue_inDialogue npc s :
  isInDialogue (startNPCDialogue npc s) = true.
Proof.
  destruct s. unfold startNPCDialogue, handleShrineInteraction.
  by repeat case_match.
Qed.

Lemma facingOffsets_facingOf dx dy old :
  unitVector dx dy -> facingOffsets (facingOf dx dy old) = (dx, dy).
Proof. by intros [[-> ->] | [[-> ->] | [[-> ->] | [-> ->]]]]. Qed.

(** X6.  A move into the tile of an NPC is rejected but turns the player
    towards that NPC, so the confirm key in a later frame starts the
    dialogue of the first NPC on that tile, with nothing moved. *)
Theorem X6_bumping_into_npc_then_talking
    (s : Scene) (dx dy : Z) (k : Keys) :
  unitVector dx dy -> isMoving s = false -> isInDialogue s = false ->
  choiceMenuVisible s = false -> hasOverlay s = false ->
  npcAt s (playerGridX s + dx) (playerGridY s + dy) = true ->
  dialogueConfirm k ->
  let s1 := movePlayer dx dy s in
  (playerGridX s1, playerGridY s1) = (playerGridX s, playerGridY s) /\
  isMoving s1 = false /\ effects s1 = effects s /\
  exists npc,
    In npc (npcs s) /\
    npcTile npc = (playerGridX s + dx, playerGridY s + dy) /\
    update k s1 = startNPCDialogue npc s1 /\
    isInDialogue (update k s1) = true /\
    (playerGridX (update k s1), playerGridY (update k s1)) =
      (playerGridX s, playerGridY s).
Proof.
  intros Hu Hm Hd Hcv Hov Hnpc (Hw & Hesc & Hent) s1.
  assert (Hp : isPassable s (playerGridX s + dx) (playerGridY s + dy) = false).
  { unfold isPassable. rewrite Hnpc. by repeat case_match. }
  assert (Hs1 : s1 = setFacing (facingOf dx dy (playerFacing s)) s)
    by (by apply Ishetar2Facts.movePlayer_rejected).
  unfold npcAt in Hnpc.
  destruct (List.find
              (fun n => (gridX n =? playerGridX s + dx) &&
                        (gridY n =? playerGridY s + dy)) (npcs s))
    as [npc |] eqn:Hfind.
  2:{ apply existsb_exists in Hnpc as (n & Hin & Hn).
      by rewrite (find_none _ _ Hfind n Hin) in Hn. }
  destruct (find_some _ _ Hfind) as (Hin & Hn).
  apply andb_true_iff in Hn as (Hx%Z.eqb_eq & Hy%Z.eqb_eq).
  assert (Htry : tryInteract s1 = startNPCDialogue npc s1).
  { unfold tryInteract.
    replace (isInDialogue s1) with false by (rewrite Hs1, <- Hd; by destruct s).
    replace (playerFacing s1) with (facingOf dx dy (playerFacing s))
      by (rewrite Hs1; by destruct s).
    rewrite facingOffsets_facingOf by done. cbn [fst snd].
    replace (playerGridX s1) with (playerGridX s) by (rewrite Hs1; by destruct s).
    replace (playerGridY s1) with (playerGridY s) by (rewrite Hs1; by destruct s).
    replace (npcs s1) with (npcs s) by (rewrite Hs1; by destruct s).
    by rewrite Hfind. }
  assert (Hupd : update k s1 = startNPCDialogue npc s1).
  { unfold update.
    replace (hasOverlay s1) with false by (rewrite Hs1, <- Hov; by destruct s).
    replace (choiceMenuVisible s1) with false
      by (rewrite Hs1, <- Hcv; by destruct s).
    rewrite Hesc, Hent. cbn. rewrite Htry.
    by rewrite startNPCDialogue_inDialogue. }
  assert (Hpos : (playerGridX s1, playerGridY s1) =
                 (playerGridX s, playerGridY s))
    by (rewrite Hs1; by destruct s).
  split; [done |].
  split; [rewrite Hs1, <- Hm; by destruct s |].
  split; [rewrite Hs1; by destruct s |].
  exists npc. split; [done |]. split; [unfold npcTile; by rewrite Hx, Hy |].
  split; [done |]. rewrite Hupd.
  split; [apply startNPCDialogue_inDialogue |].
  rewrite <- Hpos.
  pose proof (Ishetar2Facts.motion_startNPCDialogue npc s1) as Hmo.
  unfold motion in Hmo. congruence.
Qed.

(** *** The NPCs of the town *)

(** X7.  [placeNPCs] always puts fifteen NPCs on the same fifteen tiles,
    no two on one tile: the eleven townspeople and four party members on
    the four party tiles.  The party members are heroes other than the
    player's, and when the player's hero is one of the five, each of the
    other four is there. *)
Theorem X7_npcs_stand_on_fixed_distinct_tiles
    (textureExists : string -> bool) (hero : string) :
  map npcTile (placeNPCs textureExists hero) =
    map (fun d => let '(_, _, x, y, _) := d in (x, y)) npcData ++
    heroPositions /\
  NoDup (map npcTile (placeNPCs textureExists hero)) /\
  length (placeNPCs textureExists hero) = 15%nat /\
  (forall n,
     In n (drop (length npcData) (placeNPCs textureExists hero)) ->
     npcId n <> hero /\ In (npcId n) allHeroes) /\
  (In hero allHeroes ->
   forall h, In h allHeroes -> h <> hero ->
   In h (map npcId (placeNPCs textureExists hero))).
Proof.
  assert (Hnd : NoDup
            (map (fun d : string * string * Z * Z * list string =>
                    let '(_, _, x, y, _) := d in (x, y)) npcData ++
             heroPositions))
    by (apply (bool_decide_unpack _); by vm_compute).
  unfold placeNPCs, allHeroes. cbn [List.filter].
  destruct (String.eqb_spec "vicas" hero) as [<- | H1];
    [| destruct (String.eqb_spec "azrael" hero) as [<- | H2];
       [| destruct (String.eqb_spec "lyra" hero) as [<- | H3];
          [| destruct (String.eqb_spec "thump" hero) as [<- | H4];
             [| destruct (String.eqb_spec "rooker" hero) as [<- | H5]]]]];
    cbn -[npcData heroPositions] in *;
    (split; [reflexivity |]);
    (split; [exact Hnd |]);
    (split; [reflexivity |]);
    (split;
     [ intros n Hn; cbn in Hn;
       destruct Hn as [<- | [<- | [<- | [<- | []]]]]; cbn;
       (split; [first [done | congruence] | tauto])
     | intros Hh h Hin Hne; cbn in Hin |- *;
       destruct Hin as [<- | [<- | [<- | [<- | [<- | []]]]]];
       first [done | tauto | (cbn in Hh; exfalso; intuition congruence)] ]).
Qed.

(** *** The terrain set up by [create] *)

Lemma jsAssign_lookup_other {A : Type} i j (v : A) a :
  j <> i -> mjoin (jsAssign i v a !! j) = mjoin (a !! j).
Proof.
  intros Hne. destruct (decide (j < length a)%nat) as [Hj | Hj].
  - by rewrite Ishetar2Facts.jsAssign_lookup_below.
  - rewrite (lookup_ge_None_2 a j) by lia. unfold jsAssign.
    case_decide as Hi.
    + rewrite list_lookup_insert_ne by done.
      by rewrite lookup_ge_None_2 by lia.
    + rewrite lookup_app_r by lia.
      destruct (decide (j < i)%nat) as [Hlt | Hge].
      * rewrite lookup_app_l by (rewrite length_replicate; lia).
        rewrite lookup_replicate_2 by lia. done.
      * rewrite lookup_app_r by (rewrite length_replicate; lia).
        rewrite length_replicate.
        rewrite lookup_ge_None_2; [done |]. cbn. lia.
Qed.

Lemma opened_row_lookup (r : list (option Z)) (j : nat) :
  mjoin (jsAssign 14 0 (jsAssign 13 0 r) !! j) =
    if decide (j = 13%nat \/ j = 14%nat) then Some 0 else mjoin (r !! j).
Proof.
  destruct (decide (j = 14%nat)) as [-> | H14].
  { rewrite Ishetar2Facts.jsAssign_lookup_eq. by rewrite decide_True by lia. }
  rewrite jsAssign_lookup_other by done.
  destruct (decide (j = 13%nat)) as [-> | H13].
  { rewrite Ishetar2Facts.jsAssign_lookup_eq. by rewrite decide_True by lia. }
  rewrite jsAssign_lookup_other by done. by rewrite decide_False by lia.
Qed.

Lemma openNorthGate_rows (t : Terrain) :
  openNorthGate t =
    match t !! 1%nat, t !! 2%nat with
    | Some row1, Some row2 =>
        Some (<[2%nat := jsAssign 14 0 (jsAssign 13 0 row2)]>
                (<[1%nat := jsAssign 14 0 (jsAssign 13 0 row1)]> t))
    | _, _ => None
    end.
Proof.
  unfold openNorthGate, Terrain in *.
  destruct (t !! 1%nat) as [row1 |] eqn:H1; cbn; [| done].
  rewrite list_lookup_insert_ne by done.
  by destruct (t !! 2%nat).
Qed.

Lemma copyTerrain_row (t : list (list Z)) (i : nat) :
  copyTerrain t !! i = map Some <$> t !! i.
Proof. unfold copyTerrain. apply list_lookup_fmap. Qed.

Lemma copied_row_lookup (row : list Z) (j : nat) :
  mjoin (map Some row !! j) = row !! j.
Proof.
  change (map Some row) with (Some <$> row).
  rewrite list_lookup_fmap. by destruct (row !! j).
Qed.

Lemma opened_terrain (t : list (list Z)) tr x y :
  openNorthGate (copyTerrain t) = Some tr ->
  terrainAt tr x y =
    if ((x =? 13) || (x =? 14)) && ((y =? 1) || (y =? 2)) then Some 0
    else jsIndex2 t x y.
Proof.
  rewrite openNorthGate_rows, !copyTerrain_row. unfold Terrain in *.
  destruct (t !! 1%nat) as [r1 |] eqn:H1; [| done].
  destruct (t !! 2%nat) as [r2 |] eqn:H2; [| done]. cbn.
  intros [= <-]. unfold terrainAt, jsIndex2, jsIndex.
  assert (Hl1 : (1 < length (copyTerrain t))%nat).
  { unfold copyTerrain. rewrite length_map. by eapply lookup_lt_Some. }
  assert (Hl2 : (2 < length (copyTerrain t))%nat).
  { unfold copyTerrain. rewrite length_map. by eapply lookup_lt_Some. }
  destruct (Z.ltb_spec y 0) as [Hy | Hy].
  { replace ((y =? 1) || (y =? 2)) with false by lia.
    by rewrite andb_false_r. }
  destruct (decide (Z.to_nat y = 2%nat)) as [E2 | N2].
  { rewrite E2. rewrite list_lookup_insert_eq
      by (by rewrite length_insert).
    replace (y =? 2) with true by lia. rewrite orb_true_r, andb_true_r, H2.
    destruct (Z.ltb_spec x 0) as [Hx | Hx].
    { by replace ((x =? 13) || (x =? 14)) with false by lia. }
    rewrite opened_row_lookup, copied_row_lookup.
    case_decide as Hc.
    - by replace ((x =? 13) || (x =? 14)) with true by lia.
    - by replace ((x =? 13) || (x =? 14)) with false by lia. }
  rewrite list_lookup_insert_ne by done.
  destruct (decide (Z.to_nat y = 1%nat)) as [E1 | N1].
  { rewrite E1. rewrite list_lookup_insert_eq by done.
    replace (y =? 1) with true by lia. rewrite orb_true_l, andb_true_r, H1.
    destruct (Z.ltb_spec x 0) as [Hx | Hx].
    { by replace ((x =? 13) || (x =? 14)) with false by lia. }
    rewrite opened_row_lookup, copied_row_lookup.
    case_decide as Hc.
    - by replace ((x =? 13) || (x =? 14)) with true by lia.
    - by replace ((x =? 13) || (x =? 14)) with false by lia. }
  rewrite list_lookup_insert_ne by done.
  replace ((y =? 1) || (y =? 2)) with false by lia. rewrite andb_false_r.
  rewrite copyTerrain_row.
  destruct (t !! Z.to_nat y) as [row |]; cbn; [| done].
  destruct (Z.ltb_spec x 0); [done |]. apply copied_row_lookup.
Qed.

Lemma openedTiles_spec x y :
  (x, y) ∈ openedTiles <->
  ((x =? 13) || (x =? 14)) && ((y =? 1) || (y =? 2)) = true.
Proof.
  unfold openedTiles. rewrite !elem_of_cons, elem_of_nil.
  split.
  - intros [H | [H | [H | [H | []]]]]; by simplify_eq.
  - intros H. apply andb_true_iff in H as (Hx & Hy).
    apply orb_true_iff in Hx as [Hx%Z.eqb_eq | Hx%Z.eqb_eq];
      apply orb_true_iff in Hy as [Hy%Z.eqb_eq | Hy%Z.eqb_eq];
      subst; tauto.
Qed.

(** X8.  [create] with the map data at hand fails exactly when the map has
    fewer than three rows (the gate assignments then hit a missing row).
    Otherwise the scene's terrain reads 0 on the four gate tiles (13, 1),
    (14, 1), (13, 2), (14, 2) and on every other tile what the map data
    holds there; the map data itself is copied, not changed, and the grid
    size is the map's. *)
Theorem X8_create_copies_terrain_and_opens_gate
    (data : CreateData) (m : MapData) (t : Z)
    (textureExists : string -> bool) (prev : Scene) :
  (create data (Some m) t textureExists prev = None <->
   (length (md_terrain m) < 3)%nat) /\
  forall s0,
    create data (Some m) t textureExists prev = Some s0 ->
    (mapGridWidth s0, mapGridHeight s0) = (md_gridWidth m, md_gridHeight m) /\
    forall x y,
      ((x, y) ∈ openedTiles -> terrainAt (terrain s0) x y = Some 0) /\
      ((x, y) ∉ openedTiles ->
       terrainAt (terrain s0) x y = jsIndex2 (md_terrain m) x y).
Proof.
  split.
  - unfold create. rewrite openNorthGate_rows, !copyTerrain_row.
    destruct (md_terrain m !! 1%nat) as [r1 |] eqn:H1;
      destruct (md_terrain m !! 2%nat) as [r2 |] eqn:H2; cbn.
    + apply lookup_lt_Some in H2. split; [done | lia].
    + apply lookup_ge_None in H2. split; [lia | done].
    + apply lookup_ge_None in H1. split; [lia | done].
    + apply lookup_ge_None in H1. split; [lia | done].
  - intros s0 Hc. unfold create in Hc.
    destruct (openNorthGate (copyTerrain (md_terrain m))) as [tr |] eqn:Ht;
      [| done].
    cbn -[placeNPCs] in Hc. injection Hc as <-. cbn [mapGridWidth mapGridHeight terrain].
    split; [done |]. intros x y. rewrite (opened_terrain _ _ x y Ht).
    pose proof (openedTiles_spec x y) as Hspec.
    destruct (((x =? 13) || (x =? 14)) && ((y =? 1) || (y =? 2))).
    + split; [done |]. intros Hn. destruct Hn. by apply Hspec.
    + split; [| done]. intros Hin. apply Hspec in Hin. done.
Qed.

(** *** Staying inside the grid *)

Lemma inGrid_motion s s' : motion s = motion s' -> inGrid s -> inGrid s'.
Proof.
  unfold motion, inGrid. intros H.
  replace (playerGridX s') with (playerGridX s) by congruence.
  replace (playerGridY s') with (playerGridY s) by congruence.
  replace (mapGridWidth s') with (mapGridWidth s) by congruence.
  by replace (mapGridHeight s') with (mapGridHeight s) by congruence.
Qed.

Lemma inGrid_movePlayer dx dy s : inGrid s -> inGrid (movePlayer dx dy s).
Proof.
  intros H.
  destruct (Ishetar2Facts.movePlayer_cases dx dy s)
    as [-> | [-> | (_ & _ & Hp & ->)]]; [done | by destruct s |].
  unfold isPassable in Hp.
  destruct (Z.ltb_spec (playerGridX s + dx) 0); [done |].
  destruct (Z.leb_spec (mapGridWidth s) (playerGridX s + dx)); [done |].
  destruct (Z.ltb_spec (playerGridY s + dy) 0); [done |].
  destruct (Z.leb_spec (mapGridHeight s) (playerGridY s + dy)); [done |].
  destruct s. unfold inGrid. cbn in *. lia.
Qed.

(** X9.  A player inside the grid stays inside it, whatever is called:
    [movePlayer] with any vector, frames with any keys, tween completions,
    timers and resumes. *)
Theorem X9_player_stays_inside_grid (acts : list Action) (s : Scene) :
  inGrid s -> inGrid (perform acts s).
Proof.
  unfold perform. revert s.
  induction acts as [| a acts IH]; intros s H; cbn; [done |].
  apply IH. destruct a as [dx dy | e]; cbn.
  - by apply inGrid_movePlayer.
  - apply (Ishetar2Facts.step_preserves inGrid); try done.
    + intros. by eapply inGrid_motion.
    + intros. by apply inGrid_movePlayer.
    + intros s0 p rest _ H0. revert H0.
      unfold inGrid, moveTweenComplete, checkTriggers, goToTravelMap.
      destruct s0. cbn. by case_match.
Qed.

(** *** Every event, case by case *)

Ltac crush :=
  repeat match goal with
         | |- context [match ?x with _ => _ end] => destruct x eqn:?
         | |- context [if ?x then _ else _] => destruct x eqn:?
         end.

Ltac open_handlers :=
  unfold step, update, onResume, runTimer, showLevelUpScreen,
    showHrothgarEndingDialogue, levelUpComplete, moveTweenComplete,
    checkTriggers, goToTravelMap, movePlayer,
    selectChoiceMenuOption, runChoiceCallback, showSaveSlotSelection,
    showOverwriteConfirmation, hideChoiceMenu,
    tryInteract, advanceDialogue, runDialogueCallback, startNPCDialogue,
    handleShrineInteraction, showShrineSaveMenu, launchMenu, showChoiceMenu,
    sceneStartDialogue.

Lemma saveGame_menu t n s :
  choiceMenuVisible (saveGame t n s) = choiceMenuVisible s /\
  choiceMenuOptions (saveGame t n s) = choiceMenuOptions s /\
  choiceMenuSelectedIndex (saveGame t n s) = choiceMenuSelectedIndex s.
Proof.
  destruct s. unfold saveGame. cbn.
  match goal with
  | |- context [SaveManager_save ?d ?st] =>
      destruct (SaveManager_save d st) as [ok st']
  end.
  by destruct ok.
Qed.

Lemma menuInRange_step e s : menuInRange s -> menuInRange (step e s).
Proof.
  destruct s, e; unfold menuInRange; open_handlers;
    cbn -[matchSlot pretty slotLabel saveGame]; intros H.
  all: crush; cbn -[matchSlot pretty slotLabel saveGame]; try done; try lia.
  all: try (intros _; rewrite length_app; cbn; lia).
  all: by rewrite (proj1 (saveGame_menu _ _ _)).
Qed.

Lemma menuInRange_movePlayer dx dy s :
  menuInRange s -> menuInRange (movePlayer dx dy s).
Proof.
  destruct s; unfold menuInRange, movePlayer; cbn; intros H.
  crush; by cbn.
Qed.

(** X10.  Once the highlighted index of the choice menu is inside the
    option list while the menu is on screen (as it is after [create], which
    hides the menu), it stays so under every call of [movePlayer] and every
    engine event; so whenever the menu is on screen the option handed to
    the menu's callback is a defined one. *)
Theorem X10_menu_selection_stays_in_range (acts : list Action) (s : Scene) :
  menuInRange s ->
  menuInRange (perform acts s) /\
  (choiceMenuVisible (perform acts s) = true ->
   exists c, selectedOption (perform acts s) = Some c).
Proof.
  intros H.
  assert (Hr : menuInRange (perform acts s)).
  { unfold perform. revert s H.
    induction acts as [| a acts IH]; intros s H; cbn; [done |].
    apply IH. destruct a as [dx dy | e]; cbn.
    - by apply menuInRange_movePlayer.
    - by apply menuInRange_step. }
  split; [done |]. intros Hv. specialize (Hr Hv).
  unfold selectedOption, jsIndex.
  destruct (Z.ltb_spec (choiceMenuSelectedIndex (perform acts s)) 0); [lia |].
  apply lookup_lt_is_Some_2. lia.
Qed.

(** X11.  An engine event passes data to [SaveManager.save] only in a
    frame that confirms an entry of a choice menu: an entry of the
    save-slot menu whose label names a slot that has no occupied preview,
    or "Yes" in the overwrite menu, which saves to the slot selected
    before.  Such a frame makes one call, for the scene's hero; every other
    event makes none. *)
Theorem X11_saves_only_from_confirmed_menu_entries (e : Event) (s : Scene) :
  saveCallsOf (effects (step e s)) = saveCallsOf (effects s) \/
  exists k d,
    e = Frame k /\ choiceMenuVisible s = true /\
    enterJustDown k = true /\ escJustDown k = false /\
    saveCallsOf (effects (step e s)) = d :: saveCallsOf (effects s) /\
    sd_mainHero d = heroId s /\
    ((choiceMenuCallback s = Some SaveSlotChoice /\
      (exists c, selectedOption s = Some c /\
                 matchSlot c = Some (sd_slot d)) /\
      forall p,
        List.find (fun q => slot q =? sd_slot d) (saveSlotPreviews s)
          = Some p -> isEmpty p = true) \/
     (choiceMenuCallback s = Some OverwriteChoice /\
      selectedOption s = Some "Yes" /\ sd_slot d = selectedSaveSlot s)).
Proof.
  assert (Hsave : forall t n s0,
            exists d, saveCallsOf (effects (saveGame t n s0)) =
                        d :: saveCallsOf (effects s0) /\
                      sd_mainHero d = heroId s0 /\ sd_slot d = n).
  { intros t n s0. destruct (saveGame_log t n s0) as (ok & -> & _).
    by eexists. }
  destruct s, e; open_handlers;
    cbn -[matchSlot pretty slotLabel saveGame].
  all: crush; cbn -[matchSlot pretty slotLabel saveGame];
    try (left; reflexivity).
  all: right;
    match goal with
    | |- context [saveGame ?t ?n ?s0] =>
        destruct (Hsave t n s0) as (d & Hd & Hh & Hn)
    end;
    eexists _, d; split; [reflexivity |];
    do 3 (split; [done |]); split; [exact Hd |]; split; [exact Hh |].
  - left. split; [done |]. split; [eexists; split; [done |]; by rewrite Hn |].
    rewrite Hn. cbn in *. intros p Hp.
    match goal with
    | H : List.find _ _ = Some ?q, E : negb (isEmpty ?q) = false |- _ =>
        rewrite H in Hp; injection Hp as <-; by apply negb_false_iff in E
    end.
  - left. split; [done |]. split; [eexists; split; [done |]; by rewrite Hn |].
    rewrite Hn. cbn in *. intros p Hp. congruence.
  - right. split; [done |]. split; [| done].
    match goal with
    | H : bool_decide _ = true |- _ => by apply bool_decide_eq_true in H
    end.
Qed.
End More.

#[local] Existing Instance Sample.unitTypes.
#[local] Existing Instance Sample.slotStore.

Lemma X1_slot_label_parses_back_to_slot_witness :
  matchSlot (slotLabel (Sample.previewOf Sample.oneSave 1)) = Some 1.
Proof.
  apply (proj1 (X1_slot_label_parses_back_to_slot
                  (Sample.previewOf Sample.oneSave 1))).
  vm_compute. split; [discriminate | reflexivity].
Defined.

Lemma X2_save_menu_entries_witness :
  let s := setChoiceMenuSelectedIndex 1 (showSaveSlotSelection Sample.town) in
  saveMenuOpen s /\ menuConfirm Sample.pressEnter /\
  saveSlotPreviews s !! 1%nat = Some (Sample.previewOf Sample.oneSave 2) /\
  exists d ok,
    effects (update Sample.pressEnter s) = SaveCall d ok :: effects s /\
    sd_slot d = 2.
Proof.
  intros s.
  assert (Ho : saveMenuOpen s) by (repeat split; reflexivity).
  assert (Hk : menuConfirm Sample.pressEnter) by (repeat split; reflexivity).
  assert (Hp : saveSlotPreviews s !! 1%nat =
               Some (Sample.previewOf Sample.oneSave 2)) by reflexivity.
  split; [exact Ho |]. split; [exact Hk |]. split; [exact Hp |].
  destruct (X2_save_menu_entries s Sample.pressEnter 1
              (Sample.previewOf Sample.oneSave 2) Ho Hk Hp) as (Hsave & _).
  destruct Hsave as (_ & Hlog);
    [reflexivity | vm_compute; split; [discriminate | reflexivity]
                                 | vm_compute; reflexivity | reflexivity |].
  exact Hlog.
Defined.

Lemma X6_bumping_into_npc_then_talking_witness :
  let s := setPosition 17 11 Sample.town in
  exists npc,
    npcTile npc = (17, 10) /\
    isInDialogue (update Sample.pressEnter (movePlayer 0 (-1) s)) = true.
Proof.
  intros s.
  destruct (X6_bumping_into_npc_then_talking s 0 (-1) Sample.pressEnter)
    as (_ & _ & _ & npc & _ & Ht & _ & Hd & _);
    [ right; right; left; split; reflexivity | reflexivity | reflexivity
    | reflexivity | reflexivity | reflexivity
    | repeat split; reflexivity |].
  exists npc. split; [exact Ht | exact Hd].
Defined.

Lemma X8_create_copies_terrain_and_opens_gate_witness :
  exists s0,
    create Sample.newGame (Some Sample.townMap) 0 (fun _ => true)
      (fresh (SM := Sample.slotStore) Sample.oneSave) = Some s0 /\
    terrainAt (terrain s0) 13 1 = Some 0 /\
    terrainAt (terrain s0) 0 0 = Some 2.
Proof.
  destruct (create Sample.newGame (Some Sample.townMap) 0 (fun _ => true)
              (fresh (SM := Sample.slotStore) Sample.oneSave)) as [s0 |] eqn:Hc;
    [| vm_compute in Hc; discriminate].
  exists s0. split; [reflexivity |].
  destruct (X8_create_copies_terrain_and_opens_gate Sample.newGame
              Sample.townMap 0 (fun _ => true) (fresh (SM := Sample.slotStore) Sample.oneSave))
    as (_ & H).
  destruct (H s0 Hc) as (_ & Hcell). split.
  - apply (proj1 (Hcell 13 1)). apply elem_of_cons. by left.
  - rewrite (proj2 (Hcell 0 0)); [reflexivity |].
    unfold openedTiles. rewrite !elem_of_cons, elem_of_nil.
    intros [H0 | [H0 | [H0 | [H0 | []]]]]; discriminate.
Defined.

Lemma X9_player_stays_inside_grid_witness :
  inGrid
    (perform [Move 0 (-1); Engine TweenComplete; Move (-40) 3]
       Sample.town).
Proof.
  apply X9_player_stays_inside_grid. unfold inGrid. vm_compute.
  repeat split; discriminate.
Defined.

Lemma X10_menu_selection_stays_in_range_witness :
  let s :=
    perform [Engine (Frame Sample.pressDown); Engine (Frame Sample.pressDown);
             Engine (Frame Sample.pressDown); Engine (Frame Sample.pressDown)]
      (showSaveSlotSelection Sample.town) in
  choiceMenuVisible s = true /\ exists c, selectedOption s = Some c.
Proof.
  intros s. split; [reflexivity |].
  apply (X10_menu_selection_stays_in_range
           [Engine (Frame Sample.pressDown); Engine (Frame Sample.pressDown);
            Engine (Frame Sample.pressDown); Engine (Frame Sample.pressDown)]
           (showSaveSlotSelection Sample.town)).
  - intros _. vm_compute. split; [discriminate | reflexivity].
  - reflexivity.
Defined.
End Ishetar2More.

(** ** TravelScene: further properties *)

Module TravelMore.
Import TravelScene.

Section More.
Context `{GT : GameTypes}.

(** *** Standing on open ground *)

Lemma onOpenGround_motion s s' :
  motion s = motion s' -> onOpenGround s -> onOpenGround s'.
Proof.
  unfold motion, onOpenGround, isPassable, blockedLocationAt,
    getLocationAtPosition.
  intros H.
  replace (playerGridX s') with (playerGridX s) by congruence.
  replace (playerGridY s') with (playerGridY s) by congruence.
  replace (mapGridWidth s') with (mapGridWidth s) by congruence.
  replace (mapGridHeight s') with (mapGridHeight s) by congruence.
  replace (terrain s') with (terrain s) by congruence.
  by replace (locations s') with (locations s) by congruence.
Qed.

Lemma onOpenGround_movePlayer dx dy s :
  onOpenGround s -> onOpenGround (movePlayer dx dy s).
Proof.
  intros H.
  destruct (TravelFacts.travel_movePlayer_cases dx dy s)
    as [-> | [-> | [(l & _ & _ & _ & _ & _ & ->) | (_ & _ & Hp & Hb & ->)]]];
    [done | by destruct s | by destruct s |].
  revert Hp Hb. clear. destruct s. unfold onOpenGround. by cbn.
Qed.

Lemma ground_tween s rest :
  let s' := moveTweenComplete (setTweens rest s) in
  (playerGridX s', playerGridY s', terrain s', mapGridWidth s',
   mapGridHeight s', locations s') =
  (playerGridX s, playerGridY s, terrain s, mapGridWidth s,
   mapGridHeight s, locations s).
Proof.
  destruct s. unfold moveTweenComplete, checkSpecialTriggers. cbn.
  destruct (ambushDue _); [reflexivity |].
  unfold checkLocationProximity, promptLocationInteraction,
    sceneStartDialogue. cbn.
  repeat case_match; reflexivity.
Qed.

Lemma onOpenGround_tween s rest :
  onOpenGround s -> onOpenGround (moveTweenComplete (setTweens rest s)).
Proof.
  pose proof (ground_tween s rest) as H. cbv zeta in H.
  unfold onOpenGround, isPassable, blockedLocationAt, getLocationAtPosition.
  set (s' := moveTweenComplete (setTweens rest s)) in *.
  replace (playerGridX s') with (playerGridX s) by congruence.
  replace (playerGridY s') with (playerGridY s) by congruence.
  replace (mapGridWidth s') with (mapGridWidth s) by congruence.
  replace (mapGridHeight s') with (mapGridHeight s) by congruence.
  replace (terrain s') with (terrain s) by congruence.
  by replace (locations s') with (locations s) by congruence.
Qed.

(** X12.  On the travel map a player on open ground (inside the grid, not
    on impassable terrain, not on a tile whose location is a blocked one)
    stays on open ground under every call of [movePlayer] and every engine
    event; so the location found under the player, which is the one
    [tryInteract] and [checkLocationProximity] prompt for, is never a
    blocked one. *)
Theorem X12_travel_player_stays_on_open_ground
    (acts : list Action) (s : Scene) :
  onOpenGround s ->
  onOpenGround (perform acts s) /\
  forall l,
    getLocationAtPosition (perform acts s)
      (playerGridX (perform acts s)) (playerGridY (perform acts s)) = Some l ->
    isBlocked (locType l) = false.
Proof.
  intros H.
  assert (Hg : onOpenGround (perform acts s)).
  { revert acts s H. apply (TravelFacts.perform_preserves onOpenGround).
    - intros. by apply onOpenGround_movePlayer.
    - apply (TravelFacts.travel_step_preserves onOpenGround).
      + intros. by eapply onOpenGround_motion.
      + intros. by apply onOpenGround_movePlayer.
      + intros. by apply onOpenGround_tween. }
  split; [done |]. intros l Hl. destruct Hg as (_ & Hb).
  unfold blockedLocationAt in Hb. rewrite Hl in Hb.
  by destruct (isBlocked (locType l)).
Qed.

(** *** The scenes the travel map starts *)

Lemma starts_quiet_tween s :
  sceneStarts (effects (moveTweenComplete s)) = sceneStarts (effects s).
Proof.
  destruct s. unfold moveTweenComplete, checkSpecialTriggers. cbn.
  destruct (ambushDue _); [reflexivity |].
  unfold checkLocationProximity, promptLocationInteraction,
    sceneStartDialogue. cbn.
  repeat case_match; reflexivity.
Qed.

Lemma starts_quiet_movePlayer dx dy s :
  sceneStarts (effects (movePlayer dx dy s)) = sceneStarts (effects s).
Proof.
  destruct s. unfold movePlayer, sceneStartDialogue. cbn.
  repeat case_match; reflexivity.
Qed.

Lemma properStart_travelToLocation l s :
  Forall properStart (sceneStarts (effects s)) ->
  Forall properStart (sceneStarts (effects (travelToLocation l s))).
Proof.
  intros H. destruct s. unfold travelToLocation. cbn in *.
  destruct (locType l); [| | done |].
  - destruct (truthyString (targetScene l)); [| done].
    destruct (flagSet gameFlags0 "hellhound_cave_battle_complete") eqn:Hf;
      cbn; constructor; try done; unfold properStart; cbn; rewrite Hf; eauto.
  - destruct (truthyString (battleMap l)); [| done].
    cbn. constructor; [| done]. unfold properStart. cbn. eauto 10.
  - destruct (truthyString (exploreMap l)); [| done].
    cbn. constructor; [| done]. unfold properStart. cbn. eauto 10.
Qed.

Lemma properStart_advanceDialogue s :
  Forall properStart (sceneStarts (effects s)) ->
  Forall properStart (sceneStarts (effects (advanceDialogue s))).
Proof.
  intros H. unfold advanceDialogue.
  destruct (advance (dialogueRenderer s)) as [d [cb |]];
    [| by destruct s].
  assert (H1 : Forall properStart
                 (sceneStarts (effects (setDialogueRenderer d s))))
    by (by destruct s).
  destruct cb as [| | l]; cbn.
  - revert H1. by destruct s.
  - revert H1. destruct s. cbn. intros H1. constructor; [| done].
    unfold properStart. cbn. eauto 10.
  - by apply properStart_travelToLocation.
Qed.

Lemma properStart_tryInteract s :
  Forall properStart (sceneStarts (effects s)) ->
  Forall properStart (sceneStarts (effects (tryInteract s))).
Proof.
  intros H. unfold tryInteract.
  destruct (isInDialogue s); [by apply properStart_advanceDialogue |].
  revert H. destruct s. unfold promptLocationInteraction, sceneStartDialogue.
  cbn. intros H. by repeat case_match.
Qed.

Lemma properStart_step e s :
  Forall properStart (sceneStarts (effects s)) ->
  Forall properStart (sceneStarts (effects (step e s))).
Proof.
  intros H. destruct e as [k | |]; cbn.
  - unfold update.
    destruct (hasOverlay s && overlayWaiting k);
      [revert H; destruct s; cbn; by repeat case_match |].
    destruct (escJustDown k); [revert H; by destruct s |].
    destruct (choiceMenuVisible s);
      [revert H; destruct s; cbn; by repeat case_match |].
    set (s1 := if enterJustDown k then tryInteract s else s).
    assert (H1 : Forall properStart (sceneStarts (effects s1))).
    { subst s1. destruct (enterJustDown k); [| done].
      by apply properStart_tryInteract. }
    destruct (negb (isInDialogue s1) && negb (isMoving s1)); [| done].
    repeat case_match; try done; by rewrite starts_quiet_movePlayer.
  - destruct (tweens s) as [| p rest] eqn:Ht; [done |].
    rewrite starts_quiet_tween. revert H. by destruct s.
  - destruct (timers s) as [| [l] rest]; [done |].
    revert H. by destruct s.
Qed.

(** X13.  Whatever is called on the travel map, the scenes it starts are
    [IshetarScene2], [IshetarScene3], [BattleScene] and [ExploreScene],
    never [IshetarScene1]: a town is entered as [IshetarScene3] exactly
    when the flags passed along hold [hellhound_cave_battle_complete], a
    battle is given its map and the travel map as the scene to return to,
    an exploration its map. *)
Theorem X13_travel_map_starts_only_proper_scenes
    (acts : list Action) (s : Scene) :
  Forall properStart (sceneStarts (effects s)) ->
  Forall properStart (sceneStarts (effects (perform acts s))) /\
  forall p, ("IshetarScene1", p) ∉ sceneStarts (effects (perform acts s)).
Proof.
  intros H.
  assert (Hf : Forall properStart (sceneStarts (effects (perform acts s)))).
  { revert acts s H.
    apply (TravelFacts.perform_preserves
             (fun s => Forall properStart (sceneStarts (effects s)))).
    - intros. by rewrite starts_quiet_movePlayer.
    - intros. by apply properStart_step. }
  split; [done |]. intros p Hin.
  rewrite Forall_forall in Hf. specialize (Hf _ Hin).
  unfold properStart in Hf.
  destruct Hf as [(? & _) | [(? & _) | [(? & _) | (? & _)]]]; discriminate.
Qed.

(** *** A new run of the scene *)

Lemma movePlayer_first_warning dx dy s l :
  isMoving s = false -> isInDialogue s = false ->
  locId l ∉ shownBlockedDialogue s ->
  isPassable s (playerGridX s + dx) (playerGridY s + dy) = true ->
  blockedLocationAt s (playerGridX s + dx) (playerGridY s + dy) = Some l ->
  movePlayer dx dy s = warned l (turned dx dy s).
Proof.
  intros Hm Hd Hn Hp Hb. unfold movePlayer. rewrite Hm, Hd. cbn.
  fold (turned dx dy s).
  replace (isPassable (turned dx dy s) (playerGridX s + dx)
             (playerGridY s + dy))
    with (isPassable s (playerGridX s + dx) (playerGridY s + dy))
    by (by destruct s).
  rewrite Hp. cbn.
  replace (blockedLocationAt (turned dx dy s) (playerGridX s + dx)
             (playerGridY s + dy))
    with (blockedLocationAt s (playerGridX s + dx) (playerGridY s + dy))
    by (by destruct s).
  rewrite Hb.
  replace (shownBlockedDialogue (turned dx dy s))
    with (shownBlockedDialogue s) by (by destruct s).
  rewrite bool_decide_eq_false_2 by done.
  unfold warned. by destruct s.
Qed.

(** X14.  [create] forgets which blocked locations have shown their
    warning: in a scene just created, the first move onto a passable tile
    of a blocked location starts that location's warning again, whatever
    the earlier run of the scene object had shown, and does not move the
    player. *)
Theorem X14_create_forgets_shown_warnings
    (data : CreateData) (md : TravelMapData) (prev : Scene)
    (dx dy : Z) (l : LocationMarker) :
  let s := create data md prev in
  isPassable s (playerGridX s + dx) (playerGridY s + dy) = true ->
  blockedLocationAt s (playerGridX s + dx) (playerGridY s + dy) = Some l ->
  movePlayer dx dy s = warned l (turned dx dy s) /\
  warnings (locId l) (effects (movePlayer dx dy s)) =
    S (warnings (locId l) (effects prev)) /\
  (playerGridX (movePlayer dx dy s), playerGridY (movePlayer dx dy s)) =
    (playerGridX s, playerGridY s) /\
  isInDialogue (movePlayer dx dy s) = true.
Proof.
  intros s Hp Hb.
  assert (Hmv : movePlayer dx dy s = warned l (turned dx dy s)).
  { by apply movePlayer_first_warning. }
  split; [done |]. rewrite Hmv. unfold warned, turned. cbn.
  by rewrite String.eqb_refl.
Qed.
End More.

#[local] Existing Instance Sample.unitTypes.

Lemma X12_travel_player_stays_on_open_ground_witness :
  onOpenGround
    (perform [Move 1 0; Engine TweenComplete; Move 0 1; Move 30 30]
       (Sample.world (1, 1) ∅)).
Proof.
  apply X12_travel_player_stays_on_open_ground. split; reflexivity.
Defined.

Lemma X13_travel_map_starts_only_proper_scenes_witness :
  let s :=
    perform [Move (-1) 0; Engine TweenComplete;
             Engine (Frame (Sample.travelKeys true false false false false))]
      (Sample.world (6, 2) ∅) in
  map fst (sceneStarts (effects s)) = ["IshetarScene2"] /\
  Forall properStart (sceneStarts (effects s)).
Proof.
  intros s. split; [vm_compute; reflexivity |].
  apply X13_travel_map_starts_only_proper_scenes. constructor.
Defined.

Lemma X14_create_forgets_shown_warnings_witness :
  let s := Sample.world (6, 6) ∅ in
  warnings "red_vale" (effects (movePlayer 1 0 s)) = 1%nat /\
  isInDialogue (movePlayer 1 0 s) = true.
Proof.
  intros s.
  destruct (X14_create_forgets_shown_warnings
              (Sample.travelData ∅) (Sample.worldMap (6, 6)) fresh 1 0
              Sample.redVale) as (_ & Hw & _ & Hd);
    [reflexivity | reflexivity |].
  split; [exact Hw | exact Hd].
Defined.
End TravelMore.

(** ** NarratorScene: further properties *)

Module NarratorMore.
Import NarratorScene.

Section More.
Context `{SM : SaveManager}.

(** X15.  A frame of the delete prompt calls [SaveManager.delete] exactly
    when the confirm key is read and the answer then highlighted is "Yes"
    (index 1), the answer being the one set by the right or left key of
    that same frame, or else the one highlighted before; the slot deleted
    is the one the prompt was opened for.  Every other frame leaves log and
    store alone.  After a confirm the prompt is gone and the previews are
    those of the store. *)
Theorem X15_delete_only_on_confirmed_yes (k : Keys) (s : Scene) :
  let answer :=
    if rightJustDown k then 1
    else if leftJustDown k then 0 else deleteConfirmSelection s in
  let s' := updateDeleteConfirm k s in
  (if enterJustDown k && (answer =? 1)
   then effects s' = SaveDelete (slotToDelete s) :: effects s /\
        saveStore s' = SaveManager_delete (slotToDelete s) (saveStore s)
   else effects s' = effects s /\ saveStore s' = saveStore s) /\
  (enterJustDown k = true ->
   saveSlotPreviews s' = SaveManager_getAllSlotPreviews (saveStore s') /\
   deleteConfirmTexts s' = [] /\ currentPhase s' <> delete_confirm) /\
  (enterJustDown k = false -> escJustDown k = false ->
   currentPhase s' = currentPhase s /\ deleteConfirmSelection s' = answer).
Proof.
  destruct s. unfold updateDeleteConfirm, confirmDelete, refreshPreviews.
  destruct (rightJustDown k), (leftJustDown k), (enterJustDown k),
    (escJustDown k); cbn;
    repeat match goal with
           | |- context [if ?x then _ else _] => destruct x eqn:?; cbn
           end;
    repeat split; try done; try congruence.
Qed.

(** *** The highlighted row of the save-slot list *)





(** X17.  On an empty slot the keys that load or delete do nothing: with
    an empty preview highlighted, a frame of the save-slot list that reads
    neither an arrow key nor the cancel key leaves the scene as it is,
    whichever of the confirm, delete and backspace keys it reads. *)
Theorem X17_empty_slot_is_ignored
    (k : Keys) (s : Scene) (p : SaveSlotPreview) :
  selectedPreview s = Some p -> isEmpty p = true ->
  upJustDown k = false -> downJustDown k = false -> escJustDown k = false ->
  updateSaveSelect k s = s.
Proof.
  intros Hsel He Hu Hd Hesc. unfold updateSaveSelect.
  rewrite Hu, Hd, Hesc.
  assert (H1 : selectSaveSlot s = s)
    by (unfold selectSaveSlot; by rewrite Hsel, He).
  assert (H2 : showDeleteConfirmation s = s)
    by (unfold showDeleteConfirmation; by rewrite Hsel, He).
  destruct (enterJustDown k); rewrite ?H1;
    destruct (deleteJustDown k || backspaceJustDown k); by rewrite ?H2.
Qed.

(** *** Choosing a hero *)

Lemma updateHeroSelection_range k h :
  0 <= h <= 4 -> 0 <= updateHeroSelection k h <= 4.
Proof.
  intros Hh. unfold updateHeroSelection.
  repeat match goal with
         | |- context [if ?x then _ else _] => destruct x eqn:?
         end; lia.
Qed.

(** X18.  In the hero selection the highlighted index stays among the five
    heroes under any frames, so the confirm key always finds a hero; the
    left and right keys alone never leave the row (indices 0 to 2, or 3 and
    4), the down key alone leads from the upper row to the lower one and the
    up key alone from the lower row to index 1. *)
Theorem X18_hero_selection_stays_on_a_hero (ks : list Keys) (h : Z) :
  0 <= h <= 4 ->
  let h' := fold_left (fun i k => updateHeroSelection k i) ks h in
  0 <= h' <= 4 /\
  (exists hero, selectedHeroId h' = Some hero) /\
  forall k,
    (upJustDown k = false -> downJustDown k = false ->
     (updateHeroSelection k h' <= 2 <-> h' <= 2)) /\
    (leftJustDown k = false -> rightJustDown k = false ->
     upJustDown k = false -> downJustDown k = true ->
     3 <= updateHeroSelection k h') /\
    (leftJustDown k = false -> rightJustDown k = false ->
     downJustDown k = false -> upJustDown k = true ->
     updateHeroSelection k h' = if 3 <=? h' then 1 else h').
Proof.
  intros Hh h'.
  assert (Hr : 0 <= h' <= 4).
  { subst h'. revert h Hh. induction ks as [| k ks IH]; intros h Hh; [done |].
    cbn. apply IH. by apply updateHeroSelection_range. }
  split; [done |]. split.
  - unfold selectedHeroId, jsIndex.
    destruct (Z.ltb_spec h' 0); [lia |].
    destruct (lookup_lt_is_Some_2 heroes (Z.to_nat h')) as [o Ho];
      [cbn; lia |].
    rewrite Ho. by eexists.
  - intros k. unfold updateHeroSelection. split; [| split].
    + intros -> ->.
      repeat match goal with
             | |- context [if ?x then _ else _] => destruct x eqn:?
             end; lia.
    + intros -> -> -> ->.
      repeat match goal with
             | |- context [if ?x then _ else _] => destruct x eqn:?
             end; lia.
    + by intros -> -> -> ->.
Qed.
End More.

#[local] Existing Instance Sample.unitTypes.
#[local] Existing Instance Sample.slotStore.


Lemma X17_empty_slot_is_ignored_witness :
  let s := setSaveSlotSelection 1 (Sample.slotListOf Sample.oneSave) in
  let k :=
    {| upJustDown := false; downJustDown := false; leftJustDown := false;
       rightJustDown := false; enterJustDown := true;
       deleteJustDown := true; backspaceJustDown := false;
       escJustDown := false |} in
  updateSaveSelect k s = s.
Proof.
  intros s k.
  apply (X17_empty_slot_is_ignored k s
           (Sample.previewOf Sample.oneSave 2)); reflexivity.
Defined.

Lemma X18_hero_selection_stays_on_a_hero_witness :
  let right :=
    {| upJustDown := false; downJustDown := false; leftJustDown := false;
       rightJustDown := true; enterJustDown := false;
       deleteJustDown := false; backspaceJustDown := false;
       escJustDown := false |} in
  let down :=
    {| upJustDown := false; downJustDown := true; leftJustDown := false;
       rightJustDown := false; enterJustDown := false;
       deleteJustDown := false; backspaceJustDown := false;
       escJustDown := false |} in
  exists hero,
    selectedHeroId
      (fold_left (fun i k => updateHeroSelection k i)
         [right; right; right; down; right] 0) = Some hero.
Proof.
  intros right down.
  destruct (X18_hero_selection_stays_on_a_hero
              [right; right; right; down; right] 0) as (_ & Hhero & _);
    [lia |].
  exact Hhero.
Defined.
End NarratorMore.

(** ** Saving in the town and continuing from the title screen *)

Module ContinueMore.

Section More.
Context `{SM : SaveManager}.

(** X4.  What [IshetarScene2.saveGame] hands to the save manager comes back
    when the slot is picked in the narrator's list and the manager returns
    that data: the narrator loads the slot and starts [IshetarScene2], whose
    [create] takes hero states, inventory, chests and play time from the
    save, and the saved flags, which are the scene's flags with
    [south_gate_battle_complete] set.  The saved player position is not
    used: the new run keeps the position the scene object had. *)
Theorem X4_town_save_restored_on_continue
    (s : IshetarScene2.Scene) (t n : Z) (d : SaveData) (ok : bool)
    (ns : NarratorScene.Scene) (p : SaveSlotPreview)
    (md : option IshetarScene2.MapData) (t' : Z)
    (textureExists : string -> bool) (prev s' : IshetarScene2.Scene) :
  IshetarScene2.effects (IshetarScene2.saveGame t n s) =
    IshetarScene2.SaveCall d ok :: IshetarScene2.effects s ->
  NarratorScene.selectedPreview ns = Some p -> isEmpty p = false ->
  SaveManager_load (slot p) (NarratorScene.saveStore ns) = Some d ->
  IshetarScene2.create (NarratorScene.townStartData d) md t' textureExists
    prev = Some s' ->
  NarratorScene.effects (NarratorScene.selectSaveSlot ns) =
    NarratorScene.SceneStartTown "IshetarScene2" d ::
    NarratorScene.SaveLoad (slot p) :: NarratorScene.effects ns /\
  IshetarScene2.heroId s' = orString (Some (IshetarScene2.heroId s)) "vicas" /\
  IshetarScene2.heroState s' = IshetarScene2.heroState s /\
  IshetarScene2.inventory s' = IshetarScene2.inventory s /\
  IshetarScene2.chestStates s' = IshetarScene2.chestStates s /\
  IshetarScene2.gameFlags s' =
    <["south_gate_battle_complete" := true]> (IshetarScene2.gameFlags s) /\
  IshetarScene2.playTime s' =
    IshetarScene2.playTime s + (t - IshetarScene2.sessionStartTime s) / 1000 /\
  IshetarScene2.sessionStartTime s' = t' /\
  (IshetarScene2.playerGridX s', IshetarScene2.playerGridY s') =
    (IshetarScene2.playerGridX prev, IshetarScene2.playerGridY prev).
Proof.
  intros Hsave Hsel He Hload Hcreate.
  destruct (Ishetar2More.saveGame_log t n s) as (ok' & Hl & _).
  rewrite Hl in Hsave. injection Hsave as <- _.
  split.
  - unfold NarratorScene.selectSaveSlot. rewrite Hsel, He.
    replace (NarratorScene.saveStore
               (NarratorScene.emit (NarratorScene.SaveLoad (slot p)) ns))
      with (NarratorScene.saveStore ns) by (by destruct ns).
    rewrite Hload. cbn. by destruct ns.
  - unfold IshetarScene2.create in Hcreate. cbn in Hcreate.
    destruct md as [m |]; cbn in Hcreate.
    + destruct (IshetarScene2.openNorthGate _) as [tr |]; [| done].
      cbn in Hcreate. injection Hcreate as <-. cbn.
      repeat (split; [done |]). split; [| done].
      destruct (Z.eqb_spec
                  (IshetarScene2.playTime s +
                   (t - IshetarScene2.sessionStartTime s) / 1000) 0)
        as [-> |]; done.
    + injection Hcreate as <-. cbn.
      repeat (split; [done |]). split; [| done].
      destruct (Z.eqb_spec
                  (IshetarScene2.playTime s +
                   (t - IshetarScene2.sessionStartTime s) / 1000) 0)
        as [-> |]; done.
Qed.

(** X5.  A save whose map is [quetzi_shrine_exploration] continues on the
    travel map: the narrator starts [TravelScene] with the saved state and
    the position (4, 13), and [TravelScene.create] puts the player there,
    whatever position the save holds and wherever the map's own start is,
    with no location warning remembered and nothing in motion. *)
Theorem X5_shrine_save_continues_on_travel_map
    (ns : NarratorScene.Scene) (p : SaveSlotPreview) (d : SaveData)
    (md : TravelScene.TravelMapData) (prev : TravelScene.Scene) :
  NarratorScene.selectedPreview ns = Some p -> isEmpty p = false ->
  SaveManager_load (slot p) (NarratorScene.saveStore ns) = Some d ->
  sd_currentMap d = "quetzi_shrine_exploration" ->
  let s' :=
    TravelScene.create (NarratorScene.travelStartData d (4, 13)) md prev in
  NarratorScene.effects (NarratorScene.selectSaveSlot ns) =
    NarratorScene.SceneStartTravel d (4, 13) ::
    NarratorScene.SaveLoad (slot p) :: NarratorScene.effects ns /\
  (TravelScene.playerGridX s', TravelScene.playerGridY s') = (4, 13) /\
  TravelScene.heroState s' = default ∅ (sd_heroState d) /\
  TravelScene.gameFlags s' = default ∅ (sd_flags d) /\
  TravelScene.playTime s' = default 0 (sd_playTime d) /\
  TravelScene.inventory s' =
    default createDefaultInventory (sd_inventory d) /\
  TravelScene.chestStates s' = default ∅ (sd_chests d) /\
  TravelScene.shownBlockedDialogue s' = ∅ /\
  TravelScene.isMoving s' = false /\ TravelScene.isInDialogue s' = false.
Proof.
  intros Hsel He Hload Hmap s'. split.
  - unfold NarratorScene.selectSaveSlot. rewrite Hsel, He.
    replace (NarratorScene.saveStore
               (NarratorScene.emit (NarratorScene.SaveLoad (slot p)) ns))
      with (NarratorScene.saveStore ns) by (by destruct ns).
    rewrite Hload, Hmap. cbn. by destruct ns.
  - subst s'. cbn. repeat (split; [done |]). split; [| done].
    destruct (sd_playTime d) as [z |]; [| done]. cbn.
    by destruct (Z.eqb_spec z 0) as [-> |].
Qed.
End More.

#[local] Existing Instance Sample.unitTypes.
#[local] Existing Instance Sample.slotStore.

Lemma X4_town_save_restored_on_continue_witness :
  let saved := IshetarScene2.saveGame 65000 1 Sample.town in
  exists s',
    IshetarScene2.create
      (NarratorScene.townStartData
         (default Sample.vicasSave (IshetarScene2.saveStore saved !! 1)))
      (Some Sample.townMap) 70000 (fun _ => true)
      (IshetarScene2.fresh ∅) = Some s' /\
    IshetarScene2.playTime s' = 165 /\
    IshetarScene2.gameFlags s' = IshetarScene2.gameFlags Sample.town.
Proof.
  intros saved.
  destruct (IshetarScene2.create
      (NarratorScene.townStartData
         (default Sample.vicasSave (IshetarScene2.saveStore saved !! 1)))
      (Some Sample.townMap) 70000 (fun _ => true)
      (IshetarScene2.fresh ∅)) as [s' |] eqn:Hc; [| vm_compute in Hc; done].
  exists s'. split; [reflexivity |].
  destruct (X4_town_save_restored_on_continue Sample.town 65000 1
              (default Sample.vicasSave (IshetarScene2.saveStore saved !! 1))
              true
              (Sample.slotListOf (IshetarScene2.saveStore saved))
              (Sample.previewOf (IshetarScene2.saveStore saved) 1)
              (Some Sample.townMap) 70000 (fun _ => true)
              (IshetarScene2.fresh ∅) s')
    as (_ & _ & _ & _ & _ & Hf & Hp & _);
    [reflexivity | reflexivity | reflexivity | reflexivity | exact Hc |].
  split; [rewrite Hp; reflexivity | rewrite Hf; reflexivity].
Defined.

Lemma X5_shrine_save_continues_on_travel_map_witness :
  let ns :=
    NarratorScene.setSaveSlotSelection 1
      (Sample.slotListOf {[ 2 := Sample.shrineSave ]}) in
  NarratorScene.effects (NarratorScene.selectSaveSlot ns) =
    [NarratorScene.SceneStartTravel Sample.shrineSave (4, 13);
     NarratorScene.SaveLoad 2] /\
  TravelScene.playTime
    (TravelScene.create
       (NarratorScene.travelStartData Sample.shrineSave (4, 13))
       (Sample.worldMap (1, 1)) TravelScene.fresh) = 640.
Proof.
  intros ns.
  destruct (X5_shrine_save_continues_on_travel_map ns
              (Sample.previewOf {[ 2 := Sample.shrineSave ]} 2)
              Sample.shrineSave (Sample.worldMap (1, 1)) TravelScene.fresh)
    as (Hlog & _ & _ & _ & Hp & _);
    [reflexivity | reflexivity | reflexivity | reflexivity |].
  split; [exact Hlog | exact Hp].
Defined.
End ContinueMore.
